(** * VocalDocs: the stage-handoff layer of the document-to-audio pipeline

    A shallow embedding of the Lambda handlers of the repository
    (image_converter, polly_invoker, codebuild_invoker, track_execution)
    and the properties of their job supervision, chunking and status
    handling.

    Conventions.
    - A Python [str] is a [string]: a sequence of characters whose code
      points are below 256.  [len] counts characters.
    - An S3 bucket is a finite map from keys to bodies, the DynamoDB table
      a finite map from [reference_key] to the item's attributes.
    - A call that can raise returns a [result]; a handler returns a
      [result] together with the final state of the services it wrote to. *)

From Stdlib Require Import ZArith Lia List Ascii String Bool.
From stdpp Require Import gmap strings pretty.
Import ListNotations.
Open Scope string_scope.
Open Scope list_scope.

(* String concatenation reduces on a literal first argument. *)
#[global] Arguments String.append !s1 s2 : simpl nomatch.

(** ** Python strings *)

Module PyStr.

(** [str.isspace] on one character, for code points below 256:
    TAB..CR, FS..US, SPACE, NEL and NBSP. *)
Definition isspace (c : ascii) : bool :=
  let n := N_of_ascii c in
  (((9 <=? n) && (n <=? 13)) || ((28 <=? n) && (n <=? 32))
   || (n =? 133) || (n =? 160))%N.

Definition len (s : string) : Z := Z.of_nat (String.length s).

(** [sep.join(parts)] *)
Definition join (sep : string) (parts : list string) : string :=
  String.concat sep parts.

(** The word being scanned is emitted when it is not empty. *)
Definition flush (cur : string) : list string :=
  match cur with
  | EmptyString => []
  | String _ _ => [cur]
  end.

(** [s.split()] without arguments: runs of whitespace separate the words,
    leading and trailing whitespace produce no empty word.  [cur] is the
    word read so far. *)
Fixpoint split_from (cur s : string) : list string :=
  match s with
  | EmptyString => flush cur
  | String c s' =>
      if isspace c then flush cur ++ split_from "" s'
      else split_from (cur +:+ String c "") s'
  end.

Definition split (s : string) : list string := split_from "" s.

(** [s.split(sep)] for a one-character separator: every occurrence cuts,
    empty fields are kept, the result is never empty. *)
Fixpoint split_on_from (sep : ascii) (cur s : string) : list string :=
  match s with
  | EmptyString => [cur]
  | String c s' =>
      if Ascii.eqb c sep then cur :: split_on_from sep "" s'
      else split_on_from sep (cur +:+ String c "") s'
  end.

Definition split_on (sep : ascii) (s : string) : list string :=
  split_on_from sep "" s.

(** [bool(s.strip())] is false: the string holds only whitespace. *)
Fixpoint is_blank (s : string) : bool :=
  match s with
  | EmptyString => true
  | String c s' => isspace c && is_blank s'
  end.

(** [s.lower()] on one character: A..Z and the upper-case letters of
    Latin-1 move 32 places up. *)
Definition lower_char (c : ascii) : ascii :=
  let n := N_of_ascii c in
  if (((65 <=? n) && (n <=? 90))
      || ((192 <=? n) && (n <=? 222) && negb (n =? 215)))%N
  then ascii_of_N (n + 32) else c.

Fixpoint lower (s : string) : string :=
  match s with
  | EmptyString => EmptyString
  | String c s' => String (lower_char c) (lower s')
  end.

(** The line feed; the text artifact ends every page with two of them. *)
Definition LF : string := String "010"%char "".

(** [c * n] *)
Fixpoint repeat_char (c : ascii) (n : nat) : string :=
  match n with
  | O => EmptyString
  | S n' => String c (repeat_char c n')
  end.

(** [sorted(keys)] on strings: a stable insertion sort by code points. *)
Fixpoint insert_sorted (k : string) (l : list string) : list string :=
  match l with
  | [] => [k]
  | k' :: l' => if String.leb k k' then k :: l else k' :: insert_sorted k l'
  end.

Definition sorted (l : list string) : list string :=
  fold_right insert_sorted [] l.

(** [s.lstrip(c)] for one character [c]. *)
Fixpoint lstrip (c : ascii) (s : string) : string :=
  match s with
  | EmptyString => EmptyString
  | String d s' => if Ascii.eqb d c then lstrip c s' else s
  end.

(** The character [c] does not occur in the string. *)
Fixpoint no_char (c : ascii) (s : string) : bool :=
  match s with
  | EmptyString => true
  | String d s' => negb (Ascii.eqb d c) && no_char c s'
  end.

(** A word: not empty and free of whitespace. *)
Fixpoint no_space (s : string) : bool :=
  match s with
  | EmptyString => true
  | String c s' => negb (isspace c) && no_space s'
  end.

Definition is_word (s : string) : Prop := s <> "" /\ no_space s = true.

End PyStr.

Import PyStr.

#[global] Arguments join : simpl never.


(** ** Exceptions, results and the handler monad *)

(** The exceptions the handlers meet, each with the text [str(e)] is built
    from.  All of them are subclasses of [Exception]; [ClientError] is
    botocore's, [SdkError] stands for every other error the SDK raises
    (connection, parameter validation). *)
Inductive exn : Type :=
| KeyError (key : string)
| IndexError
| UnboundLocalError (name : string)
| ValueError (msg : string)
| ClientError (msg : string)
| SdkError (msg : string)
| Exception (msg : string).

Definition is_client_error (e : exn) : bool :=
  match e with
  | ClientError _ => true
  | _ => false
  end.

Definition str_exn (e : exn) : string :=
  match e with
  | KeyError k => "'" +:+ k +:+ "'"
  | IndexError => "list index out of range"
  | UnboundLocalError n =>
      "cannot access local variable '" +:+ n
        +:+ "' where it is not associated with a value"
  | ValueError m | ClientError m | SdkError m | Exception m => m
  end.

(** What a call does: it returns, it raises, or a loop that the model
    bounds by fuel has not finished when the fuel ran out. *)
Inductive result (A : Type) : Type :=
| Ok (a : A)
| Raise (e : exn)
| NoFuel.

Arguments Ok {A} a.
Arguments Raise {A} e.
Arguments NoFuel {A}.

(** What the environment answers to a call of a service. *)
Inductive reply (A : Type) : Type :=
| Returns (a : A)
| Fails (e : exn).

Arguments Returns {A} a.
Arguments Fails {A} e.

(** What the handlers record of their calls to the job engines and of their
    waits, oldest first. *)
Inductive event : Type :=
| EvSleep (ms : Z)
| EvStartBuild (project : string)
| EvPollBuild (build_id : string) (at_ms : Z)
| EvStartTask (task_id : string)
| EvPollTask (task_id : string) (at_ms : Z).

(** A synthesis request as Polly keeps it: where the audio goes and what
    is read. *)
Record task_request : Type := TaskRequest {
  tr_bucket : string;
  tr_prefix : string;
  tr_text : string;
  tr_voice : string;
  tr_language_code : string
}.

(** The services a handler talks to: the buckets, the task table, the
    clock in milliseconds, the record of engine calls and the synthesis
    tasks Polly holds. *)
Record world : Type := World {
  s3 : gmap (string * string) string;
  table : gmap string (gmap string string);
  now : Z;
  log : list event;
  tasks : gmap string task_request
}.

Definition set_s3 (f : gmap (string * string) string -> gmap (string * string) string)
    (w : world) : world :=
  World (f (s3 w)) (table w) (now w) (log w) (tasks w).

Definition set_table
    (f : gmap string (gmap string string) -> gmap string (gmap string string))
    (w : world) : world :=
  World (s3 w) (f (table w)) (now w) (log w) (tasks w).

Definition set_now (f : Z -> Z) (w : world) : world :=
  World (s3 w) (table w) (f (now w)) (log w) (tasks w).

Definition add_event (e : event) (w : world) : world :=
  World (s3 w) (table w) (now w) (log w ++ [e]) (tasks w).

Definition set_tasks
    (f : gmap string task_request -> gmap string task_request)
    (w : world) : world :=
  World (s3 w) (table w) (now w) (log w) (f (tasks w)).

(** A handler step: from a world to a result and the world it leaves. *)
Definition M (A : Type) : Type := world -> result A * world.

#[global] Instance M_ret : MRet M := fun A a w => (Ok a, w).

#[global] Instance M_bind : MBind M := fun A B k m w =>
  match m w with
  | (Ok a, w') => k a w'
  | (Raise e, w') => (Raise e, w')
  | (NoFuel, w') => (NoFuel, w')
  end.

Definition raise {A : Type} (e : exn) : M A := fun w => (Raise e, w).

Definition out_of_fuel {A : Type} : M A := fun w => (NoFuel, w).

(** [try: m  except Exception as e: h e] *)
Definition try_except {A : Type} (m : M A) (h : exn -> M A) : M A := fun w =>
  match m w with
  | (Raise e, w') => h e w'
  | r => r
  end.

(** [try: m  except ClientError as e: h e]; any other exception goes on. *)
Definition try_except_client {A : Type} (m : M A) (h : exn -> M A) : M A :=
  try_except m (fun e => if is_client_error e then h e else raise e).

Definition get_world : M world := fun w => (Ok w, w).

Definition modify (f : world -> world) : M unit := fun w => (Ok tt, f w).

(** A service call that the environment may make fail. *)
Definition faulty {A : Type} (fault : option exn) (m : M A) : M A :=
  match fault with
  | Some e => raise e
  | None => m
  end.

(** [d[key]] on a value that may be missing. *)
Definition subscript {A : Type} (key : string) (v : option A) : M A :=
  match v with
  | Some a => mret a
  | None => raise (KeyError key)
  end.

(** [time.time()] and [time.sleep], in milliseconds. *)
Definition time : M Z := fun w => (Ok (now w), w).

Definition sleep (ms : Z) : M unit :=
  modify (fun w => add_event (EvSleep ms) (set_now (fun t => t + ms)%Z w)).

(** *** S3 *)

Definition has_prefix (bucket prefix : string)
    (o : string * string * string) : bool :=
  String.eqb (o.1.1) bucket && String.prefix prefix (o.1.2).

(** The keys of a bucket under a prefix, all pages of the listing. *)
Definition list_keys (bucket prefix : string) (w : world) : list string :=
  map (fun o : string * string * string => o.1.2)
      (List.filter (has_prefix bucket prefix) (map_to_list (s3 w))).

(** The paginated [list_objects_v2]. *)
Definition list_objects (bucket prefix : string) : M (list string) :=
  fun w => (Ok (list_keys bucket prefix w), w).

Definition get_object (bucket key : string) : M string := fun w =>
  match s3 w !! (bucket, key) with
  | Some body => (Ok body, w)
  | None => (Raise (ClientError "NoSuchKey"), w)
  end.

Definition put_object (bucket key body : string) : M unit :=
  modify (set_s3 (insert (bucket, key) body)).

(** Copying needs the source; deleting a missing key is no error. *)
Definition copy_object (bucket source_key key : string) : M unit :=
  body ← get_object bucket source_key;
  modify (set_s3 (insert (bucket, key) body)).

Definition delete_object (bucket key : string) : M unit :=
  modify (set_s3 (delete (bucket, key))).

(** *** The task table *)

Definition TaskStatus_of (reference_key : string) (w : world) : option string :=
  item ← table w !! reference_key; item !! "TaskStatus".

(** [update_item] with [SET TaskStatus = :status]: the attribute is set on
    the item, which is created with its key when it is missing. *)
Definition update_item (reference_key status : string) : M unit :=
  modify (set_table (fun t =>
    let item := default {[ "reference_key" := reference_key ]}
                        (t !! reference_key) in
    <[ reference_key := <[ "TaskStatus" := status ]> item ]> t)).

Definition get_item (reference_key : string) : M (option (gmap string string)) :=
  fun w => (Ok (table w !! reference_key), w).

(** One entry of the list a user-requests query answers with. *)
Record request : Type := Request {
  req_reference_key : string;
  req_fileName : string;
  req_TaskStatus : string
}.

(** The body of a response: a plain string, or what [json.dumps] is given
    (a string, a flat object of strings, or the object holding the list
    of requests). *)
Inductive body_text : Type :=
| Plain (s : string)
| DumpsStr (s : string)
| DumpsObj (fields : list (string * string))
| DumpsRequests (requests : list request).

Record response : Type := Response {
  statusCode : Z;
  body : body_text
}.

(** The answer of the environment as a step. *)
Definition lift {A : Type} (r : reply A) : M A := fun w =>
  match r with
  | Returns a => (Ok a, w)
  | Fails e => (Raise e, w)
  end.

(** Two worlds that differ in the task table at most. *)
Definition same_but_table (w1 w2 : world) : Prop :=
  s3 w1 = s3 w2 /\ now w1 = now w2 /\ log w1 = log w2 /\ tasks w1 = tasks w2.

(** A step that does not read the task table: from worlds that differ in
    the table at most it gives the same result and leaves worlds that
    differ in the table at most. *)
Definition table_blind {A : Type} (m : M A) : Prop :=
  forall w1 w2, same_but_table w1 w2 ->
    (m w1).1 = (m w2).1 /\ same_but_table (m w1).2 (m w2).2.

(** From [w] to [w'] nothing changed but, at most, the object under
    [object] and the item under [item]: the other objects and items, the
    clock, the record of calls and the synthesis tasks are the same. *)
Definition changes_only (object : option (string * string))
    (item : option string) (w w' : world) : Prop :=
  now w' = now w /\ log w' = log w /\ tasks w' = tasks w
  /\ (forall k, Some k <> object -> s3 w' !! k = s3 w !! k)
  /\ (forall k, Some k <> item -> table w' !! k = table w !! k).

(** A step that ends in every world: it returns or raises. *)
Definition finishes {A : Type} (m : M A) : Prop :=
  forall w, (m w).1 <> NoFuel.

(** ** upload_execution: the record a submission creates *)

Module UploadExecution.

(** The status [lambda_handler] stores with a new task. *)
Definition INITIAL_STATUS : string := "Upload-Completed".

(** The item put in the table for an upload. *)
Definition new_item (reference_key file_name language start_page end_page
    s3_path upload_date_time username expires_at : string)
    : gmap string string :=
  <[ "reference_key" := reference_key ]>
  (<[ "FileName" := file_name ]>
  (<[ "Language" := language ]>
  (<[ "StartPage" := start_page ]>
  (<[ "EndPage" := end_page ]>
  (<[ "S3Path" := s3_path ]>
  (<[ "UploadDateTime" := upload_date_time ]>
  (<[ "TaskStatus" := INITIAL_STATUS ]>
  (<[ "Username" := username ]>
  (<[ "ExpiresAt" := expires_at ]> ∅))))))))).

(** The event of an upload, with the fields it may lack. *)
Record upload_event : Type := UploadEvent {
  ev_fileName : option string;
  ev_language : option string;
  ev_startPage : option string;
  ev_endPage : option string;
  ev_fileContent : option string;
  ev_username : option string
}.

(** What the environment decides: the bucket of the deployment, the Base64
    decoding (which raises on malformed input), the identifier [uuid4]
    draws, the ISO text of a time, and whether storing the file or the
    record fails. *)
Record services : Type := Services {
  S3_BUCKET : string;
  b64decode : string -> reply string;
  uuid4 : string;
  isoformat : Z -> string;
  put_object_fault : option exn;
  put_item_fault : option exn
}.

(** One week, in seconds. *)
Definition WEEK : Z := 604800.

Definition SUBMITTED : string :=
  "Your document has been submitted, it may take up to 5 minutes to complete the Job.".

(** The key of an uploaded file. *)
Definition upload_key (reference_key file_name : string) : string :=
  "upload/" +:+ reference_key +:+ "/" +:+ file_name.

(** [table.put_item(Item=item)]: the item replaces the one with its key. *)
Definition put_item (reference_key : string) (item : gmap string string)
    : M unit :=
  modify (set_table (insert reference_key item)).

Section Handler.

Variable sv : services.

(** The clock is in milliseconds; [expiration_timestamp] is the whole
    seconds of one week later. *)
Definition lambda_handler (event : upload_event) : M response :=
  try_except
    (file_name ← subscript "fileName" (ev_fileName event);
     language ← subscript "language" (ev_language event);
     start_page ← subscript "startPage" (ev_startPage event);
     end_page ← subscript "endPage" (ev_endPage event);
     file_content_base64 ← subscript "fileContent" (ev_fileContent event);
     username ← subscript "username" (ev_username event);
     file_content ← lift (b64decode sv file_content_base64);
     let reference_key := uuid4 sv in
     let s3_path := upload_key reference_key file_name in
     faulty (put_object_fault sv)
       (put_object (S3_BUCKET sv) s3_path file_content);;
     current_datetime ← time;
     let current_datetime_iso := isoformat sv current_datetime in
     let expiration_timestamp :=
       Z.quot (current_datetime + WEEK * 1000) 1000 in
     faulty (put_item_fault sv)
       (put_item reference_key
          (new_item reference_key file_name language start_page end_page
             ("s3://" +:+ S3_BUCKET sv +:+ "/" +:+ s3_path)
             current_datetime_iso username (pretty expiration_timestamp)));;
     mret (Response 200
             (DumpsObj [("message", SUBMITTED);
                        ("reference_key", reference_key)])))
    (fun e =>
       mret (Response 500 (DumpsStr ("An error occurred: " +:+ str_exn e)))).

End Handler.

End UploadExecution.

(** ** codebuild_artifacts: the keys of the page images *)

Module CodebuildArtifacts.

(** The statuses the rasterize stage writes. *)
Definition STATUS_COMPLETED : string := "pdf-to-images conversion is completed".
Definition STATUS_FAILED : string := "pdf-to-images conversion is failed".

(** The key the rasterize stage gives the [i]-th image of a conversion
    that starts at [start_page]. *)
Definition image_key (reference_key : string) (i start_page : Z) : string :=
  "images/" +:+ reference_key +:+ "/page_" +:+ pretty (i + start_page)%Z
    +:+ ".png".

(** An attribute of the new image of a stream record: missing, present
    with another type than string, or a string. *)
Inductive attribute : Type :=
| Missing
| NotString
| S_ (s : string).

Record new_image : Type := NewImage {
  img_reference_key : attribute;
  img_S3Path : attribute;
  img_StartPage : attribute;
  img_EndPage : attribute
}.

(** The event of the stream: without [Records] (or empty), with a record
    from which the new image cannot be read (with the exception the
    subscripts raise), or with a new image. *)
Inductive stream_event : Type :=
| NoRecords
| NoNewImage (e : exn)
| Image (image : new_image).

(** The message published for the extract-text stage. *)
Record notification : Type := Notification {
  n_topic : string;
  n_reference_key : string;
  n_bucket : string;
  n_images : list string
}.

(** What the handler returns: the body of the response 200, or of the
    response 500. *)
Inductive answer : Type :=
| Processed (reference_key : string) (pages_processed : nat)
    (images_uploaded : list string)
| Failed (error : string) (reference_key : string).

(** What the environment decides: the topic, [urlparse] (the [netloc] and
    the [path] of a URI), [int], [repr] of a string, [json.dumps] of the
    event, whether the download fails, the images [convert_from_path]
    gives for a PDF and a page range, the PNG bytes of an image, and
    whether storing an image under a key, updating the table or publishing
    fails. *)
Record services : Type := Services {
  topic_arn : string;
  urlparse : string -> string * string;
  int_of : string -> reply Z;
  repr : string -> string;
  dumps_event : string;
  download_fault : option exn;
  convert_from_path : string -> Z -> Z -> reply (list string);
  save_png : string -> reply string;
  put_object_fault : string -> option exn;
  update_item_fault : option exn;
  publish_fault : option exn
}.

(** [dynamodb_item[name]["S"]] *)
Definition string_of (name : string) (a : attribute) : M string :=
  match a with
  | Missing => raise (KeyError name)
  | NotString => raise (KeyError "S")
  | S_ s => mret s
  end.

(** [reference_key] is bound in the outer [except] clause when the
    assignment in the [try] block was reached and gave a value. *)
Definition bound_reference_key (event : stream_event) : option string :=
  match event with
  | Image image =>
      match img_reference_key image with
      | S_ reference_key => Some reference_key
      | _ => None
      end
  | _ => None
  end.

(** The keys of [n] images in a row, the first one with index [i]. *)
Definition page_keys (reference_key : string) (start_page i : Z) (n : nat)
    : list string :=
  map (fun j => image_key reference_key (i + Z.of_nat j) start_page)
      (seq 0 n).

(** What the loop keeps: it returns; it touches the bucket only; every
    object stays or is one of the images; the keys it adds are keys of
    images that are in the bucket. *)
Definition loop_keeps (bucket reference_key : string) (start_page : Z)
    (uploaded : list string) (w : world)
    (r : result (list string) * world) : Prop :=
  exists new,
    r.1 = Ok (uploaded ++ new)
    /\ table r.2 = table w /\ now r.2 = now w /\ log r.2 = log w
    /\ tasks r.2 = tasks w
    /\ (forall k, is_Some (s3 w !! k) -> is_Some (s3 r.2 !! k))
    /\ (forall k, (forall j, k <> (bucket,
                                  image_key reference_key j start_page)) ->
                  s3 r.2 !! k = s3 w !! k)
    /\ Forall (fun key =>
                 (exists j, key = image_key reference_key j start_page)
                 /\ is_Some (s3 r.2 !! (bucket, key))) new.

Section Handler.

Variable sv : services.

(** [Exception(fmt, arg)]: the text of an exception with two arguments
    is the text of the pair. *)
Definition Exception2 (fmt arg : string) : exn :=
  Exception ("(" +:+ repr sv fmt +:+ ", " +:+ repr sv arg +:+ ")").

Definition parse_s3_path (s3_path : string) : string * string :=
  let parsed := urlparse sv s3_path in
  (parsed.1, lstrip "/" parsed.2).

(** Every exception is logged and dropped. *)
Definition update_dynamodb_status (reference_key status : string) : M unit :=
  try_except
    (faulty (update_item_fault sv) (update_item reference_key status))
    (fun _ => mret tt).

(** The body of the [for i, image in enumerate(images)] loop: an image
    that cannot be stored is logged and skipped. *)
Definition upload_image (bucket reference_key : string) (start_page : Z)
    (i : Z) (image : string) (uploaded_images : list string)
    : M (list string) :=
  try_except
    (img_byte_arr ← lift (save_png sv image);
     let image_key := image_key reference_key i start_page in
     faulty (put_object_fault sv image_key)
       (put_object bucket image_key img_byte_arr);;
     mret (uploaded_images ++ [image_key]))
    (fun _ => mret uploaded_images).

Fixpoint for_images (bucket reference_key : string) (start_page : Z)
    (images : list string) (i : Z) (uploaded_images : list string)
    : M (list string) :=
  match images with
  | [] => mret uploaded_images
  | image :: rest =>
      uploaded ← upload_image bucket reference_key start_page i image
                   uploaded_images;
      for_images bucket reference_key start_page rest (i + 1)%Z uploaded
  end.

(** The [try] block of [lambda_handler].  It gives the answer and the
    message handed to SNS, if one was. *)
Definition handler_try (event : stream_event)
    : M (answer * option notification) :=
  image ← match event with
          | NoRecords =>
              raise (Exception2 "Invalid event structure. Event: %s"
                       (dumps_event sv))
          | NoNewImage e =>
              raise (Exception2 "Failed to process DynamoDB event: %s"
                       (str_exn e))
          | Image image => mret image
          end;
  parsed ← try_except
    (reference_key ← string_of "reference_key" (img_reference_key image);
     s3_path ← string_of "S3Path" (img_S3Path image);
     let location := parse_s3_path s3_path in
     start ← string_of "StartPage" (img_StartPage image);
     start_page ← lift (int_of sv start);
     end_ ← string_of "EndPage" (img_EndPage image);
     end_page ← lift (int_of sv end_);
     mret (reference_key, location, start_page, end_page))
    (fun e =>
       raise (Exception2 "Failed to process DynamoDB event: %s" (str_exn e)));
  let reference_key := parsed.1.1.1 in
  let bucket := parsed.1.1.2.1 in
  let key := parsed.1.1.2.2 in
  let start_page := parsed.1.2 in
  let end_page := parsed.2 in
  pdf ← try_except
    (faulty (download_fault sv) (get_object bucket key))
    (fun e =>
       raise (Exception2 "Failed to download PDF from S3: %s" (str_exn e)));
  images ← try_except
    (lift (convert_from_path sv pdf start_page end_page))
    (fun e => raise (Exception2 "PDF conversion failed: %s" (str_exn e)));
  uploaded_images ← for_images bucket reference_key start_page images 0 [];
  update_dynamodb_status reference_key STATUS_COMPLETED;;
  published ← try_except
    (faulty (publish_fault sv)
       (mret (Some (Notification (topic_arn sv) reference_key bucket
                      uploaded_images))))
    (fun _ => mret None);
  mret (Processed reference_key (length images) uploaded_images, published).

Definition lambda_handler (event : stream_event)
    : M (answer * option notification) :=
  try_except (handler_try event)
    (fun e =>
       let error_message := "Error processing PDF: " +:+ str_exn e in
       match bound_reference_key event with
       | None => raise (UnboundLocalError "reference_key")
       | Some reference_key =>
           update_dynamodb_status reference_key STATUS_FAILED;;
           mret (Failed error_message reference_key, None)
       end).

End Handler.

End CodebuildArtifacts.

(** ** image_converter: the extract-text stage *)

Module ImageConverter.

(** What the environment decides: the Base64 encoding, Bedrock's reply to
    an image (an exception, a body without [content[0].text], or the
    text), and whether listing, storing the artifact or updating the table
    fails. *)
Record services : Type := Services {
  b64encode : string -> string;
  invoke_model : string -> reply (option string);
  paginate_fault : option exn;
  put_object_fault : option exn;
  update_item_fault : option exn
}.

(** The message of the SNS notification, with the fields it may lack. *)
Record sns_message : Type := SnsMessage {
  msg_reference_key : option string;
  msg_bucket : option string
}.

Definition STATUS_NO_IMAGES : string := "pdf-to-images is failed".
Definition STATUS_COMPLETED : string := "images-to-text conversion is completed".
Definition STATUS_FAILED : string := "images-to-text conversion is failed".

Definition output_key (reference_key : string) : string :=
  "download/" +:+ reference_key +:+ "/formatted_output.txt".

Definition images_prefix (reference_key : string) : string :=
  "images/" +:+ reference_key +:+ "/".

(** The world the stage leaves when it stores an artifact and its success
    status. *)
Definition stored (reference_key bucket text : string) (w : world) : world :=
  (update_item reference_key STATUS_COMPLETED
     (put_object bucket (output_key reference_key) text w).2).2.

Section Handler.

Variable sv : services.

(** Both [except] clauses log and raise again. *)
Definition update_dynamodb (reference_key status : string) : M unit :=
  try_except
    (faulty (update_item_fault sv) (update_item reference_key status))
    (fun e => raise e).

Definition process_image_claude (image_base64 : string) : M string :=
  try_except
    (reply ← lift (invoke_model sv image_base64);
     subscript "content" reply)
    (fun e =>
       match e with
       | KeyError _ =>
           raise (Exception ("Failed to parse Bedrock response: " +:+ str_exn e))
       | _ => raise e
       end).

(** The text the loop adds for an image: none when the object cannot be
    read or Bedrock does not answer with a text. *)
Definition page_text (w : world) (bucket image_key : string) : option string :=
  match s3 w !! (bucket, image_key) with
  | Some image_content =>
      match invoke_model sv (b64encode sv image_content) with
      | Returns (Some text) => Some text
      | _ => None
      end
  | None => None
  end.

Definition add_page (w : world) (bucket all_text image_key : string) : string :=
  match page_text w bucket image_key with
  | Some text => all_text +:+ text +:+ LF +:+ LF
  | None => all_text
  end.

(** The text artifact built from the images under the given keys. *)
Definition artifact_text (w : world) (bucket : string) (keys : list string)
    : string :=
  fold_left (add_page w bucket) keys "".

(** The body of the [for obj in sorted(...)] loop: a failure is logged and
    the text so far is kept. *)
Definition add_image_text (bucket all_text_claude image_key : string)
    : M string :=
  try_except
    (image_content ← get_object bucket image_key;
     text ← process_image_claude (b64encode sv image_content);
     mret (all_text_claude +:+ text +:+ LF +:+ LF))
    (fun _ => mret all_text_claude).

Fixpoint for_images (bucket : string) (keys : list string)
    (all_text_claude : string) : M string :=
  match keys with
  | [] => mret all_text_claude
  | image_key :: rest =>
      all_text ← add_image_text bucket all_text_claude image_key;
      for_images bucket rest all_text
  end.

(** The [try] block of [lambda_handler]; [event] is the parsed message,
    [None] when the event does not hold one. *)
Definition handler_try (event : option sns_message) : M response :=
  message ← subscript "Message" event;
  reference_key ← subscript "reference_key" (msg_reference_key message);
  bucket ← subscript "bucket" (msg_bucket message);
  all_objects ← faulty (paginate_fault sv)
    (list_objects bucket (images_prefix reference_key));
  match all_objects with
  | [] =>
      update_dynamodb reference_key STATUS_NO_IMAGES;;
      mret (Response 200 (DumpsStr "No images found to process"))
  | _ :: _ =>
      all_text_claude ← for_images bucket (sorted all_objects) "";
      faulty (put_object_fault sv)
        (put_object bucket (output_key reference_key) all_text_claude);;
      update_dynamodb reference_key STATUS_COMPLETED;;
      mret (Response 200
              (DumpsStr "Images processed and text generated successfully!"))
  end.

(** [reference_key] is bound in the [except] clause when the message
    was read and holds it. *)
Definition bound_reference_key (event : option sns_message) : option string :=
  message ← event; msg_reference_key message.

Definition lambda_handler (event : option sns_message) : M response :=
  try_except (handler_try event)
    (fun e =>
       match bound_reference_key event with
       | None => raise (UnboundLocalError "reference_key")
       | Some reference_key =>
           update_dynamodb reference_key STATUS_FAILED;;
           raise e
       end).

End Handler.

(** The key of the artifact of the task an event names, when it names
    the task and the bucket. *)
Definition artifact_of (event : option sns_message)
    : option (string * string) :=
  message ← event;
  reference_key ← msg_reference_key message;
  bucket ← msg_bucket message;
  Some (bucket, output_key reference_key).

End ImageConverter.

(** ** polly_invoker: the synthesize-speech stage *)

Module PollyInvoker.

Definition MAX_CHARS : Z := 190000.

(** One iteration of the [for word in words] loop of [split_text]; the
    state is [(chunks, current_chunk)]. *)
Definition split_step (limit : Z) (st : list string * list string)
    (word : string) : list string * list string :=
  let '(chunks, current_chunk) := st in
  if (len (join " " (current_chunk ++ [word])) <=? limit)%Z
  then (chunks, current_chunk ++ [word])
  else (chunks ++ [join " " current_chunk], [word]).

(** [split_text] with the limit taken as an argument. *)
Definition split_text_with (limit : Z) (text : string) : list string :=
  let '(chunks, current_chunk) :=
    fold_left (split_step limit) (split text) ([], []) in
  match current_chunk with
  | [] => chunks
  | _ :: _ => chunks ++ [join " " current_chunk]
  end.

Definition split_text (text : string) : list string :=
  split_text_with MAX_CHARS text.

(** A chunk is within the limit, or is one word of the text, or is the
    empty string closed before any word was packed. *)
Definition chunk_shape (limit : Z) (all : list string) (c : string) : Prop :=
  c = "" \/ (len c <= limit)%Z \/ In c all.

Definition chunk_fits (limit : Z) (c : string) : Prop :=
  c <> "" /\ (len c <= limit)%Z.

(** The chunk [c] is full before the chunk [d]: with the first word of [d]
    added it would pass the limit. *)
Definition full_before (limit : Z) (c d : string) : Prop :=
  exists w, head (split d) = Some w
            /\ (limit < len (join " " (split c ++ [w])))%Z.

(** Properties of the state [(chunks, current_chunk)] that the loop of
    [split_text] keeps. *)

(** After the first chunk no chunk is empty. *)
Definition tail_nonempty (limit : Z) (st : list string * list string) : Prop :=
  Forall (fun c => c <> "") (tail st.1)
  /\ (st.2 = [] -> st.1 = [])
  /\ Forall is_word st.2.

(** Once a word is in the open chunk no chunk is empty. *)
Definition all_nonempty (limit : Z) (st : list string * list string) : Prop :=
  Forall (fun c => c <> "") st.1 /\ st.2 <> [] /\ Forall is_word st.2.

(** The empty chunk closed before a first word over the limit stays the
    first chunk. *)
Definition head_empty (limit : Z) (st : list string * list string) : Prop :=
  head st.1 = Some "".

(** Every closed chunk is full before its successor, and the last closed
    chunk is full before the open one. *)
Definition packed_tight (limit : Z) (st : list string * list string) : Prop :=
  (forall i c d, st.1 !! i = Some c -> st.1 !! S i = Some d ->
                 full_before limit c d)
  /\ (forall c, last st.1 = Some c ->
        exists w rest, st.2 = w :: rest
                       /\ (limit < len (join " " (split c ++ [w])))%Z)
  /\ Forall is_word st.2.

(** What the environment decides: Polly's answer to a submission (given
    the request and the number of tasks it already holds), the status and
    the duration in milliseconds of a poll of a task at a time, the audio of
    a request, and which S3 and table operations fail. *)
Record services : Type := Services {
  start_speech_synthesis_task : task_request -> nat -> reply string;
  get_speech_synthesis_task : string -> Z -> reply (string * N);
  synthesize : task_request -> string;
  s3_fault : string -> option exn;
  get_item_fault : option exn;
  update_item_fault : option exn
}.

Definition STATUS_READY : string := "Voice-is-Ready".
Definition STATUS_FAILED : string := "failed".

(** The deadline and the polling interval of [wait_for_polly_task], in
    milliseconds. *)
Definition WAIT_DEADLINE : Z := 300000.
Definition POLL_INTERVAL : Z := 5000.

(** Iterations of the polling loop before the deadline must have passed:
    every iteration but the last sleeps for the interval. *)
Definition wait_fuel : nat := S (Z.to_nat (WAIT_DEADLINE / POLL_INTERVAL)).

Definition destination_key (reference_key : string) : string :=
  "download/" +:+ reference_key +:+ "/Audio.mp3".

Definition TIMED_OUT (task_id : string) : exn :=
  Exception ("Speech synthesis task timed out: " +:+ task_id).

Definition TASK_FAILED (task_id : string) : exn :=
  Exception ("Speech synthesis task failed: " +:+ task_id).

(** The key Polly writes the audio of a task to, and the URI it reports. *)
Definition output_key_of (task_id : string) (req : task_request) : string :=
  tr_prefix req +:+ "." +:+ task_id +:+ ".mp3".

Definition output_uri_of (task_id : string) (req : task_request) : string :=
  "https://s3.amazonaws.com/" +:+ tr_bucket req +:+ "/"
    +:+ output_key_of task_id req.

(** A poll of a synthesis task started before the deadline. *)
Definition polled_before (deadline : Z) (e : event) : Prop :=
  match e with
  | EvPollTask _ t => (t < deadline)%Z
  | _ => True
  end.

(** The world after a poll that started at [now w] and took [latency]. *)
Definition polled (task_id : string) (latency : N) (w : world) : world :=
  set_now (fun t => t + Z.of_N latency)%Z
    (add_event (EvPollTask task_id (now w)) w).

(** The fuel is enough for the time left to the deadline. *)
Definition enough_fuel (fuel : nat) (end_time : Z) (w : world) : Prop :=
  fuel <> O /\ (end_time - now w <= POLL_INTERVAL * (Z.of_nat fuel - 1))%Z.

(** A chunk is empty or holds something to read. *)
Definition empty_or_spoken (c : string) : Prop :=
  c = "" \/ is_blank c = false.

Definition chunks_spoken (st : list string * list string) : Prop :=
  Forall empty_or_spoken st.1 /\ Forall is_word st.2.

(** The key of the manifest of a task with several chunks. *)
Definition combined_key (reference_key : string) : string :=
  "download/" +:+ reference_key +:+ "/combined_audio_info.txt".

(** The file name and the key of the audio of the chunk [0] of a task. *)
Definition chunk_0_file (task_id : string) : string :=
  "chunk_0_." +:+ task_id +:+ ".mp3".

Definition chunk_0_key (reference_key task_id : string) : string :=
  "download/" +:+ reference_key +:+ "/" +:+ chunk_0_file task_id.

(** The status requests among recorded events. *)
Definition is_poll_task (e : event) : bool :=
  match e with
  | EvPollTask _ _ => true
  | _ => false
  end.

Definition polls (evs : list event) : nat :=
  length (List.filter is_poll_task evs).

Section Handler.

Variable sv : services.

(** The task is neither completed nor failed when polled at [t]. *)
Definition pending (task_id : string) (t : Z) : Prop :=
  exists status latency,
    get_speech_synthesis_task sv task_id t = Returns (status, latency)
    /\ status <> "completed" /\ status <> "failed".

Definition get_language_from_dynamodb (reference_key : string) : M string :=
  try_except_client
    (response ← faulty (get_item_fault sv) (get_item reference_key);
     item ← subscript "Item" response;
     language ← subscript "Language" (item !! "Language");
     mret (lower language))
    (fun e => raise e).

Definition get_voice_id (language : string) : M string :=
  if String.eqb language "english" then mret "Joanna"
  else if String.eqb language "arabic" then mret "Zeina"
  else raise (ValueError ("Unsupported language: " +:+ language)).

Definition get_language_code (language : string) : M string :=
  if String.eqb language "english" then mret "en-US"
  else if String.eqb language "arabic" then mret "arb"
  else raise (ValueError ("Unsupported language: " +:+ language)).

Definition start_polly_task (bucket reference_key text : string)
    (chunk_index : nat) (language : string) : M string :=
  if is_blank text
  then raise (ValueError "Empty text provided for speech synthesis")
  else
    try_except_client
      (let output_prefix :=
         "download/" +:+ reference_key +:+ "/chunk_" +:+ pretty chunk_index
           +:+ "_" in
       voice ← get_voice_id language;
       code ← get_language_code language;
       w ← get_world;
       let req := TaskRequest bucket output_prefix text voice code in
       task_id ← lift (start_speech_synthesis_task sv req (size (tasks w)));
       modify (fun w => add_event (EvStartTask task_id)
                          (set_tasks (insert task_id req) w));;
       mret task_id)
      (fun e => raise e).

(** One [get_speech_synthesis_task]: the poll is recorded with the time it
    starts at and takes the time the environment says; a task seen
    completed has its audio in the bucket.  The answer is the status and
    the output URI. *)
Definition poll_task (task_id : string) : M (string * string) :=
  t ← time;
  modify (add_event (EvPollTask task_id t));;
  reply ← lift (get_speech_synthesis_task sv task_id t);
  modify (set_now (fun t => t + Z.of_N reply.2)%Z);;
  w ← get_world;
  match tasks w !! task_id with
  | None => raise (ClientError "SynthesisTaskNotFoundException")
  | Some req =>
      (if String.eqb reply.1 "completed"
       then put_object (tr_bucket req) (output_key_of task_id req)
              (synthesize sv req)
       else mret tt);;
      mret (reply.1, output_uri_of task_id req)
  end.

(** The [while time.time() < end_time] loop. *)
Fixpoint wait_loop (fuel : nat) (task_id : string) (end_time : Z) : M string :=
  match fuel with
  | O => out_of_fuel
  | S fuel' =>
      t ← time;
      if (t <? end_time)%Z then
        task_status ← poll_task task_id;
        if String.eqb task_status.1 "completed" then
          subscript "-1" (last (split_on "/" task_status.2))
        else if String.eqb task_status.1 "failed" then
          raise (TASK_FAILED task_id)
        else
          sleep POLL_INTERVAL;;
          wait_loop fuel' task_id end_time
      else raise (TIMED_OUT task_id)
  end.

Definition wait_for_polly_task (task_id : string) : M string :=
  start_time ← time;
  wait_loop wait_fuel task_id (start_time + WAIT_DEADLINE)%Z.

Definition rename_to_audio_mp3 (bucket source_key reference_key : string)
    : M string :=
  try_except_client
    (faulty (s3_fault sv "CopyObject")
       (copy_object bucket source_key (destination_key reference_key));;
     faulty (s3_fault sv "DeleteObject") (delete_object bucket source_key);;
     mret (destination_key reference_key))
    (fun e => raise e).

Definition combine_audio_files (bucket reference_key : string)
    (audio_files : list string) : M string :=
  match audio_files with
  | [] => raise (ValueError "No audio files provided for combining")
  | _ :: _ =>
      let combined_key :=
        "download/" +:+ reference_key +:+ "/combined_audio_info.txt" in
      try_except_client
        (faulty (s3_fault sv "PutObject")
           (put_object bucket combined_key (join LF audio_files));;
         mret combined_key)
        (fun e => raise e)
  end.

(** A [ClientError] is logged and dropped. *)
Definition update_dynamodb_status (reference_key status : string) : M unit :=
  try_except_client
    (faulty (update_item_fault sv) (update_item reference_key status))
    (fun _ => mret tt).

(** The [for i, chunk in enumerate(text_chunks)] loop. *)
Fixpoint for_chunks (bucket reference_key language : string)
    (text_chunks : list string) (i : nat) (audio_files : list string)
    : M (list string) :=
  match text_chunks with
  | [] => mret audio_files
  | chunk :: rest =>
      task_id ← start_polly_task bucket reference_key chunk i language;
      audio_file ← wait_for_polly_task task_id;
      for_chunks bucket reference_key language rest (S i)
        (audio_files ++ [audio_file])
  end.

(** [l[i]] *)
Definition item_at {A : Type} (i : nat) (l : list A) : M A :=
  match l !! i with
  | Some a => mret a
  | None => raise IndexError
  end.

(** The [try] block of [lambda_handler]. *)
Definition handler_try (bucket key : string) : M response :=
  reference_key ← item_at 1 (split_on "/" key);
  language ← get_language_from_dynamodb reference_key;
  text_content ← faulty (s3_fault sv "GetObject") (get_object bucket key);
  let text_chunks := split_text text_content in
  audio_files ← for_chunks bucket reference_key language text_chunks 0 [];
  (if (1 <? length audio_files)%nat then
     combined_audio_key ← combine_audio_files bucket reference_key audio_files;
     rename_to_audio_mp3 bucket combined_audio_key reference_key
   else
     audio_file ← item_at 0 audio_files;
     rename_to_audio_mp3 bucket
       ("download/" +:+ reference_key +:+ "/" +:+ audio_file) reference_key);;
  update_dynamodb_status reference_key STATUS_READY;;
  mret (Response 200 (DumpsStr "Processing completed successfully")).

(** [event] is the bucket name and the object key of the S3 record, [None]
    when the event lacks them: they are read before the [try]. *)
Definition lambda_handler (event : option (string * string)) : M response :=
  record ← subscript "Records" event;
  try_except (handler_try record.1 record.2)
    (fun e =>
       match split_on "/" record.2 !! 1%nat with
       | None => raise (UnboundLocalError "reference_key")
       | Some reference_key =>
           update_dynamodb_status reference_key STATUS_FAILED;;
           mret (Response 500
                   (DumpsStr ("Error processing file: " +:+ str_exn e)))
       end).

End Handler.

End PollyInvoker.

(** ** codebuild_invoker: the build trigger *)

Module CodebuildInvoker.

(** What the environment decides: CodeBuild's answer to a submission for a
    project (given the number of submissions made before), and what a
    status request for a build returns at a time: an exception, an empty
    [builds] list, or the build status. *)
Record services : Type := Services {
  start_build : string -> nat -> reply string;
  batch_get_builds : string -> Z -> reply (option string)
}.

Definition max_attempts : Z := 3.

(** The waits of the handler, in milliseconds. *)
Definition POLL_SLEEP : Z := 10000.
Definition RETRY_SLEEP : Z := 30000.

Definition is_start_build (e : event) : bool :=
  match e with
  | EvStartBuild _ => true
  | _ => false
  end.

(** The submissions recorded so far. *)
Definition submissions (w : world) : nat :=
  length (List.filter is_start_build (log w)).

Definition is_retry_sleep (e : event) : bool :=
  match e with
  | EvSleep ms => (ms =? RETRY_SLEEP)%Z
  | _ => false
  end.

Definition retry_sleeps (w : world) : nat :=
  length (List.filter is_retry_sleep (log w)).

(** The submissions and the waits before a resubmission among events. *)
Definition starts (evs : list event) : nat :=
  length (List.filter is_start_build evs).

Definition retries (evs : list event) : nat :=
  length (List.filter is_retry_sleep evs).

(** [a or b] on values that are strings or missing. *)
Definition py_or (a b : option string) : option string :=
  match a with
  | Some (String _ _) => a
  | _ => b
  end.

Definition FAILED_RESPONSE : response :=
  Response 500
    (Plain ("Failed to complete build successfully after "
              +:+ pretty max_attempts +:+ " attempts")).

Definition SUCCESS_RESPONSE (build_id : string) (attempt : Z) : response :=
  Response 200
    (DumpsObj [("buildId", build_id); ("status", "SUCCESS");
               ("message",
                "Build completed successfully on attempt " +:+ pretty attempt)]).

(** What a monitoring round records: the sleep before the status request
    and the request for the build. *)
Definition monitor_event (build_id : string) (e : event) : Prop :=
  match e with
  | EvSleep ms => ms = POLL_SLEEP
  | EvPollBuild id _ => id = build_id
  | _ => False
  end.

Section Handler.

Variable sv : services.

(** A build that is in progress before [finish] and reports [final] from
    then on. *)
Definition build_ends (build_id : string) (finish : Z) (final : string)
    : Prop :=
  forall t,
    batch_get_builds sv build_id t
    = Returns (Some (if (t <? finish)%Z then "IN_PROGRESS" else final)).

(** A build that ends without success. *)
Definition build_fails (build_id : string) : Prop :=
  exists finish final,
    final <> "IN_PROGRESS" /\ final <> "SUCCEEDED"
    /\ build_ends build_id finish final.

Definition build_succeeds (build_id : string) : Prop :=
  exists finish, build_ends build_id finish "SUCCEEDED".

(** [codebuild_client.start_build(projectName=...)], returning the id. *)
Definition submit_build (project_name : string) : M string :=
  w ← get_world;
  modify (add_event (EvStartBuild project_name));;
  lift (start_build sv project_name (submissions w)).

(** [monitor_build]: the [while True] loop, one iteration per unit of
    fuel. *)
Fixpoint monitor_build (fuel : nat) (build_id : string) : M bool :=
  match fuel with
  | O => out_of_fuel
  | S fuel' =>
      sleep POLL_SLEEP;;
      returned ← try_except_client
        (t ← time;
         modify (add_event (EvPollBuild build_id t));;
         response ← lift (batch_get_builds sv build_id t);
         status ← match response with
                  | Some status => mret status
                  | None => raise IndexError
                  end;
         if negb (String.eqb status "IN_PROGRESS")
         then mret (Some (String.eqb status "SUCCEEDED"))
         else mret None)
        (fun _ => mret (Some false));
      match returned with
      | Some build_successful => mret build_successful
      | None => monitor_build fuel' build_id
      end
  end.

(** The [while attempt <= max_attempts] loop, entered with [remaining]
    attempts left, [remaining = max_attempts - attempt + 1].  It gives
    [success], [build_id] and [attempt] as they are after the loop. *)
Fixpoint attempt_loop (fuel : nat) (project_name : string) (remaining : nat)
    (attempt : Z) (build_id : string) : M (bool * string * Z) :=
  match remaining with
  | O => mret (false, build_id, attempt)
  | S remaining' =>
      build_successful ← monitor_build fuel build_id;
      if (build_successful : bool) then mret (true, build_id, attempt)
      else
        build_id' ←
          (if (attempt <? max_attempts)%Z then
             sleep RETRY_SLEEP;;
             try_except_client (submit_build project_name)
               (fun _ => mret build_id)
           else mret build_id);
        attempt_loop fuel project_name remaining' (attempt + 1)%Z build_id'
  end.

(** [event_project_name] is [event.get("project_name")],
    [env_project_name] is [os.environ.get("PROJECT_NAME")]. *)
Definition lambda_handler (fuel : nat)
    (event_project_name env_project_name : option string) : M response :=
  match py_or event_project_name env_project_name with
  | Some (String c s) =>
      let project_name := String c s in
      started ← try_except_client
        (build_id ← submit_build project_name; mret (inl build_id))
        (fun e =>
           mret (inr (Response 500
                        (Plain ("Failed to start build: " +:+ str_exn e)))));
      match started with
      | inr failure => mret failure
      | inl build_id =>
          final ← attempt_loop fuel project_name (Z.to_nat max_attempts) 1
                    build_id;
          if (final.1.1 : bool) then mret (SUCCESS_RESPONSE final.1.2 final.2)
          else mret FAILED_RESPONSE
      end
  | _ =>
      mret (Response 400 (Plain "Missing required parameter: project_name"))
  end.

End Handler.

End CodebuildInvoker.

(** ** track_execution: the user-requests query *)

Module TrackExecution.

(** What the environment decides: how many items one scan request reads,
    and whether a scan request fails. *)
Record services : Type := Services {
  page_limit : positive;
  scan_fault : option exn
}.

Definition READY : string := "Voice-is-Ready".
Definition IN_PROGRESS : string := "Work-In-Progress".

(** The [FilterExpression]: the item's [Username] is the given one. *)
Definition is_user (username : string) (item : gmap string string) : bool :=
  match item !! "Username" with
  | Some u => String.eqb u username
  | None => false
  end.

(** The status a request reports for an item. *)
Definition reported_status (item : gmap string string) : string :=
  match item !! "TaskStatus" with
  | Some status => if String.eqb status READY then READY else IN_PROGRESS
  | None => IN_PROGRESS
  end.

(** The item holds its key. *)
Definition has_key (item : gmap string string) : bool :=
  match item !! "reference_key" with
  | Some _ => true
  | None => false
  end.

(** The request built for an item that holds its key. *)
Definition to_request (item : gmap string string) : request :=
  Request (default "" (item !! "reference_key"))
    (default "Unknown file" (item !! "FileName"))
    (reported_status item).

Definition request_of (item : gmap string string) : M request :=
  reference_key ← subscript "reference_key" (item !! "reference_key");
  mret (Request reference_key
          (default "Unknown file" (item !! "FileName"))
          (reported_status item)).

Fixpoint for_items (items : list (gmap string string))
    (requests : list request) : M (list request) :=
  match items with
  | [] => mret requests
  | item :: rest =>
      request ← request_of item;
      for_items rest (requests ++ [request])
  end.

Section Handler.

Variable sv : services.

(** The [while True] loop over the pages of the scan: [remaining] are the
    items of the table not read yet, [LastEvaluatedKey] is present when
    some are left after the page. *)
Fixpoint scan_loop (fuel : nat) (username : string)
    (remaining items : list (gmap string string))
    : M (list (gmap string string)) :=
  match fuel with
  | O => out_of_fuel
  | S fuel' =>
      response ← faulty (scan_fault sv)
        (mret (take (Pos.to_nat (page_limit sv)) remaining));
      let items' := items ++ List.filter (is_user username) response in
      match drop (Pos.to_nat (page_limit sv)) remaining with
      | [] => @mret M _ _ items'
      | last_evaluated :: rest =>
          scan_loop fuel' username (last_evaluated :: rest) items'
      end
  end.

(** The items of the table, in the order the scan reads them. *)
Definition table_items (w : world) : list (gmap string string) :=
  map snd (map_to_list (table w)).

Definition get_user_requests (username : string) : M response :=
  try_except_client
    (w ← get_world;
     items ← scan_loop (S (length (table_items w))) username
               (table_items w) [];
     requests ← for_items items [];
     mret (Response 200 (DumpsRequests requests)))
    (fun e =>
       mret (Response 500 (DumpsStr ("An error occurred: " +:+ str_exn e)))).

End Handler.

(** *** The router and the download URL *)

(** The event of the router, with the fields it may lack. *)
Record event_fields : Type := EventFields {
  ev_username : option string;
  ev_action : option string;
  ev_reference_key : option string
}.

(** What the environment decides for a URL request: the bucket of the
    deployment, and the answer of the signer for a bucket, a key and a
    lifetime in seconds. *)
Record signer : Type := Signer {
  S3_BUCKET : string;
  presign : string -> string -> Z -> reply string
}.

Definition EXPIRES_IN : Z := 3600.

Definition NO_CACHE : list (string * string) :=
  [("Cache-Control", "no-store, no-cache, must-revalidate, max-age=0");
   ("Pragma", "no-cache"); ("Expires", "0")].

(** What the router returns: a response, or the response for a URL with
    its headers and the two fields of its body. *)
Inductive answer : Type :=
| Answer (r : response)
| UrlAnswer (status : Z) (headers : list (string * string))
    (presigned_url : string) (generated_at : Z).

Definition object_key (reference_key : string) : string :=
  "download/" +:+ reference_key +:+ "/Audio.mp3".

Definition INVALID_REQUEST : answer :=
  Answer (Response 400 (DumpsStr "Invalid request")).

Section Router.

Variable sg : signer.
Variable sv : services.

(** [current_time] is [int(time.time())], in seconds. *)
Definition generate_presigned_url (reference_key : string) : M answer :=
  t ← time;
  let current_time := Z.quot t 1000 in
  try_except_client
    (presigned_url ←
       lift (presign sg (S3_BUCKET sg) (object_key reference_key) EXPIRES_IN);
     mret (UrlAnswer 200 NO_CACHE presigned_url current_time))
    (fun e =>
       mret (Answer
               (Response 500
                  (DumpsStr ("Error generating URL: " +:+ str_exn e))))).

Definition lambda_handler (event : event_fields) : M answer :=
  match ev_username event with
  | Some username =>
      r ← get_user_requests sv username; mret (Answer r)
  | None =>
      match ev_action event, ev_reference_key event with
      | Some action, Some reference_key =>
          if String.eqb action "generate_url"
          then generate_presigned_url reference_key
          else mret INVALID_REQUEST
      | _, _ => mret INVALID_REQUEST
      end
  end.

End Router.

End TrackExecution.

(** ** Concrete tasks *)

Module Scenario.

(** The record of task [task] as the upload stores it, with a status. *)
Definition task_item (status : string) : gmap string string :=
  <[ "TaskStatus" := status ]>
    (UploadExecution.new_item "task" "report.pdf" "English" "2" "10"
       "s3://docs/upload/task/report.pdf" "2025-01-01T00:00:00+00:00"
       "user@example.com" "1736294400").

(** The page images the rasterize stage stores for pages [start_page] to
    [start_page + n - 1]; the content of an image names its page. *)
Fixpoint page_images (n : nat) (start_page : Z)
    (objects : gmap (string * string) string) : gmap (string * string) string :=
  match n with
  | O => objects
  | S n' =>
      page_images n' start_page
        (<[ ("docs", CodebuildArtifacts.image_key "task" (Z.of_nat n') start_page)
            := "p" +:+ pretty (Z.of_nat n' + start_page)%Z ]> objects)
  end.

(** Pages 1 to 5 rasterized. *)
Definition five_pages : world :=
  World (page_images 5 1 ∅)
        {[ "task" := task_item CodebuildArtifacts.STATUS_COMPLETED ]}
        0 [] ∅.

(** Pages 2 to 10 rasterized. *)
Definition pages_2_to_10 : world :=
  World (page_images 9 2 ∅)
        {[ "task" := task_item CodebuildArtifacts.STATUS_COMPLETED ]}
        0 [] ∅.

(** A task just uploaded, its first page image already stored. *)
Definition just_uploaded : world :=
  World (page_images 1 2 ∅)
        {[ "task" := task_item UploadExecution.INITIAL_STATUS ]}
        0 [] ∅.

Definition notification : option ImageConverter.sns_message :=
  Some (ImageConverter.SnsMessage (Some "task") (Some "docs")).

(** Bedrock reads every page: the text is the content of the image. *)
Definition bedrock_reads : ImageConverter.services :=
  ImageConverter.Services (fun content => content)
    (fun image => Returns (Some image)) None None None.

(** Bedrock fails on every page. *)
Definition bedrock_down : ImageConverter.services :=
  ImageConverter.Services (fun content => content)
    (fun _ => Fails (SdkError "ThrottlingException")) None None None.

(** Bedrock fails on page 3 only. *)
Definition bedrock_fails_page_3 : ImageConverter.services :=
  ImageConverter.Services (fun content => content)
    (fun image =>
       if String.eqb image "p3" then Fails (SdkError "ThrottlingException")
       else Returns (Some image))
    None None None.

(** Storing the text artifact is refused. *)
Definition put_refused : ImageConverter.services :=
  ImageConverter.Services (fun content => content)
    (fun image => Returns (Some image)) None
    (Some (ClientError "AccessDenied")) None.

(** The extracted text of the task is stored and its record holds the
    language. *)
Definition text_ready : world :=
  World {[ ("docs", "download/task/formatted_output.txt")
           := "  the quick   brown fox " ]}
        {[ "task" := task_item ImageConverter.STATUS_COMPLETED ]}
        1000 [] ∅.

Definition text_stored : option (string * string) :=
  Some ("docs", "download/task/formatted_output.txt").

(** Polly accepts every task and names it after the number of tasks it
    holds; a poll takes 120 ms. *)
Definition polly_task_id (n : nat) : string := "t" +:+ pretty n.

(** Polly completes a task 12 seconds after the clock started. *)
Definition polly_works : PollyInvoker.services :=
  PollyInvoker.Services
    (fun _ n => Returns (polly_task_id n))
    (fun _ t => Returns (if (t <? 12000)%Z then "inProgress" else "completed",
                         120%N))
    (fun req => "mp3:" +:+ tr_text req)
    (fun _ => None) None None.

(** Polly never leaves the in-progress status. *)
Definition polly_stuck : PollyInvoker.services :=
  PollyInvoker.Services
    (fun _ n => Returns (polly_task_id n))
    (fun _ _ => Returns ("inProgress", 120%N))
    (fun req => "mp3:" +:+ tr_text req)
    (fun _ => None) None None.

(** One synthesis task is held by Polly, submitted at time 1000. *)
Definition task_submitted : world :=
  World ∅ {[ "task" := task_item ImageConverter.STATUS_COMPLETED ]}
        1000 [EvStartTask "t0"]
        {[ "t0" := TaskRequest "docs" "download/task/chunk_0_" "the quick"
                     "Joanna" "en-US" ]}.

(** The audio of the only chunk is stored. *)
Definition chunk_stored : world :=
  World {[ ("docs", "download/task/chunk_0_.t0.mp3") := "mp3:the quick" ]}
        {[ "task" := task_item ImageConverter.STATUS_COMPLETED ]}
        20000 [] ∅.

(** CodeBuild names a build after the number of submissions before it;
    the builds end 25, 95 and 135 seconds after the clock started. *)
Definition build_id (n : nat) : string := "b" +:+ pretty n.

Definition finish_of (build_id : string) : Z :=
  if String.eqb build_id "b0" then 25000
  else if String.eqb build_id "b1" then 95000
  else 135000.

(** Every build fails. *)
Definition builds_fail : CodebuildInvoker.services :=
  CodebuildInvoker.Services
    (fun _ n => Returns (build_id n))
    (fun id t =>
       Returns (Some (if (t <? finish_of id)%Z then "IN_PROGRESS"
                      else "FAILED"))).

(** The second build succeeds, the others fail. *)
Definition final_of (build_id : string) : string :=
  if String.eqb build_id "b1" then "SUCCEEDED" else "FAILED".

Definition second_build_succeeds : CodebuildInvoker.services :=
  CodebuildInvoker.Services
    (fun _ n => Returns (build_id n))
    (fun id t =>
       Returns (Some (if (t <? finish_of id)%Z then "IN_PROGRESS"
                      else final_of id))).

(** CodeBuild refuses every submission. *)
Definition codebuild_refuses : CodebuildInvoker.services :=
  CodebuildInvoker.Services
    (fun _ _ => Fails (ClientError "AccountLimitExceededException"))
    (fun _ _ => Returns None).

(** CodeBuild accepts submissions and refuses status requests. *)
Definition status_refused : CodebuildInvoker.services :=
  CodebuildInvoker.Services
    (fun _ n => Returns (build_id n))
    (fun _ _ => Fails (ClientError "ThrottlingException")).

(** CodeBuild accepts submissions and knows no build. *)
Definition no_builds_listed : CodebuildInvoker.services :=
  CodebuildInvoker.Services
    (fun _ n => Returns (build_id n))
    (fun _ _ => Returns None).

(** CodeBuild accepts the first submission only; the build fails. *)
Definition resubmission_refused : CodebuildInvoker.services :=
  CodebuildInvoker.Services
    (fun _ n =>
       match n with
       | O => Returns (build_id O)
       | S _ => Fails (ClientError "AccountLimitExceededException")
       end)
    (fun id t =>
       Returns (Some (if (t <? finish_of id)%Z then "IN_PROGRESS"
                      else "FAILED"))).

Definition idle : world := World ∅ ∅ 0 [] ∅.

(** Three tasks in the table: one ready and one failed of the user, one of
    another user. *)
Definition item_of (reference_key username status : string)
    : gmap string string :=
  <[ "TaskStatus" := status ]>
    (UploadExecution.new_item reference_key "report.pdf" "English" "1" "3"
       "s3://docs/upload/report.pdf" "2025-01-01T00:00:00+00:00"
       username "1736294400").

Definition three_tasks : world :=
  World ∅
    (<[ "k1" := item_of "k1" "ann" PollyInvoker.STATUS_READY ]>
     (<[ "k2" := item_of "k2" "ann" PollyInvoker.STATUS_FAILED ]>
      {[ "k3" := item_of "k3" "bob" ImageConverter.STATUS_COMPLETED ]}))
    0 [] ∅.

Definition small_pages : TrackExecution.services :=
  TrackExecution.Services 2 None.

(** The rasterizer: URIs of the bucket [docs], two images for the pages 2
    and 3 of the file, every image stored. *)
Definition int_of_page (s : string) : reply Z :=
  if String.eqb s "2" then Returns 2%Z
  else if String.eqb s "3" then Returns 3%Z
  else Fails (ValueError ("invalid literal for int() with base 10: '"
                            +:+ s +:+ "'")).

Definition rasterizer_with (put_object_fault : string -> option exn)
    : CodebuildArtifacts.services :=
  CodebuildArtifacts.Services "arn:aws:sns:eu-west-1:123456789012:images"
    (fun _ => ("docs", "/upload/task/report.pdf"))
    int_of_page
    (fun s => "'" +:+ s +:+ "'")
    "{}" None
    (fun pdf _ _ => Returns [pdf +:+ "#2"; pdf +:+ "#3"])
    (fun image => Returns ("png:" +:+ image))
    put_object_fault None None.

Definition rasterizer : CodebuildArtifacts.services :=
  rasterizer_with (fun _ => None).

(** The bucket refuses every image. *)
Definition rasterizer_refused : CodebuildArtifacts.services :=
  rasterizer_with (fun _ => Some (ClientError "AccessDenied")).

(** The file of the task is uploaded. *)
Definition pdf_uploaded : world :=
  World {[ ("docs", "upload/task/report.pdf") := "pdf" ]}
        {[ "task" := task_item UploadExecution.INITIAL_STATUS ]}
        0 [] ∅.

(** The stream record of the pages 2 to 3 of the task. *)
Definition stream_record : CodebuildArtifacts.stream_event :=
  CodebuildArtifacts.Image
    (CodebuildArtifacts.NewImage (CodebuildArtifacts.S_ "task")
       (CodebuildArtifacts.S_ "s3://docs/upload/task/report.pdf")
       (CodebuildArtifacts.S_ "2") (CodebuildArtifacts.S_ "3")).

(** A stream record whose page range is not a number. *)
Definition stream_record_all_pages : CodebuildArtifacts.stream_event :=
  CodebuildArtifacts.Image
    (CodebuildArtifacts.NewImage (CodebuildArtifacts.S_ "task")
       (CodebuildArtifacts.S_ "s3://docs/upload/task/report.pdf")
       (CodebuildArtifacts.S_ "all") (CodebuildArtifacts.S_ "all")).

(** The upload services of the bucket [docs]; the identifier drawn is
    [task]. *)
Definition upload_works : UploadExecution.services :=
  UploadExecution.Services "docs" (fun s => Returns ("pdf:" +:+ s)) "task"
    (fun _ => "2025-01-01T00:00:00+00:00") None None.

(** The table refuses the record. *)
Definition table_refuses : UploadExecution.services :=
  UploadExecution.Services "docs" (fun s => Returns ("pdf:" +:+ s)) "task"
    (fun _ => "2025-01-01T00:00:00+00:00") None
    (Some (ClientError "ResourceNotFoundException")).

(** An upload without its content. *)
Definition upload_without_content : UploadExecution.upload_event :=
  UploadExecution.UploadEvent (Some "report.pdf") (Some "English")
    (Some "2") (Some "10") None (Some "user@example.com").

(** The scan is throttled. *)
Definition scan_throttled : TrackExecution.services :=
  TrackExecution.Services 2
    (Some (ClientError "ProvisionedThroughputExceededException")).

(** The signer of the bucket [docs]. *)
Definition signer_works : TrackExecution.signer :=
  TrackExecution.Signer "docs"
    (fun bucket key _ =>
       Returns ("https://" +:+ bucket +:+ ".s3.amazonaws.com/" +:+ key
                  +:+ "?X-Amz-Signature=0"))%string.

(** Polly has every task completed at the first poll. *)
Definition polly_fast : PollyInvoker.services :=
  PollyInvoker.Services
    (fun _ n => Returns (polly_task_id n))
    (fun _ _ => Returns ("completed", 120%N))
    (fun req => "mp3:" +:+ tr_text req)
    (fun _ => None) None None.

(** The record of task [task] with a language. *)
Definition task_item_in (language status : string) : gmap string string :=
  <[ "TaskStatus" := status ]>
    (UploadExecution.new_item "task" "report.pdf" language "2" "10"
       "s3://docs/upload/task/report.pdf" "2025-01-01T00:00:00+00:00"
       "user@example.com" "1736294400").

(** The text of a task in French is stored. *)
Definition french_text : world :=
  World {[ ("docs", "download/task/formatted_output.txt")
           := "  the quick   brown fox " ]}
        {[ "task" := task_item_in "French" ImageConverter.STATUS_COMPLETED ]}
        1000 [] ∅.

(** The text stored for the task holds no word, as after an extraction in
    which every page failed. *)
Definition empty_text : world :=
  World {[ ("docs", "download/task/formatted_output.txt") := "" ]}
        {[ "task" := task_item_in "English" ImageConverter.STATUS_COMPLETED ]}
        1000 [] ∅.

(** The audio of three chunks is stored. *)
Definition three_chunks : world :=
  World (<[ ("docs", "download/task/chunk_0_.t0.mp3") := "mp3:a" ]>
         (<[ ("docs", "download/task/chunk_1_.t1.mp3") := "mp3:b" ]>
          {[ ("docs", "download/task/chunk_2_.t2.mp3") := "mp3:c" ]}))
        {[ "task" := task_item_in "English" ImageConverter.STATUS_COMPLETED ]}
        20000 [] ∅.

(** The text artifact that holds the given page texts in the given
    order. *)
Definition text_of_pages (pages : list string) : string :=
  fold_right (fun page text => page +:+ LF +:+ LF +:+ text) "" pages.

End Scenario.
(** * Properties *)

(** ** Facts on strings *)

Lemma append_nil_r (s : string) : s +:+ "" = s.
Proof. induction s as [|c s IH]; simpl; [reflexivity | now rewrite IH]. Qed.

Lemma append_assoc (a b c : string) : (a +:+ b) +:+ c = a +:+ (b +:+ c).
Proof. induction a as [|x a IH]; simpl; [reflexivity | now rewrite IH]. Qed.

Lemma append_snoc (cur : string) (c : ascii) (s : string) :
  (cur +:+ String c "") +:+ s = cur +:+ String c s.
Proof. now rewrite append_assoc. Qed.

Lemma len_append (a b : string) : len (a +:+ b) = (len a + len b)%Z.
Proof.
  unfold len. induction a as [|x a IH]; simpl String.length; [lia|].
  rewrite !Nat2Z.inj_succ. lia.
Qed.

Lemma no_space_append (a b : string) :
  no_space (a +:+ b) = no_space a && no_space b.
Proof.
  induction a as [|x a IH]; simpl; [reflexivity|].
  now rewrite IH, andb_assoc.
Qed.

Lemma flush_word (w : string) : w <> "" -> flush w = [w].
Proof. destruct w; [congruence | reflexivity]. Qed.

(** Scanning a whitespace-free string only extends the current word. *)
Lemma split_from_no_space (w cur : string) :
  no_space w = true -> split_from cur w = flush (cur +:+ w).
Proof.
  revert cur. induction w as [|c w IH]; intros cur H; simpl in *.
  - now rewrite append_nil_r.
  - apply andb_prop in H as [Hc Hw].
    destruct (isspace c); [discriminate|].
    rewrite IH by assumption. now rewrite append_snoc.
Qed.

Lemma split_word (w : string) : is_word w -> split w = [w].
Proof.
  intros [Hne Hns]. unfold split. rewrite split_from_no_space by assumption.
  now apply flush_word.
Qed.

(** A whitespace character ends the current word and restarts the scan. *)
Lemma split_from_app (s1 cur : string) (c : ascii) (s2 : string) :
  isspace c = true ->
  split_from cur (s1 +:+ String c s2) = split_from cur s1 ++ split s2.
Proof.
  intros Hc. revert cur. induction s1 as [|d s1 IH]; intros cur; simpl.
  - now rewrite Hc.
  - destruct (isspace d).
    + now rewrite IH, app_assoc.
    + apply IH.
Qed.

Lemma split_app_space (s1 s2 : string) :
  split (s1 +:+ " " +:+ s2) = split s1 ++ split s2.
Proof. unfold split at 1 2. now apply split_from_app. Qed.

(** Every element produced by the scan is a word. *)
Lemma split_from_words (s cur : string) :
  no_space cur = true -> Forall is_word (split_from cur s).
Proof.
  revert cur. induction s as [|c s IH]; intros cur Hcur; simpl.
  - destruct cur; constructor; [split; [congruence | assumption] | constructor].
  - destruct (isspace c) eqn:Hc.
    + apply Forall_app. split; [|now apply IH].
      destruct cur; constructor; [split; [congruence | assumption] | constructor].
    + apply IH. rewrite no_space_append, Hcur. simpl. now rewrite Hc.
Qed.

Lemma split_words (s : string) : Forall is_word (split s).
Proof. now apply split_from_words. Qed.

(** *** Facts on [join] *)

Lemma join_cons2 (sep x y : string) (l : list string) :
  join sep (x :: y :: l) = x +:+ sep +:+ join sep (y :: l).
Proof. reflexivity. Qed.

Lemma join_single (sep x : string) : join sep [x] = x.
Proof. reflexivity. Qed.

(** Splitting a space-joined list splits every part. *)
Lemma split_join (l : list string) :
  split (join " " l) = List.concat (map split l).
Proof.
  induction l as [|x [|y l] IH].
  - reflexivity.
  - rewrite join_single. simpl. now rewrite app_nil_r.
  - rewrite join_cons2, split_app_space, IH. reflexivity.
Qed.

Lemma concat_split_words (ws : list string) :
  Forall is_word ws -> List.concat (map split ws) = ws.
Proof.
  induction 1 as [|w ws Hw _ IH]; simpl; [reflexivity|].
  now rewrite split_word, IH.
Qed.

Lemma split_join_words (ws : list string) :
  Forall is_word ws -> split (join " " ws) = ws.
Proof. intros H. now rewrite split_join, concat_split_words. Qed.

Lemma join_words_nonempty (ws : list string) :
  ws <> [] -> Forall is_word ws -> join " " ws <> "".
Proof.
  intros Hne Hws. destruct ws as [|w ws]; [congruence|].
  apply Forall_cons_iff in Hws as [[Hw _] _].
  destruct w as [|c w]; [congruence|].
  destruct ws; [rewrite join_single | rewrite join_cons2]; discriminate.
Qed.


(** A run of one character that is not whitespace is a word. *)
Lemma repeat_char_len (c : ascii) (n : nat) :
  len (repeat_char c n) = Z.of_nat n.
Proof.
  unfold len. f_equal. induction n as [|n IH]; simpl; [reflexivity|].
  now rewrite IH.
Qed.

Lemma repeat_char_no_space (c : ascii) (n : nat) :
  isspace c = false -> no_space (repeat_char c n) = true.
Proof.
  intros Hc. induction n as [|n IH]; simpl; [reflexivity|].
  now rewrite Hc, IH.
Qed.

Lemma repeat_char_word (c : ascii) (n : nat) :
  isspace c = false -> n <> O -> is_word (repeat_char c n).
Proof.
  intros Hc Hn. split; [|now apply repeat_char_no_space].
  destruct n; [congruence | discriminate].
Qed.
(** *** The packing loop *)

Section Packing.

Import PollyInvoker.

Variable limit : Z.

Lemma split_step_fit (chunks cur : list string) (w : string) :
  (len (join " " (cur ++ [w])) <= limit)%Z ->
  split_step limit (chunks, cur) w = (chunks, cur ++ [w]).
Proof.
  intros H. unfold split_step.
  destruct (Z.leb_spec (len (join " " (cur ++ [w]))) limit); [reflexivity | lia].
Qed.

Lemma split_step_overflow (chunks cur : list string) (w : string) :
  (limit < len (join " " (cur ++ [w])))%Z ->
  split_step limit (chunks, cur) w = (chunks ++ [join " " cur], [w]).
Proof.
  intros H. unfold split_step.
  destruct (Z.leb_spec (len (join " " (cur ++ [w]))) limit); [lia | reflexivity].
Qed.

(** The words of the closed chunks followed by the open chunk are the
    words consumed so far. *)
Lemma split_fold_words (ws : list string) :
  forall chunks cur chunks' cur',
    Forall is_word cur -> Forall is_word ws ->
    fold_left (split_step limit) ws (chunks, cur) = (chunks', cur') ->
    List.concat (map split chunks') ++ cur'
      = List.concat (map split chunks) ++ cur ++ ws
    /\ Forall is_word cur'.
Proof.
  induction ws as [|w ws IH]; intros chunks cur chunks' cur' Hcur Hws Hf;
    cbn [fold_left] in Hf.
  - injection Hf as <- <-. rewrite app_nil_r. now split.
  - apply Forall_cons_iff in Hws as [Hw Hws].
    destruct (Z.le_gt_cases (len (join " " (cur ++ [w]))) limit) as [Hfit|Hfit].
    + rewrite split_step_fit in Hf by assumption.
      apply IH in Hf as [E F]; try assumption.
      * split; [|exact F]. rewrite E, <- app_assoc. reflexivity.
      * apply Forall_app. split; [assumption | now constructor].
    + rewrite split_step_overflow in Hf by assumption.
      apply IH in Hf as [E F]; try assumption.
      * split; [|exact F]. rewrite E, map_app, concat_app. simpl.
        rewrite split_join_words by assumption.
        rewrite app_nil_r, <- !app_assoc. reflexivity.
      * now constructor.
Qed.

(** No word is cut or lost: the words of the chunks, in order, are the
    words of the text. *)
Lemma split_text_with_words (text : string) :
  List.concat (map split (split_text_with limit text)) = split text.
Proof.
  unfold split_text_with.
  destruct (fold_left (split_step limit) (split text) ([], []))
    as [chunks cur] eqn:Hf.
  apply split_fold_words in Hf as [E F];
    [|constructor|apply split_words].
  simpl in E. destruct cur as [|w cur].
  - now rewrite app_nil_r in E.
  - rewrite map_app, concat_app. simpl.
    rewrite split_join_words by assumption. now rewrite app_nil_r.
Qed.

(** Joining the chunks with a space and splitting again gives the words of
    the text, whatever the limit. *)
Lemma split_text_with_roundtrip (text : string) :
  split (join " " (split_text_with limit text)) = split text.
Proof. now rewrite split_join, split_text_with_words. Qed.

Lemma split_fold_shape (all ws : list string) :
  forall chunks cur chunks' cur',
    incl ws all ->
    Forall (chunk_shape limit all) chunks ->
    chunk_shape limit all (join " " cur) ->
    fold_left (split_step limit) ws (chunks, cur) = (chunks', cur') ->
    Forall (chunk_shape limit all) chunks' /\ chunk_shape limit all (join " " cur').
Proof.
  induction ws as [|w ws IH]; intros chunks cur chunks' cur' Hin Hch Hcur Hf;
    cbn [fold_left] in Hf.
  - injection Hf as <- <-. now split.
  - assert (Hw : In w all) by (apply Hin; now left).
    assert (Hws : incl ws all) by (intros x Hx; apply Hin; now right).
    destruct (Z.le_gt_cases (len (join " " (cur ++ [w]))) limit) as [Hfit|Hfit].
    + rewrite split_step_fit in Hf by assumption.
      apply IH in Hf; try assumption. right; now left.
    + rewrite split_step_overflow in Hf by assumption.
      apply IH in Hf; try assumption.
      * apply Forall_app. split; [assumption | now constructor].
      * right; right. exact Hw.
Qed.

Lemma split_text_with_shape (text : string) :
  Forall (chunk_shape limit (split text)) (split_text_with limit text).
Proof.
  unfold split_text_with.
  destruct (fold_left (split_step limit) (split text) ([], []))
    as [chunks cur] eqn:Hf.
  apply (split_fold_shape (split text)) in Hf as [E F];
    [|apply incl_refl|constructor|now left].
  destruct cur as [|w cur]; [assumption|].
  apply Forall_app. split; [assumption | now constructor].
Qed.

(** When every word fits, the open chunk fits and closed chunks are not
    empty. *)
Lemma split_fold_fits (ws : list string) :
  forall chunks cur chunks' cur',
    Forall is_word ws -> Forall (fun w => (len w <= limit)%Z) ws ->
    Forall (chunk_fits limit) chunks ->
    Forall is_word cur ->
    (cur = [] \/ (len (join " " cur) <= limit)%Z) ->
    fold_left (split_step limit) ws (chunks, cur) = (chunks', cur') ->
    Forall (chunk_fits limit) chunks' /\ Forall is_word cur'
    /\ (cur' = [] \/ (len (join " " cur') <= limit)%Z).
Proof.
  induction ws as [|w ws IH];
    intros chunks cur chunks' cur' Hws Hle Hch Hcw Hcur Hf; cbn [fold_left] in Hf.
  - injection Hf as <- <-. now repeat split.
  - apply Forall_cons_iff in Hws as [Hw Hws].
    apply Forall_cons_iff in Hle as [Hwl Hle].
    destruct (Z.le_gt_cases (len (join " " (cur ++ [w]))) limit) as [Hfit|Hfit].
    + rewrite split_step_fit in Hf by assumption.
      apply IH in Hf; try assumption.
      * apply Forall_app. split; [assumption | now constructor].
      * now right.
    + rewrite split_step_overflow in Hf by assumption.
      assert (Hne : cur <> []).
      { intros ->. cbn [app] in Hfit. rewrite join_single in Hfit. lia. }
      destruct Hcur as [->|Hcur]; [congruence|].
      apply IH in Hf; try assumption.
      * apply Forall_app. split; [assumption|]. constructor; [|constructor].
        split; [now apply join_words_nonempty | assumption].
      * now constructor.
      * right. exact Hwl.
Qed.

Lemma split_text_with_fits (text : string) :
  Forall (fun w => (len w <= limit)%Z) (split text) ->
  Forall (chunk_fits limit) (split_text_with limit text).
Proof.
  intros Hle. unfold split_text_with.
  destruct (fold_left (split_step limit) (split text) ([], []))
    as [chunks cur] eqn:Hf.
  apply split_fold_fits in Hf as (E & F & G);
    [|apply split_words|assumption|constructor|constructor|now left].
  destruct cur as [|w cur]; [assumption|].
  destruct G as [G|G]; [discriminate|].
  apply Forall_app. split; [assumption|]. constructor; [|constructor].
  split; [now apply join_words_nonempty | assumption].
Qed.

(** A first word over the limit closes the still empty chunk: the result
    starts with the empty string. *)
Lemma split_text_with_long_word (w : string) :
  is_word w -> (limit < len w)%Z -> split_text_with limit w = [""; w].
Proof.
  intros Hw Hlen. unfold split_text_with. rewrite split_word by assumption.
  cbn [fold_left]. rewrite split_step_overflow by (cbn [app]; rewrite join_single; lia).
  reflexivity.
Qed.

End Packing.

(** ** Steps of the handler monad *)

Lemma bind_eq {A B : Type} (m : M A) (k : A -> M B) (w : world) :
  (m ≫= k) w
  = match m w with
    | (Ok a, w') => k a w'
    | (Raise e, w') => (Raise e, w')
    | (NoFuel, w') => (NoFuel, w')
    end.
Proof. reflexivity. Qed.

Lemma bind_ok {A B : Type} (m : M A) (k : A -> M B) (w w' : world) (a : A) :
  m w = (Ok a, w') -> (m ≫= k) w = k a w'.
Proof. intros H. now rewrite bind_eq, H. Qed.

Lemma bind_raise {A B : Type} (m : M A) (k : A -> M B) (w w' : world)
    (e : exn) :
  m w = (Raise e, w') -> (m ≫= k) w = (Raise e, w').
Proof. intros H. now rewrite bind_eq, H. Qed.

Lemma try_except_eq {A : Type} (m : M A) (h : exn -> M A) (w : world) :
  try_except m h w
  = match m w with
    | (Raise e, w') => h e w'
    | r => r
    end.
Proof. reflexivity. Qed.

Lemma try_except_ok {A : Type} (m : M A) (h : exn -> M A) (w w' : world)
    (a : A) :
  m w = (Ok a, w') -> try_except m h w = (Ok a, w').
Proof. intros H. now rewrite try_except_eq, H. Qed.

Lemma try_except_raise {A : Type} (m : M A) (h : exn -> M A) (w w' : world)
    (e : exn) :
  m w = (Raise e, w') -> try_except m h w = h e w'.
Proof. intros H. now rewrite try_except_eq, H. Qed.

(** Logging and raising again changes nothing. *)
Lemma try_except_reraise {A : Type} (m : M A) (w : world) :
  try_except m (fun e => raise e) w = m w.
Proof.
  rewrite try_except_eq. destruct (m w) as [[a|e|] w']; reflexivity.
Qed.

Lemma try_except_client_reraise {A : Type} (m : M A) (w : world) :
  try_except_client m (fun e => raise e) w = m w.
Proof.
  unfold try_except_client. rewrite try_except_eq.
  destruct (m w) as [[a|e|] w']; try reflexivity.
  now destruct (is_client_error e).
Qed.

(** The status of a task after [update_item]. *)
Lemma TaskStatus_of_update (reference_key status : string) (w : world) :
  TaskStatus_of reference_key (update_item reference_key status w).2
  = Some status.
Proof.
  unfold TaskStatus_of, update_item, modify, set_table. simpl.
  rewrite lookup_insert_eq. simpl. now rewrite lookup_insert_eq.
Qed.

Lemma s3_update_item (reference_key status : string) (w : world) :
  s3 (update_item reference_key status w).2 = s3 w.
Proof. reflexivity. Qed.

Lemma bind_ok_inv {A B : Type} (m : M A) (k : A -> M B) (w w' : world)
    (b : B) :
  (m ≫= k) w = (Ok b, w') ->
  exists a w1, m w = (Ok a, w1) /\ k a w1 = (Ok b, w').
Proof.
  rewrite bind_eq. destruct (m w) as [[a|e|] w1]; intros H;
    [eauto | discriminate | discriminate].
Qed.

(** *** Steps that end *)

Create HintDb finishes.

Lemma finishes_mret {A : Type} (a : A) : finishes (mret a).
Proof. intros w. discriminate. Qed.

Lemma finishes_raise {A : Type} (e : exn) : finishes (@raise A e).
Proof. intros w. discriminate. Qed.

Lemma finishes_lift {A : Type} (r : reply A) : finishes (lift r).
Proof. intros w. destruct r; discriminate. Qed.

Lemma finishes_modify (f : world -> world) : finishes (modify f).
Proof. intros w. discriminate. Qed.

Lemma finishes_get_world : finishes get_world.
Proof. intros w. discriminate. Qed.

Lemma finishes_time : finishes time.
Proof. intros w. discriminate. Qed.

Lemma finishes_subscript {A : Type} (key : string) (v : option A) :
  finishes (subscript key v).
Proof. intros w. destruct v; discriminate. Qed.

Lemma finishes_bind {A B : Type} (m : M A) (k : A -> M B) :
  finishes m -> (forall a, finishes (k a)) -> finishes (m ≫= k).
Proof.
  intros Hm Hk w. rewrite bind_eq. specialize (Hm w).
  destruct (m w) as [[a|e|] w1]; [apply Hk | discriminate | easy].
Qed.

Lemma finishes_try_except {A : Type} (m : M A) (h : exn -> M A) :
  finishes m -> (forall e, finishes (h e)) -> finishes (try_except m h).
Proof.
  intros Hm Hh w. rewrite try_except_eq. specialize (Hm w).
  destruct (m w) as [[a|e|] w1]; [discriminate | apply Hh | easy].
Qed.

Lemma finishes_try_except_client {A : Type} (m : M A) (h : exn -> M A) :
  finishes m -> (forall e, finishes (h e)) -> finishes (try_except_client m h).
Proof.
  intros Hm Hh. apply finishes_try_except; [assumption|].
  intros e. destruct (is_client_error e); [apply Hh | apply finishes_raise].
Qed.

Lemma finishes_faulty {A : Type} (fault : option exn) (m : M A) :
  finishes m -> finishes (faulty fault m).
Proof. intros Hm. destruct fault; [apply finishes_raise | assumption]. Qed.

Lemma finishes_get_object (bucket key : string) :
  finishes (get_object bucket key).
Proof. intros w. unfold get_object. destruct (s3 w !! _); discriminate. Qed.

Lemma finishes_put_object (bucket key body : string) :
  finishes (put_object bucket key body).
Proof. apply finishes_modify. Qed.

Lemma finishes_copy_object (bucket source_key key : string) :
  finishes (copy_object bucket source_key key).
Proof.
  apply finishes_bind; [apply finishes_get_object|].
  intros body. apply finishes_modify.
Qed.

Lemma finishes_delete_object (bucket key : string) :
  finishes (delete_object bucket key).
Proof. apply finishes_modify. Qed.

Lemma finishes_update_item (reference_key status : string) :
  finishes (update_item reference_key status).
Proof. apply finishes_modify. Qed.

Lemma finishes_get_item (reference_key : string) :
  finishes (get_item reference_key).
Proof. intros w. discriminate. Qed.

Lemma finishes_sleep (ms : Z) : finishes (sleep ms).
Proof. apply finishes_modify. Qed.

#[global] Hint Resolve finishes_mret finishes_raise finishes_lift
  finishes_modify finishes_get_world finishes_time finishes_subscript
  finishes_faulty finishes_get_object finishes_put_object
  finishes_copy_object finishes_delete_object finishes_update_item
  finishes_get_item finishes_sleep : finishes.

(** Binds and handlers are opened, the steps are closed by the hints. *)
Ltac finish :=
  repeat first
    [ progress auto with finishes
    | lazymatch goal with
      | |- forall _, _ => intro
      | |- finishes (try_except_client _ _) => apply finishes_try_except_client
      | |- finishes (try_except _ _) => apply finishes_try_except
      | |- finishes (mbind _ _) => apply finishes_bind
      | |- finishes (if ?b then _ else _) => destruct b
      end ].

(** Running a handler: binds, handlers of exceptions and the primitive
    steps are replaced by what they give; calls of the functions of the
    handlers stay as they are. *)
Ltac mrun_in H :=
  cbv beta iota zeta delta
    [mbind M_bind mret M_ret subscript faulty get_world list_objects lift raise
     out_of_fuel time modify try_except try_except_client is_client_error
     fst snd
     ImageConverter.msg_reference_key ImageConverter.msg_bucket
     ImageConverter.bound_reference_key option_bind] in H.

Ltac mrun_goal :=
  cbv beta iota zeta delta
    [mbind M_bind mret M_ret subscript faulty get_world list_objects lift raise
     out_of_fuel time modify try_except try_except_client is_client_error
     fst snd
     ImageConverter.msg_reference_key ImageConverter.msg_bucket
     ImageConverter.bound_reference_key option_bind].

Tactic Notation "mrun" := mrun_goal.
Tactic Notation "mrun" "in" hyp(H) := mrun_in H.

(** ** The extract-text stage *)

Section ExtractText.

Import ImageConverter.

Variable sv : services.

Lemma update_dynamodb_ok (reference_key status : string) (w : world) :
  update_item_fault sv = None ->
  update_dynamodb sv reference_key status w
  = update_item reference_key status w.
Proof.
  intros H. unfold update_dynamodb. rewrite try_except_reraise.
  now rewrite H.
Qed.

Lemma update_dynamodb_fault (reference_key status : string) (w : world)
    (e : exn) :
  update_item_fault sv = Some e ->
  update_dynamodb sv reference_key status w = (Raise e, w).
Proof.
  intros H. unfold update_dynamodb. rewrite try_except_reraise.
  now rewrite H.
Qed.

(** The model call leaves the world as it is and gives the text or
    raises. *)
Lemma process_image_claude_eq (image_base64 : string) (w : world) :
  exists r,
    process_image_claude sv image_base64 w = (r, w)
    /\ match invoke_model sv image_base64 with
       | Returns (Some text) => r = Ok text
       | _ => exists e, r = Raise e
       end.
Proof.
  unfold process_image_claude. rewrite try_except_eq, bind_eq.
  unfold lift. destruct (invoke_model sv image_base64) as [[text|]|e]; simpl.
  - eexists. split; [reflexivity | reflexivity].
  - eexists. split; [reflexivity | eauto].
  - destruct e; eexists; (split; [reflexivity | eauto]).
Qed.

(** A page adds its text, a page that fails adds nothing; the loop never
    raises and writes nothing. *)
Lemma add_image_text_eq (bucket all_text image_key : string) (w : world) :
  add_image_text sv bucket all_text image_key w
  = (Ok (add_page sv w bucket all_text image_key), w).
Proof.
  unfold add_image_text, add_page, page_text.
  rewrite try_except_eq, bind_eq. unfold get_object.
  destruct (s3 w !! (bucket, image_key)) as [content|]; [|reflexivity].
  rewrite bind_eq.
  destruct (process_image_claude_eq (b64encode sv content) w) as (r & -> & Hr).
  destruct (invoke_model sv (b64encode sv content)) as [[text|]|e].
  - subst r. reflexivity.
  - destruct Hr as [e ->]. reflexivity.
  - destruct Hr as [e' ->]. reflexivity.
Qed.

Lemma for_images_eq (bucket : string) (keys : list string) :
  forall (all_text : string) (w : world),
    for_images sv bucket keys all_text w
    = (Ok (fold_left (add_page sv w bucket) keys all_text), w).
Proof.
  induction keys as [|k keys IH]; intros all_text w; simpl.
  - reflexivity.
  - rewrite bind_eq, add_image_text_eq. apply IH.
Qed.

(** When no page gives a text the artifact is empty. *)
Lemma artifact_text_all_fail (w : world) (bucket : string)
    (keys : list string) :
  Forall (fun k => page_text sv w bucket k = None) keys ->
  artifact_text sv w bucket keys = "".
Proof.
  unfold artifact_text. generalize "".
  induction 1 as [|k keys Hk _ IH]; simpl; [reflexivity|].
  unfold add_page at 2. now rewrite Hk.
Qed.

(** With images listed and the services answering, the stage stores the
    artifact and writes its success status, whatever the pages gave. *)
Lemma handler_completes (reference_key bucket : string) (w : world) :
  paginate_fault sv = None ->
  put_object_fault sv = None ->
  update_item_fault sv = None ->
  list_keys bucket (images_prefix reference_key) w <> [] ->
  lambda_handler sv
    (Some (SnsMessage (Some reference_key) (Some bucket))) w
  = (Ok (Response 200
           (DumpsStr "Images processed and text generated successfully!")),
     stored reference_key bucket
       (artifact_text sv w bucket
          (sorted (list_keys bucket (images_prefix reference_key) w))) w).
Proof.
  intros Hl Hp Hu Hne.
  unfold lambda_handler, handler_try. rewrite Hl, Hp. mrun.
  destruct (list_keys bucket (images_prefix reference_key) w) as [|k ks] eqn:E;
    [congruence|].
  rewrite for_images_eq. unfold put_object. mrun.
  rewrite update_dynamodb_ok by assumption.
  reflexivity.
Qed.

(** With no image listed the stage writes the status of a failed
    rasterization and returns. *)
Lemma handler_no_images (reference_key bucket : string) (w : world) :
  paginate_fault sv = None ->
  update_item_fault sv = None ->
  list_keys bucket (images_prefix reference_key) w = [] ->
  lambda_handler sv
    (Some (SnsMessage (Some reference_key) (Some bucket))) w
  = (Ok (Response 200 (DumpsStr "No images found to process")),
     (update_item reference_key STATUS_NO_IMAGES w).2).
Proof.
  intros Hl Hu Hnil.
  unfold lambda_handler, handler_try. rewrite Hl. mrun. rewrite Hnil.
  rewrite update_dynamodb_ok by assumption.
  reflexivity.
Qed.

(** An exception of the [try] block leaves the handler as an exception:
    the one caught when the failure status could be written, the one
    met in the [except] clause otherwise. *)
Lemma handler_raises (event : option sns_message) (w w1 : world) (e : exn) :
  handler_try sv event w = (Raise e, w1) ->
  exists e' w', lambda_handler sv event w = (Raise e', w').
Proof.
  intros H. unfold lambda_handler. rewrite try_except_eq, H.
  destruct (bound_reference_key event) as [reference_key|].
  - rewrite bind_eq.
    destruct (update_item_fault sv) as [e'|] eqn:Hf.
    + rewrite (update_dynamodb_fault _ _ _ e') by assumption. eauto.
    + rewrite update_dynamodb_ok by assumption.
      unfold update_item at 1. mrun. eauto.
  - mrun. eauto.
Qed.

Lemma handler_reraises (event : option sns_message) (reference_key : string)
    (w w1 : world) (e : exn) :
  bound_reference_key event = Some reference_key ->
  update_item_fault sv = None ->
  handler_try sv event w = (Raise e, w1) ->
  lambda_handler sv event w
  = (Raise e, (update_item reference_key STATUS_FAILED w1).2).
Proof.
  intros Hb Hf H. unfold lambda_handler. rewrite try_except_eq, H, Hb.
  rewrite bind_eq, update_dynamodb_ok by assumption.
  reflexivity.
Qed.

End ExtractText.

(** ** The job supervisor of the synthesize-speech stage *)

Section Supervisor.

Import PollyInvoker.

Variable sv : services.

Lemma poll_task_eq (task_id : string) (w : world) :
  poll_task sv task_id w
  = match get_speech_synthesis_task sv task_id (now w) with
    | Fails e => (Raise e, add_event (EvPollTask task_id (now w)) w)
    | Returns reply =>
        match tasks w !! task_id with
        | None =>
            (Raise (ClientError "SynthesisTaskNotFoundException"),
             polled task_id reply.2 w)
        | Some req =>
            (Ok (reply.1, output_uri_of task_id req),
             if String.eqb reply.1 "completed"
             then set_s3 (insert (tr_bucket req, output_key_of task_id req)
                            (synthesize sv req))
                    (polled task_id reply.2 w)
             else polled task_id reply.2 w)
        end
    end.
Proof.
  unfold poll_task. mrun. cbn [now add_event].
  destruct (get_speech_synthesis_task sv task_id (now w)) as [[st lat]|e];
    [|reflexivity].
  cbn [tasks set_now add_event polled].
  destruct (tasks w !! task_id) as [req|]; [|reflexivity].
  unfold put_object. mrun.
  destruct (String.eqb st "completed"); reflexivity.
Qed.

(** A poll never runs out of fuel and never sets the clock back. *)
Lemma poll_task_now (task_id : string) (w : world) :
  (poll_task sv task_id w).1 <> NoFuel
  /\ (now w <= now (poll_task sv task_id w).2)%Z.
Proof.
  rewrite poll_task_eq.
  destruct (get_speech_synthesis_task sv task_id (now w)) as [[st lat]|e];
    [|split; [discriminate | simpl; lia]].
  destruct (tasks w !! task_id) as [req|]; simpl.
  - split; [discriminate|]. destruct (String.eqb st "completed"); simpl; lia.
  - split; [discriminate | lia].
Qed.

Lemma wait_loop_finishes (fuel : nat) (task_id : string) (end_time : Z) :
  forall w, enough_fuel fuel end_time w ->
    (wait_loop sv fuel task_id end_time w).1 <> NoFuel.
Proof.
  induction fuel as [|fuel IH]; intros w [Hne Hfuel]; [congruence|].
  cbn [wait_loop]. mrun.
  destruct (Z.ltb_spec (now w) end_time) as [Hlt|Hge]; [|discriminate].
  destruct (poll_task_now task_id w) as [Hnf Hnow].
  destruct (poll_task sv task_id w) as [[[st uri]|e|] w1];
    cbn [fst snd] in *; try discriminate; try congruence.
  destruct (String.eqb st "completed").
  { destruct (last (split_on "/" uri)); discriminate. }
  destruct (String.eqb st "failed"); [discriminate|].
  unfold sleep. mrun.
  apply IH. unfold enough_fuel, POLL_INTERVAL in *. cbn [now set_now add_event].
  split; [|lia]. destruct fuel; [lia | congruence].
Qed.

Lemma wait_fuel_enough (w : world) :
  enough_fuel wait_fuel (now w + WAIT_DEADLINE) w.
Proof.
  unfold enough_fuel, wait_fuel, WAIT_DEADLINE, POLL_INTERVAL.
  split; [discriminate|].
  replace (now w + 300000 - now w)%Z with 300000%Z by lia.
  vm_compute. discriminate.
Qed.

(** The wait always ends: with the audio file, or with an exception. *)
Lemma wait_for_polly_task_finishes (task_id : string) (w : world) :
  (wait_for_polly_task sv task_id w).1 <> NoFuel.
Proof.
  unfold wait_for_polly_task. mrun.
  apply wait_loop_finishes, wait_fuel_enough.
Qed.

(** While the task stays pending the loop polls, sleeps and goes on until
    the clock reaches the deadline; it then raises without polling. *)
Lemma wait_loop_times_out (fuel : nat) (task_id : string) (end_time : Z)
    (req : task_request) :
  forall w,
    enough_fuel fuel end_time w ->
    tasks w !! task_id = Some req ->
    (forall t, (now w <= t < end_time)%Z -> pending sv task_id t) ->
    exists w' evs,
      wait_loop sv fuel task_id end_time w = (Raise (TIMED_OUT task_id), w')
      /\ (end_time <= now w')%Z
      /\ log w' = log w ++ evs
      /\ Forall (polled_before end_time) evs
      /\ s3 w' = s3 w /\ table w' = table w /\ tasks w' = tasks w.
Proof.
  induction fuel as [|fuel IH]; intros w [Hne Hfuel] Hreq Hpend; [congruence|].
  cbn [wait_loop]. mrun.
  destruct (Z.ltb_spec (now w) end_time) as [Hlt|Hge].
  - rewrite poll_task_eq.
    destruct (Hpend (now w)) as (st & lat & -> & Hc & Hf); [lia|].
    rewrite Hreq. cbn [fst snd].
    apply String.eqb_neq in Hc, Hf. rewrite Hc, Hf.
    unfold sleep. mrun.
    set (w2 := add_event _ _).
    destruct (IH w2) as (w' & evs & E & Hend & Hlog & Hall & Hs3 & Htab & Htk).
    + subst w2. unfold enough_fuel, POLL_INTERVAL in *.
      cbn [now set_now add_event polled].
      split; [|lia]. destruct fuel; [lia | congruence].
    + subst w2. exact Hreq.
    + intros t Ht. apply Hpend. subst w2.
      cbn [now set_now add_event polled] in Ht. unfold POLL_INTERVAL in Ht. lia.
    + exists w', (EvPollTask task_id (now w) :: EvSleep POLL_INTERVAL :: evs).
      split; [exact E|]. split; [exact Hend|].
      split; [rewrite Hlog; subst w2; cbn [log set_now add_event polled];
              now rewrite <- !app_assoc|].
      split; [repeat constructor; assumption|].
      now rewrite Hs3, Htab, Htk.
  - exists w, []. rewrite app_nil_r. repeat split; auto.
Qed.

(** A task seen failed ends the wait with the failure exception. *)
Lemma wait_for_polly_task_failed (task_id : string) (req : task_request)
    (latency : N) (w : world) :
  tasks w !! task_id = Some req ->
  get_speech_synthesis_task sv task_id (now w) = Returns ("failed", latency) ->
  wait_for_polly_task sv task_id w
  = (Raise (TASK_FAILED task_id), polled task_id latency w).
Proof.
  intros Hreq Hget. unfold wait_for_polly_task. mrun.
  unfold wait_fuel. cbn [wait_loop]. mrun.
  destruct (Z.ltb_spec (now w) (now w + WAIT_DEADLINE)) as [_|H];
    [|unfold WAIT_DEADLINE in H; lia].
  rewrite poll_task_eq, Hget, Hreq. reflexivity.
Qed.

End Supervisor.

(** ** The synthesize-speech stage *)

Section SynthesizeSpeech.

Import PollyInvoker.

Variable sv : services.

(** *** The finalize step *)

Lemma rename_moves (bucket source_key reference_key body : string)
    (w : world) :
  s3_fault sv "CopyObject" = None ->
  s3_fault sv "DeleteObject" = None ->
  s3 w !! (bucket, source_key) = Some body ->
  rename_to_audio_mp3 sv bucket source_key reference_key w
  = (Ok (destination_key reference_key),
     set_s3 (delete (bucket, source_key))
       (set_s3 (insert (bucket, destination_key reference_key) body) w)).
Proof.
  intros Hc Hd Hsrc. unfold rename_to_audio_mp3.
  rewrite try_except_client_reraise, Hc, Hd.
  unfold copy_object, delete_object, get_object. mrun.
  now rewrite Hsrc.
Qed.

Lemma rename_missing (bucket source_key reference_key : string) (w : world) :
  s3_fault sv "CopyObject" = None ->
  s3 w !! (bucket, source_key) = None ->
  rename_to_audio_mp3 sv bucket source_key reference_key w
  = (Raise (ClientError "NoSuchKey"), w).
Proof.
  intros Hc Hsrc. unfold rename_to_audio_mp3.
  rewrite try_except_client_reraise, Hc.
  unfold copy_object, get_object. mrun.
  now rewrite Hsrc.
Qed.

(** *** Every step of the stage ends *)

Lemma finishes_get_language (reference_key : string) :
  finishes (get_language_from_dynamodb sv reference_key).
Proof. unfold get_language_from_dynamodb. finish. Qed.

Lemma finishes_get_voice_id (language : string) :
  finishes (get_voice_id language).
Proof.
  unfold get_voice_id.
  repeat match goal with |- context [if ?b then _ else _] => destruct b end;
    finish.
Qed.

Lemma finishes_get_language_code (language : string) :
  finishes (get_language_code language).
Proof.
  unfold get_language_code.
  repeat match goal with |- context [if ?b then _ else _] => destruct b end;
    finish.
Qed.

Lemma finishes_start_polly_task (bucket reference_key text : string)
    (chunk_index : nat) (language : string) :
  finishes (start_polly_task sv bucket reference_key text chunk_index language).
Proof.
  unfold start_polly_task. destruct (is_blank text); [finish|].
  apply finishes_try_except_client; [|finish].
  apply finishes_bind; [apply finishes_get_voice_id|]. intros voice.
  apply finishes_bind; [apply finishes_get_language_code|]. intros code.
  finish.
Qed.

Lemma finishes_wait_for_polly_task (task_id : string) :
  finishes (wait_for_polly_task sv task_id).
Proof. intros w. apply wait_for_polly_task_finishes. Qed.

Lemma finishes_rename (bucket source_key reference_key : string) :
  finishes (rename_to_audio_mp3 sv bucket source_key reference_key).
Proof. unfold rename_to_audio_mp3. finish. Qed.

Lemma finishes_combine (bucket reference_key : string)
    (audio_files : list string) :
  finishes (combine_audio_files sv bucket reference_key audio_files).
Proof. unfold combine_audio_files. destruct audio_files; finish. Qed.

Lemma finishes_update_status (reference_key status : string) :
  finishes (update_dynamodb_status sv reference_key status).
Proof. unfold update_dynamodb_status. finish. Qed.

Lemma finishes_item_at {A : Type} (i : nat) (l : list A) :
  finishes (item_at i l).
Proof. unfold item_at. destruct (l !! i); finish. Qed.

Lemma finishes_for_chunks (bucket reference_key language : string)
    (text_chunks : list string) :
  forall i audio_files,
    finishes (for_chunks sv bucket reference_key language text_chunks i
                audio_files).
Proof.
  induction text_chunks as [|chunk rest IH]; intros i audio_files;
    cbn [for_chunks]; [finish|].
  apply finishes_bind; [apply finishes_start_polly_task|]. intros task_id.
  apply finishes_bind; [apply finishes_wait_for_polly_task|]. intros f.
  apply IH.
Qed.

Hint Resolve finishes_get_language finishes_rename finishes_combine
  finishes_update_status finishes_item_at finishes_for_chunks : finishes.

Lemma finishes_handler_try (bucket key : string) :
  finishes (handler_try sv bucket key).
Proof.
  unfold handler_try. finish.
Qed.

(** *** The outcome of the handler *)

Lemma update_dynamodb_status_ok (reference_key status : string) (w : world) :
  update_item_fault sv = None ->
  update_dynamodb_status sv reference_key status w
  = update_item reference_key status w.
Proof. intros H. unfold update_dynamodb_status. now rewrite H. Qed.

Lemma item_at_lookup {A : Type} (i : nat) (l : list A) (a : A) (w w' : world) :
  item_at i l w = (Ok a, w') -> l !! i = Some a /\ w' = w.
Proof.
  unfold item_at. destruct (l !! i); mrun; intros H; [|discriminate].
  injection H as -> ->. now split.
Qed.

(** A run of the [try] block that returns has written the ready status
    last. *)
Lemma handler_try_ok (bucket key reference_key : string) (r : response)
    (w w1 : world) :
  split_on "/" key !! 1%nat = Some reference_key ->
  update_item_fault sv = None ->
  handler_try sv bucket key w = (Ok r, w1) ->
  statusCode r = 200%Z /\ TaskStatus_of reference_key w1 = Some STATUS_READY.
Proof.
  intros Hkey Hfault H. unfold handler_try in H.
  apply bind_ok_inv in H as (rk & w2 & Hrk & H).
  apply item_at_lookup in Hrk as [Hrk ->].
  assert (rk = reference_key) as -> by congruence.
  apply bind_ok_inv in H as (language & w3 & _ & H).
  apply bind_ok_inv in H as (text & w4 & _ & H).
  apply bind_ok_inv in H as (audio_files & w5 & _ & H).
  apply bind_ok_inv in H as (final & w6 & _ & H).
  apply bind_ok_inv in H as ([] & w7 & Hup & H).
  rewrite update_dynamodb_status_ok in Hup by assumption.
  mrun in H. injection H as <- <-.
  split; [reflexivity|].
  replace w7 with (update_item reference_key STATUS_READY w6).2
    by now rewrite Hup.
  apply TaskStatus_of_update.
Qed.

(** The handler returns a response in every world: 200 with the ready
    status written, or 500 with the failed status written. *)
Lemma lambda_handler_returns (bucket key reference_key : string) (w : world) :
  split_on "/" key !! 1%nat = Some reference_key ->
  update_item_fault sv = None ->
  exists resp w',
    lambda_handler sv (Some (bucket, key)) w = (Ok resp, w')
    /\ ((statusCode resp = 200%Z
         /\ TaskStatus_of reference_key w' = Some STATUS_READY)
        \/ (statusCode resp = 500%Z
            /\ TaskStatus_of reference_key w' = Some STATUS_FAILED
            /\ exists e w1,
                 handler_try sv bucket key w = (Raise e, w1)
                 /\ body resp
                    = DumpsStr ("Error processing file: " +:+ str_exn e))).
Proof.
  intros Hkey Hfault. unfold lambda_handler. mrun.
  pose proof (finishes_handler_try bucket key w) as Hfin.
  destruct (handler_try sv bucket key w) as [[r|e|] w1] eqn:Htry;
    cbn [fst] in Hfin; [| |congruence].
  - exists r, w1. split; [reflexivity|]. left.
    eapply handler_try_ok; eassumption.
  - rewrite Hkey. mrun.
    rewrite update_dynamodb_status_ok by assumption.
    unfold update_item at 1. mrun.
    eexists _, _. split; [reflexivity|]. right.
    split; [reflexivity|]. split; [apply TaskStatus_of_update|].
    exists e, w1. split; reflexivity.
Qed.

End SynthesizeSpeech.

(** ** The build trigger *)

Section BuildTrigger.

Import CodebuildInvoker.

Variable sv : services.

(** Monitoring records no submission and no backoff wait. *)
Lemma monitor_events_no_start (build_id : string) (evs : list event) :
  Forall (monitor_event build_id) evs ->
  List.filter is_start_build evs = []
  /\ List.filter is_retry_sleep evs = [].
Proof.
  induction 1 as [|e evs He _ [IH1 IH2]]; [now split|].
  destruct e; simpl in He; try contradiction; simpl.
  - subst ms. now split.
  - now split.
Qed.

(** One round of [monitor_build] on a build that has ended. *)
Lemma monitor_build_done (fuel : nat) (build_id final : string) (w : world) :
  batch_get_builds sv build_id (now w + POLL_SLEEP)%Z = Returns (Some final) ->
  final <> "IN_PROGRESS" ->
  monitor_build sv (S fuel) build_id w
  = (Ok (String.eqb final "SUCCEEDED"),
     add_event (EvPollBuild build_id (now w + POLL_SLEEP)%Z)
       (add_event (EvSleep POLL_SLEEP)
          (set_now (fun t => t + POLL_SLEEP)%Z w))).
Proof.
  intros Hget Hne. cbn [monitor_build]. unfold sleep. mrun.
  cbn [now set_now add_event]. rewrite Hget.
  apply String.eqb_neq in Hne. rewrite Hne. reflexivity.
Qed.

(** One round on a build still in progress. *)
Lemma monitor_build_in_progress (fuel : nat) (build_id : string) (w : world) :
  batch_get_builds sv build_id (now w + POLL_SLEEP)%Z
  = Returns (Some "IN_PROGRESS") ->
  monitor_build sv (S fuel) build_id w
  = monitor_build sv fuel build_id
      (add_event (EvPollBuild build_id (now w + POLL_SLEEP)%Z)
         (add_event (EvSleep POLL_SLEEP)
            (set_now (fun t => t + POLL_SLEEP)%Z w))).
Proof.
  intros Hget. cbn [monitor_build]. unfold sleep. mrun.
  cbn [now set_now add_event]. rewrite Hget. reflexivity.
Qed.

(** Monitoring a build that ends returns whether it succeeded, given fuel
    for the rounds until its end. *)
Lemma monitor_build_ends (build_id final : string) (finish : Z) :
  final <> "IN_PROGRESS" ->
  build_ends sv build_id finish final ->
  forall (d : nat) (w : world),
    (finish - (now w + POLL_SLEEP) <= Z.of_nat d)%Z ->
    exists (n : nat) (w' : world) (evs : list event),
      (forall fuel, (n < fuel)%nat ->
         monitor_build sv fuel build_id w
         = (Ok (String.eqb final "SUCCEEDED"), w'))
      /\ log w' = log w ++ evs
      /\ Forall (monitor_event build_id) evs.
Proof.
  intros Hne Hends. induction d as [|d IH]; intros w Hd.
  - exists O. eexists. exists [EvSleep POLL_SLEEP;
                               EvPollBuild build_id (now w + POLL_SLEEP)%Z].
    split; [|split].
    + intros [|fuel] Hf; [lia|]. apply monitor_build_done; [|assumption].
      rewrite Hends.
      destruct (Z.ltb_spec (now w + POLL_SLEEP) finish); [lia | reflexivity].
    + cbn [log add_event set_now]. now rewrite <- app_assoc.
    + repeat constructor.
  - destruct (Z.ltb_spec (now w + POLL_SLEEP) finish) as [Hlt|Hge].
    + set (w1 := add_event (EvPollBuild build_id (now w + POLL_SLEEP)%Z)
                   (add_event (EvSleep POLL_SLEEP)
                      (set_now (fun t => t + POLL_SLEEP)%Z w))).
      destruct (IH w1) as (n & w' & evs & Hrun & Hlog & Hall).
      { subst w1. cbn [now add_event set_now]. unfold POLL_SLEEP in *. lia. }
      exists (S n), w',
        (EvSleep POLL_SLEEP :: EvPollBuild build_id (now w + POLL_SLEEP)%Z
           :: evs).
      split; [|split].
      * intros [|fuel] Hf; [lia|].
        rewrite monitor_build_in_progress.
        -- apply Hrun. lia.
        -- rewrite Hends.
           destruct (Z.ltb_spec (now w + POLL_SLEEP) finish);
             [reflexivity | lia].
      * rewrite Hlog. subst w1. cbn [log add_event set_now].
        now rewrite <- !app_assoc.
      * repeat constructor; assumption.
    + exists O. eexists. exists [EvSleep POLL_SLEEP;
                                 EvPollBuild build_id (now w + POLL_SLEEP)%Z].
      split; [|split].
      * intros [|fuel] Hf; [lia|]. apply monitor_build_done; [|assumption].
        rewrite Hends.
        destruct (Z.ltb_spec (now w + POLL_SLEEP) finish); [lia | reflexivity].
      * cbn [log add_event set_now]. now rewrite <- app_assoc.
      * repeat constructor.
Qed.

Lemma monitor_build_result (build_id final : string) (finish : Z) (w : world) :
  final <> "IN_PROGRESS" ->
  build_ends sv build_id finish final ->
  exists (n : nat) (w' : world) (evs : list event),
    (forall fuel, (n < fuel)%nat ->
       monitor_build sv fuel build_id w
       = (Ok (String.eqb final "SUCCEEDED"), w'))
    /\ log w' = log w ++ evs
    /\ Forall (monitor_event build_id) evs.
Proof.
  intros Hne Hends.
  apply (monitor_build_ends build_id final finish Hne Hends
           (Z.to_nat (finish - (now w + POLL_SLEEP)))).
  lia.
Qed.

Lemma submissions_log (w w' : world) (evs : list event) :
  log w' = log w ++ evs ->
  submissions w' = (submissions w + length (List.filter is_start_build evs))%nat
  /\ retry_sleeps w'
     = (retry_sleeps w + length (List.filter is_retry_sleep evs))%nat.
Proof.
  intros H. unfold submissions, retry_sleeps.
  now rewrite H, !List.filter_app, !length_app.
Qed.

Lemma submit_build_eq (project_name : string) (w : world) :
  submit_build sv project_name w
  = match start_build sv project_name (submissions w) with
    | Returns build_id => (Ok build_id, add_event (EvStartBuild project_name) w)
    | Fails e => (Raise e, add_event (EvStartBuild project_name) w)
    end.
Proof.
  unfold submit_build. mrun.
  destruct (start_build sv project_name (submissions w)); reflexivity.
Qed.

(** An attempt on a build that succeeds ends the loop. *)
Lemma successful_attempt (project_name build_id : string) (remaining : nat)
    (attempt : Z) (w : world) :
  build_succeeds sv build_id ->
  exists (n : nat) (w' : world) (evs : list event),
    (forall fuel, (n < fuel)%nat ->
       attempt_loop sv fuel project_name (S remaining) attempt build_id w
       = (Ok (true, build_id, attempt), w'))
    /\ log w' = log w ++ evs
    /\ Forall (monitor_event build_id) evs.
Proof.
  intros [finish Hends].
  destruct (monitor_build_result build_id "SUCCEEDED" finish w)
    as (n & w' & evs & Hrun & Hlog & Hall); [discriminate | assumption |].
  exists n, w', evs. split; [|now split].
  intros fuel Hf. cbn [attempt_loop]. rewrite bind_eq, (Hrun fuel Hf).
  reflexivity.
Qed.

(** An attempt on a build that fails, with attempts left: the backoff wait
    and a new submission, whose build the next attempt monitors. *)
Lemma failed_attempt_retry (project_name build_id build_id' : string)
    (remaining : nat) (attempt : Z) (w : world) :
  build_fails sv build_id ->
  (attempt < max_attempts)%Z ->
  start_build sv project_name (submissions w) = Returns build_id' ->
  exists (n : nat) (w' : world) (evs : list event),
    (forall fuel, (n < fuel)%nat ->
       attempt_loop sv fuel project_name (S remaining) attempt build_id w
       = attempt_loop sv fuel project_name remaining (attempt + 1)%Z
           build_id' w')
    /\ log w' = log w ++ evs ++ [EvSleep RETRY_SLEEP; EvStartBuild project_name]
    /\ Forall (monitor_event build_id) evs.
Proof.
  intros (finish & final & Hip & Hs & Hends) Hlt Hstart.
  destruct (monitor_build_result build_id final finish w)
    as (n & w1 & evs & Hrun & Hlog & Hall); [assumption | assumption |].
  apply String.eqb_neq in Hs.
  exists n. eexists. exists evs. split; [|split; [|exact Hall]].
  - intros fuel Hf. cbn [attempt_loop].
    rewrite bind_eq, (Hrun fuel Hf), Hs.
    destruct (Z.ltb_spec attempt max_attempts) as [_|]; [|lia].
    rewrite bind_eq. unfold sleep. mrun. rewrite submit_build_eq.
    replace (submissions _) with (submissions w).
    + rewrite Hstart. reflexivity.
    + unfold submissions. cbn [log add_event set_now].
      rewrite Hlog, !List.filter_app.
      destruct (monitor_events_no_start build_id evs Hall) as [-> _].
      cbn. now rewrite !app_nil_r.
  - cbn [log add_event set_now]. rewrite Hlog. now rewrite <- !app_assoc.
Qed.

(** The last attempt on a build that fails: no wait, no submission. *)
Lemma failed_last_attempt (project_name build_id : string) (attempt : Z)
    (w : world) :
  build_fails sv build_id ->
  (max_attempts <= attempt)%Z ->
  exists (n : nat) (w' : world) (evs : list event),
    (forall fuel, (n < fuel)%nat ->
       attempt_loop sv fuel project_name 1 attempt build_id w
       = (Ok (false, build_id, (attempt + 1)%Z), w'))
    /\ log w' = log w ++ evs
    /\ Forall (monitor_event build_id) evs.
Proof.
  intros (finish & final & Hip & Hs & Hends) Hge.
  destruct (monitor_build_result build_id final finish w)
    as (n & w1 & evs & Hrun & Hlog & Hall); [assumption | assumption |].
  apply String.eqb_neq in Hs.
  exists n, w1, evs. split; [|now split].
  intros fuel Hf. cbn [attempt_loop].
  rewrite bind_eq, (Hrun fuel Hf), Hs.
  destruct (Z.ltb_spec attempt max_attempts) as [|_]; [lia|].
  reflexivity.
Qed.

Lemma counts_after_monitor (build_id : string) (w w' : world)
    (evs : list event) :
  log w' = log w ++ evs ->
  Forall (monitor_event build_id) evs ->
  submissions w' = submissions w /\ retry_sleeps w' = retry_sleeps w.
Proof.
  intros Hlog Hall. destruct (submissions_log w w' evs Hlog) as [-> ->].
  destruct (monitor_events_no_start build_id evs Hall) as [-> ->].
  cbn [length]. lia.
Qed.

Lemma counts_after_retry (build_id project_name : string) (w w' : world)
    (evs : list event) :
  log w' = log w ++ evs ++ [EvSleep RETRY_SLEEP; EvStartBuild project_name] ->
  Forall (monitor_event build_id) evs ->
  submissions w' = S (submissions w) /\ retry_sleeps w' = S (retry_sleeps w).
Proof.
  intros Hlog Hall. destruct (submissions_log w w' _ Hlog) as [-> ->].
  rewrite !List.filter_app.
  destruct (monitor_events_no_start build_id evs Hall) as [-> ->].
  cbn. lia.
Qed.

Lemma counts_after_submit (project_name : string) (w : world) :
  submissions (add_event (EvStartBuild project_name) w) = S (submissions w)
  /\ retry_sleeps (add_event (EvStartBuild project_name) w) = retry_sleeps w.
Proof.
  destruct (submissions_log w (add_event (EvStartBuild project_name) w)
              [EvStartBuild project_name] eq_refl) as [-> ->].
  cbn. lia.
Qed.

(** The handler after a first submission that is accepted. *)
Lemma lambda_handler_submitted (fuel : nat) (c : ascii) (s : string)
    (env_project_name : option string) (build_id : string) (w : world) :
  start_build sv (String c s) (submissions w) = Returns build_id ->
  lambda_handler sv fuel (Some (String c s)) env_project_name w
  = match attempt_loop sv fuel (String c s) 3 1 build_id
            (add_event (EvStartBuild (String c s)) w) with
    | (Ok final, w') =>
        (Ok (if final.1.1 then SUCCESS_RESPONSE final.1.2 final.2
             else FAILED_RESPONSE), w')
    | (Raise e, w') => (Raise e, w')
    | (NoFuel, w') => (NoFuel, w')
    end.
Proof.
  intros Hstart. unfold lambda_handler. cbn [py_or].
  rewrite bind_eq. unfold try_except_client. rewrite try_except_eq, bind_eq.
  rewrite submit_build_eq, Hstart. mrun.
  change (Z.to_nat max_attempts) with 3%nat.
  destruct (attempt_loop sv fuel (String c s) 3 1 build_id
              (add_event (EvStartBuild (String c s)) w)) as [[final|e|] w'];
    try reflexivity.
  destruct final as [[success id] attempt]. now destruct success.
Qed.

(** The outcomes of the handler.  [ids] are the builds the first, second
    and third submission start. *)
Section Outcomes.

Variables (c : ascii) (s : string) (env_project_name : option string).
Variables (id1 id2 id3 : string) (w : world).

Let project_name := String c s.

Hypothesis start1 : start_build sv project_name (submissions w) = Returns id1.
Hypothesis start2 :
  start_build sv project_name (S (submissions w)) = Returns id2.
Hypothesis start3 :
  start_build sv project_name (S (S (submissions w))) = Returns id3.

Lemma success_on_first_attempt :
  build_succeeds sv id1 ->
  exists (fuel0 : nat) (w' : world),
    (forall fuel, (fuel0 <= fuel)%nat ->
       lambda_handler sv fuel (Some project_name) env_project_name w
       = (Ok (SUCCESS_RESPONSE id1 1), w'))
    /\ submissions w' = (submissions w + 1)%nat
    /\ retry_sleeps w' = retry_sleeps w.
Proof.
  intros H1.
  destruct (counts_after_submit project_name w) as [Hs0 Hr0].
  destruct (successful_attempt project_name id1 2 1
              (add_event (EvStartBuild project_name) w) H1)
    as (n1 & w1 & m1 & Hrun1 & Hlog1 & Hall1).
  destruct (counts_after_monitor id1 _ _ _ Hlog1 Hall1) as [Hs1 Hr1].
  exists (S n1), w1. split; [|lia].
  intros fuel Hf. subst project_name.
  rewrite lambda_handler_submitted with (build_id := id1) by assumption.
  rewrite Hrun1 by lia. reflexivity.
Qed.

Lemma success_on_second_attempt :
  build_fails sv id1 -> build_succeeds sv id2 ->
  exists (fuel0 : nat) (w' : world),
    (forall fuel, (fuel0 <= fuel)%nat ->
       lambda_handler sv fuel (Some project_name) env_project_name w
       = (Ok (SUCCESS_RESPONSE id2 2), w'))
    /\ submissions w' = (submissions w + 2)%nat
    /\ retry_sleeps w' = (retry_sleeps w + 1)%nat.
Proof.
  intros H1 H2.
  destruct (counts_after_submit project_name w) as [Hs0 Hr0].
  destruct (failed_attempt_retry project_name id1 id2 2 1
              (add_event (EvStartBuild project_name) w) H1)
    as (n1 & w1 & m1 & Hrun1 & Hlog1 & Hall1);
    [reflexivity | now rewrite Hs0 |].
  destruct (counts_after_retry id1 _ _ _ _ Hlog1 Hall1) as [Hs1 Hr1].
  destruct (successful_attempt project_name id2 1 2 w1 H2)
    as (n2 & w2 & m2 & Hrun2 & Hlog2 & Hall2).
  destruct (counts_after_monitor id2 _ _ _ Hlog2 Hall2) as [Hs2 Hr2].
  exists (S (n1 + n2)), w2. split; [|lia].
  intros fuel Hf. subst project_name.
  rewrite lambda_handler_submitted with (build_id := id1) by assumption.
  rewrite Hrun1 by lia. change (1 + 1)%Z with 2%Z.
  rewrite Hrun2 by lia. reflexivity.
Qed.

Lemma success_on_third_attempt :
  build_fails sv id1 -> build_fails sv id2 -> build_succeeds sv id3 ->
  exists (fuel0 : nat) (w' : world),
    (forall fuel, (fuel0 <= fuel)%nat ->
       lambda_handler sv fuel (Some project_name) env_project_name w
       = (Ok (SUCCESS_RESPONSE id3 3), w'))
    /\ submissions w' = (submissions w + 3)%nat
    /\ retry_sleeps w' = (retry_sleeps w + 2)%nat.
Proof.
  intros H1 H2 H3.
  destruct (counts_after_submit project_name w) as [Hs0 Hr0].
  destruct (failed_attempt_retry project_name id1 id2 2 1
              (add_event (EvStartBuild project_name) w) H1)
    as (n1 & w1 & m1 & Hrun1 & Hlog1 & Hall1);
    [reflexivity | now rewrite Hs0 |].
  destruct (counts_after_retry id1 _ _ _ _ Hlog1 Hall1) as [Hs1 Hr1].
  destruct (failed_attempt_retry project_name id2 id3 1 2 w1 H2)
    as (n2 & w2 & m2 & Hrun2 & Hlog2 & Hall2);
    [reflexivity | now rewrite Hs1, Hs0 |].
  destruct (counts_after_retry id2 _ _ _ _ Hlog2 Hall2) as [Hs2 Hr2].
  destruct (successful_attempt project_name id3 0 3 w2 H3)
    as (n3 & w3 & m3 & Hrun3 & Hlog3 & Hall3).
  destruct (counts_after_monitor id3 _ _ _ Hlog3 Hall3) as [Hs3 Hr3].
  exists (S (n1 + n2 + n3)), w3. split; [|lia].
  intros fuel Hf. subst project_name.
  rewrite lambda_handler_submitted with (build_id := id1) by assumption.
  rewrite Hrun1 by lia. change (1 + 1)%Z with 2%Z.
  rewrite Hrun2 by lia. change (2 + 1)%Z with 3%Z.
  rewrite Hrun3 by lia. reflexivity.
Qed.

(** Three failing builds: three submissions, a backoff wait before the
    second and the third, each attempt monitoring the build of its own
    submission, and the failure response. *)
Lemma retries_exhausted :
  build_fails sv id1 -> build_fails sv id2 -> build_fails sv id3 ->
  exists (fuel0 : nat) (w' : world) (m1 m2 m3 : list event),
    (forall fuel, (fuel0 <= fuel)%nat ->
       lambda_handler sv fuel (Some project_name) env_project_name w
       = (Ok FAILED_RESPONSE, w'))
    /\ log w'
       = log w ++ [EvStartBuild project_name] ++ m1
           ++ [EvSleep RETRY_SLEEP; EvStartBuild project_name] ++ m2
           ++ [EvSleep RETRY_SLEEP; EvStartBuild project_name] ++ m3
    /\ Forall (monitor_event id1) m1
    /\ Forall (monitor_event id2) m2
    /\ Forall (monitor_event id3) m3
    /\ submissions w' = (submissions w + 3)%nat
    /\ retry_sleeps w' = (retry_sleeps w + 2)%nat.
Proof.
  intros H1 H2 H3.
  destruct (counts_after_submit project_name w) as [Hs0 Hr0].
  destruct (failed_attempt_retry project_name id1 id2 2 1
              (add_event (EvStartBuild project_name) w) H1)
    as (n1 & w1 & m1 & Hrun1 & Hlog1 & Hall1);
    [reflexivity | now rewrite Hs0 |].
  destruct (counts_after_retry id1 _ _ _ _ Hlog1 Hall1) as [Hs1 Hr1].
  destruct (failed_attempt_retry project_name id2 id3 1 2 w1 H2)
    as (n2 & w2 & m2 & Hrun2 & Hlog2 & Hall2);
    [reflexivity | now rewrite Hs1, Hs0 |].
  destruct (counts_after_retry id2 _ _ _ _ Hlog2 Hall2) as [Hs2 Hr2].
  destruct (failed_last_attempt project_name id3 3 w2 H3)
    as (n3 & w3 & m3 & Hrun3 & Hlog3 & Hall3); [reflexivity|].
  destruct (counts_after_monitor id3 _ _ _ Hlog3 Hall3) as [Hs3 Hr3].
  exists (S (n1 + n2 + n3)), w3, m1, m2, m3.
  split; [|split; [|repeat split; try assumption; lia]].
  - intros fuel Hf. subst project_name.
    rewrite lambda_handler_submitted with (build_id := id1) by assumption.
    rewrite Hrun1 by lia. change (1 + 1)%Z with 2%Z.
    rewrite Hrun2 by lia. change (2 + 1)%Z with 3%Z.
    rewrite Hrun3 by lia. reflexivity.
  - rewrite Hlog3, Hlog2, Hlog1. cbn [log add_event].
    now rewrite <- !app_assoc.
Qed.

End Outcomes.

End BuildTrigger.

(** ** The user-requests query *)

Section UserRequests.

Import TrackExecution.

Variable sv : services.

(** The pages of the scan give the items of the user, in table order. *)
Lemma scan_loop_eq (username : string) (w : world) :
  scan_fault sv = None ->
  forall (fuel : nat) (remaining items : list (gmap string string)),
    (length remaining < fuel)%nat ->
    scan_loop sv fuel username remaining items w
    = (Ok (items ++ List.filter (is_user username) remaining), w).
Proof.
  intros Hfault. induction fuel as [|fuel IH]; intros remaining items Hlen;
    [lia|].
  cbn [scan_loop]. rewrite Hfault. mrun.
  set (n := Pos.to_nat (page_limit sv)).
  assert (Hn : (0 < n)%nat) by (subst n; lia).
  pose proof (take_drop n remaining) as Hsplit.
  destruct (drop n remaining) as [|item rest] eqn:Hdrop.
  - rewrite app_nil_r in Hsplit. now rewrite Hsplit.
  - rewrite IH.
    + rewrite <- app_assoc, <- List.filter_app, Hsplit. reflexivity.
    + assert (length (drop n remaining) = length remaining - n)%nat
        by apply length_drop.
      rewrite Hdrop in H. cbn [length] in *. lia.
Qed.

Lemma request_of_eq (item : gmap string string) (w : world) :
  is_Some (item !! "reference_key") ->
  request_of item w = (Ok (to_request item), w).
Proof.
  intros [k Hk]. unfold request_of, to_request. rewrite Hk. reflexivity.
Qed.

Lemma for_items_eq (items : list (gmap string string)) (w : world) :
  Forall (fun item => is_Some (item !! "reference_key")) items ->
  forall requests,
    for_items items requests w = (Ok (requests ++ map to_request items), w).
Proof.
  induction 1 as [|item items Hitem _ IH]; intros requests; cbn [for_items].
  - mrun. now rewrite app_nil_r.
  - rewrite bind_eq, request_of_eq by assumption.
    rewrite IH, <- app_assoc. reflexivity.
Qed.

(** The status a request reports. *)
Lemma reported_status_ready (item : gmap string string) :
  item !! "TaskStatus" = Some READY -> reported_status item = READY.
Proof. intros H. unfold reported_status. now rewrite H. Qed.

Lemma reported_status_other (item : gmap string string) :
  item !! "TaskStatus" <> Some READY -> reported_status item = IN_PROGRESS.
Proof.
  intros H. unfold reported_status.
  destruct (item !! "TaskStatus") as [status|]; [|reflexivity].
  destruct (String.eqb_spec status READY) as [->|]; [congruence | reflexivity].
Qed.

Lemma get_user_requests_eq (username : string) (w : world) :
  scan_fault sv = None ->
  Forall (fun item => is_Some (item !! "reference_key")) (table_items w) ->
  get_user_requests sv username w
  = (Ok (Response 200
           (DumpsRequests
              (map to_request
                 (List.filter (is_user username) (table_items w))))), w).
Proof.
  intros Hfault Hkeys. unfold get_user_requests. mrun.
  rewrite scan_loop_eq by (assumption || lia).
  cbn [app]. rewrite for_items_eq; [reflexivity|].
  rewrite List.Forall_forall in *. intros item Hin.
  apply Hkeys. apply filter_In in Hin. tauto.
Qed.

End UserRequests.

Lemma has_key_items (items : list (gmap string string)) :
  forallb TrackExecution.has_key items = true ->
  Forall (fun item => is_Some (item !! "reference_key")) items.
Proof.
  intros H. rewrite forallb_forall in H. apply List.Forall_forall.
  intros item Hin. specialize (H item Hin).
  unfold TrackExecution.has_key in H.
  destruct (item !! "reference_key"); [eauto | discriminate].
Qed.

(** ** Steps that do not read the task table *)

Create HintDb blind.

Lemma same_but_table_refl (w : world) : same_but_table w w.
Proof. now repeat split. Qed.

Lemma same_but_table_set (t : gmap string (gmap string string)) (w : world) :
  same_but_table (set_table (fun _ => t) w) w.
Proof. now repeat split. Qed.

Lemma blind_mret {A : Type} (a : A) : table_blind (mret a).
Proof. intros w1 w2 H. now split. Qed.

Lemma blind_raise {A : Type} (e : exn) : table_blind (@raise A e).
Proof. intros w1 w2 H. now split. Qed.

Lemma blind_lift {A : Type} (r : reply A) : table_blind (lift r).
Proof. intros w1 w2 H. destruct r; now split. Qed.

Lemma blind_subscript {A : Type} (key : string) (v : option A) :
  table_blind (subscript key v).
Proof. intros w1 w2 H. destruct v; now split. Qed.

Lemma blind_bind {A B : Type} (m : M A) (k : A -> M B) :
  table_blind m -> (forall a, table_blind (k a)) -> table_blind (m ≫= k).
Proof.
  intros Hm Hk w1 w2 H. rewrite !bind_eq.
  destruct (Hm w1 w2 H) as [Hr Hw].
  destruct (m w1) as [r1 w1'], (m w2) as [r2 w2']. cbn [fst snd] in Hr, Hw.
  subst r2. destruct r1 as [a|e|]; [now apply Hk | now split | now split].
Qed.

Lemma blind_try_except {A : Type} (m : M A) (h : exn -> M A) :
  table_blind m -> (forall e, table_blind (h e)) -> table_blind (try_except m h).
Proof.
  intros Hm Hh w1 w2 H. rewrite !try_except_eq.
  destruct (Hm w1 w2 H) as [Hr Hw].
  destruct (m w1) as [r1 w1'], (m w2) as [r2 w2']. cbn [fst snd] in Hr, Hw.
  subst r2. destruct r1 as [a|e|]; [now split | now apply Hh | now split].
Qed.

Lemma blind_faulty {A : Type} (fault : option exn) (m : M A) :
  table_blind m -> table_blind (faulty fault m).
Proof. intros Hm. destruct fault; [apply blind_raise | assumption]. Qed.

Lemma blind_list_objects (bucket prefix : string) :
  table_blind (list_objects bucket prefix).
Proof.
  intros w1 w2 H. split; [|exact H].
  unfold list_objects, list_keys. cbn [fst snd].
  destruct H as [-> _]. reflexivity.
Qed.

Lemma blind_get_object (bucket key : string) :
  table_blind (get_object bucket key).
Proof.
  intros w1 w2 H. unfold get_object. destruct H as (Hs & Hn & Hl & Ht).
  rewrite Hs. destruct (s3 w2 !! (bucket, key)); now repeat split.
Qed.

Lemma blind_put_object (bucket key body : string) :
  table_blind (put_object bucket key body).
Proof.
  intros w1 w2 (Hs & Hn & Hl & Ht). split; [reflexivity|].
  unfold same_but_table. cbn. now rewrite Hs.
Qed.

(** The update writes the table and nothing else. *)
Lemma blind_update_item (reference_key status : string) :
  table_blind (update_item reference_key status).
Proof. intros w1 w2 (Hs & Hn & Hl & Ht). split; [reflexivity|]. now repeat split. Qed.

#[global] Hint Resolve blind_mret blind_raise blind_lift blind_subscript
  blind_faulty blind_list_objects blind_get_object blind_put_object
  blind_update_item : blind.

Ltac blind :=
  repeat first
    [ progress auto with blind
    | lazymatch goal with
      | |- forall _, _ => intro
      | |- table_blind (try_except _ _) => apply blind_try_except
      | |- table_blind (mbind _ _) => apply blind_bind
      | |- table_blind (if ?b then _ else _) => destruct b
      | |- table_blind (match ?x with _ => _ end) => destruct x
      end ].

Section ExtractTextBlind.

Import ImageConverter.

Variable sv : services.

Lemma blind_update_dynamodb (reference_key status : string) :
  table_blind (update_dynamodb sv reference_key status).
Proof. unfold update_dynamodb. blind. Qed.

Lemma blind_process_image_claude (image_base64 : string) :
  table_blind (process_image_claude sv image_base64).
Proof. unfold process_image_claude. blind. Qed.

Lemma blind_add_image_text (bucket all_text image_key : string) :
  table_blind (add_image_text sv bucket all_text image_key).
Proof.
  unfold add_image_text. apply blind_try_except; [|blind].
  apply blind_bind; [blind|]. intros content.
  apply blind_bind; [apply blind_process_image_claude | blind].
Qed.

Lemma blind_for_images (bucket : string) (keys : list string) :
  forall all_text, table_blind (for_images sv bucket keys all_text).
Proof.
  induction keys as [|k keys IH]; intros all_text; cbn [for_images]; [blind|].
  apply blind_bind; [apply blind_add_image_text | apply IH].
Qed.

Lemma blind_handler_try (event : option sns_message) :
  table_blind (handler_try sv event).
Proof.
  unfold handler_try.
  apply blind_bind; [blind|]. intros message.
  apply blind_bind; [blind|]. intros reference_key.
  apply blind_bind; [blind|]. intros bucket.
  apply blind_bind; [blind|]. intros [|k ks].
  - apply blind_bind; [apply blind_update_dynamodb | blind].
  - apply blind_bind; [apply blind_for_images|]. intros all_text.
    apply blind_bind; [blind|]. intros _.
    apply blind_bind; [apply blind_update_dynamodb | blind].
Qed.

(** The response of the handler and the bucket it leaves do not depend on
    the task table: the status of the task is not read. *)
Lemma blind_lambda_handler (event : option sns_message) :
  table_blind (lambda_handler sv event).
Proof.
  unfold lambda_handler. apply blind_try_except; [apply blind_handler_try|].
  intros e. destruct (bound_reference_key event); [|blind].
  apply blind_bind; [apply blind_update_dynamodb | blind].
Qed.

End ExtractTextBlind.

(** ** More on the chunk splitter *)

Section PackingInvariants.

Import PollyInvoker.

Variable limit : Z.

(** A property of the state kept by every iteration is kept by the loop. *)
Lemma split_fold_invariant (Inv : list string * list string -> Prop) :
  (forall st w, is_word w -> Inv st -> Inv (split_step limit st w)) ->
  forall ws st, Forall is_word ws -> Inv st ->
    Inv (fold_left (split_step limit) ws st).
Proof.
  intros Hstep. induction ws as [|w ws IH]; intros st Hws Hst; [exact Hst|].
  apply Forall_cons_iff in Hws as [Hw Hws]. cbn [fold_left].
  apply IH; [assumption|]. now apply Hstep.
Qed.

(** The two cases of an iteration. *)
Lemma split_step_cases (chunks cur : list string) (w : string) :
  ((len (join " " (cur ++ [w])) <= limit)%Z
   /\ split_step limit (chunks, cur) w = (chunks, cur ++ [w]))
  \/ ((limit < len (join " " (cur ++ [w])))%Z
      /\ split_step limit (chunks, cur) w = (chunks ++ [join " " cur], [w])).
Proof.
  destruct (Z.le_gt_cases (len (join " " (cur ++ [w]))) limit) as [H|H].
  - left. split; [exact H | now apply split_step_fit].
  - right. split; [exact H | now apply split_step_overflow].
Qed.

Lemma tail_nonempty_step (st : list string * list string) (w : string) :
  is_word w -> tail_nonempty limit st ->
  tail_nonempty limit (split_step limit st w).
Proof.
  destruct st as [chunks cur]. intros Hw (Ht & He & Hc).
  cbn [fst snd] in *.
  destruct (split_step_cases chunks cur w) as [[_ ->]|[_ ->]];
    unfold tail_nonempty; cbn [fst snd].
  - split; [exact Ht|]. split.
    + intros H. now destruct cur.
    + apply Forall_app. split; [assumption | now constructor].
  - split; [|split; [discriminate | now constructor]].
    destruct chunks as [|c chunks]; [constructor|].
    cbn [app tail]. apply Forall_app. split; [exact Ht|].
    constructor; [|constructor].
    apply join_words_nonempty; [|assumption].
    intros ->. specialize (He eq_refl). discriminate.
Qed.

Lemma split_text_with_tail_nonempty (text : string) :
  Forall (fun c => c <> "") (tail (split_text_with limit text)).
Proof.
  unfold split_text_with.
  pose proof (split_fold_invariant (tail_nonempty limit) tail_nonempty_step
                (split text) ([], []) (split_words text)) as H.
  destruct (fold_left (split_step limit) (split text) ([], []))
    as [chunks cur].
  destruct H as (Ht & He & Hc); [repeat split; constructor|].
  cbn [fst snd] in *.
  destruct cur as [|w cur]; [exact Ht|].
  destruct chunks as [|c chunks]; [constructor|].
  cbn [app tail]. apply Forall_app. split; [exact Ht|].
  constructor; [|constructor]. now apply join_words_nonempty.
Qed.

Lemma all_nonempty_step (st : list string * list string) (w : string) :
  is_word w -> all_nonempty limit st ->
  all_nonempty limit (split_step limit st w).
Proof.
  destruct st as [chunks cur]. intros Hw (Ht & He & Hc).
  cbn [fst snd] in *.
  destruct (split_step_cases chunks cur w) as [[_ ->]|[_ ->]];
    unfold all_nonempty; cbn [fst snd].
  - split; [exact Ht|]. split.
    + now destruct cur.
    + apply Forall_app. split; [assumption | now constructor].
  - split; [|split; [discriminate | now constructor]].
    apply Forall_app. split; [exact Ht|]. constructor; [|constructor].
    now apply join_words_nonempty.
Qed.

Lemma split_text_with_first_fits (text w : string) (ws : list string) :
  split text = w :: ws -> (len w <= limit)%Z ->
  Forall (fun c => c <> "") (split_text_with limit text).
Proof.
  intros Hsplit Hlen. unfold split_text_with.
  pose proof (split_words text) as Hwords. rewrite Hsplit in *.
  apply Forall_cons_iff in Hwords as [Hw Hws].
  cbn [fold_left]. rewrite split_step_fit by exact Hlen. cbn [app].
  pose proof (split_fold_invariant (all_nonempty limit) all_nonempty_step
                ws ([], [w]) Hws) as H.
  destruct (fold_left (split_step limit) ws ([], [w])) as [chunks cur].
  destruct H as (Ht & He & Hc).
  { split; [constructor|]. split; [discriminate | now constructor]. }
  cbn [fst snd] in *. destruct cur as [|w' cur]; [congruence|].
  apply Forall_app. split; [exact Ht|]. constructor; [|constructor].
  now apply join_words_nonempty.
Qed.

Lemma head_empty_step (st : list string * list string) (w : string) :
  is_word w -> head_empty limit st ->
  head_empty limit (split_step limit st w).
Proof.
  destruct st as [chunks cur]. unfold head_empty. cbn [fst]. intros _ H.
  destruct (split_step_cases chunks cur w) as [[_ ->]|[_ ->]]; cbn [fst].
  - exact H.
  - destruct chunks; [discriminate | exact H].
Qed.

Lemma split_text_with_first_long (text w : string) (ws : list string) :
  split text = w :: ws -> (limit < len w)%Z ->
  head (split_text_with limit text) = Some "".
Proof.
  intros Hsplit Hlen. unfold split_text_with.
  pose proof (split_words text) as Hwords. rewrite Hsplit in *.
  apply Forall_cons_iff in Hwords as [Hw Hws].
  cbn [fold_left]. rewrite split_step_overflow by exact Hlen. cbn [app].
  pose proof (split_fold_invariant (head_empty limit) head_empty_step
                ws ([join " " []], [w]) Hws eq_refl) as H.
  destruct (fold_left (split_step limit) ws ([join " " []], [w]))
    as [chunks cur].
  unfold head_empty in H. cbn [fst] in H.
  destruct cur; [exact H|]. destruct chunks; [discriminate | exact H].
Qed.

(** Neighbours in a list extended at its end. *)
Lemma adjacent_snoc (P : string -> string -> Prop) (l : list string)
    (x : string) :
  (forall i c d, l !! i = Some c -> l !! S i = Some d -> P c d) ->
  (forall c, last l = Some c -> P c x) ->
  forall i c d,
    (l ++ [x]) !! i = Some c -> (l ++ [x]) !! S i = Some d -> P c d.
Proof.
  intros Hin Hlast i c d Hc Hd.
  destruct (decide (S i < length l)) as [Hlt|Hge].
  - rewrite lookup_app_l in Hc by lia. rewrite lookup_app_l in Hd by lia.
    eauto.
  - assert (Hi : S i = length l).
    { apply lookup_lt_Some in Hd. rewrite length_app in Hd. cbn in Hd. lia. }
    rewrite lookup_app_l in Hc by lia.
    rewrite lookup_app_r in Hd by lia.
    replace (S i - length l) with 0 in Hd by lia. cbn in Hd.
    injection Hd as <-. apply Hlast.
    rewrite last_lookup. now replace (pred (length l)) with i by lia.
Qed.

Lemma full_before_open (c w : string) (rest : list string) :
  Forall is_word (w :: rest) ->
  (limit < len (join " " (split c ++ [w])))%Z ->
  full_before limit c (join " " (w :: rest)).
Proof.
  intros Hw Hlen. exists w. now rewrite split_join_words.
Qed.

Lemma packed_tight_step (st : list string * list string) (w : string) :
  is_word w -> packed_tight limit st ->
  packed_tight limit (split_step limit st w).
Proof.
  destruct st as [chunks cur]. intros Hw (Hadj & Hlast & Hc).
  cbn [fst snd] in *.
  destruct (split_step_cases chunks cur w) as [[_ ->]|[Hov ->]];
    unfold packed_tight; cbn [fst snd].
  - split; [exact Hadj|]. split.
    + intros c Hl. destruct (Hlast c Hl) as (w0 & rest & -> & Hlen).
      exists w0, (rest ++ [w]). now split.
    + apply Forall_app. split; [assumption | now constructor].
  - split; [|split; [|now constructor]].
    + apply adjacent_snoc; [exact Hadj|].
      intros c Hl. destruct (Hlast c Hl) as (w0 & rest & -> & Hlen).
      now apply full_before_open.
    + intros c Hl. rewrite last_snoc in Hl. injection Hl as <-.
      exists w, []. split; [reflexivity|].
      now rewrite split_join_words.
Qed.

Lemma split_text_with_tight (text : string) :
  forall i c d,
    split_text_with limit text !! i = Some c ->
    split_text_with limit text !! S i = Some d ->
    full_before limit c d.
Proof.
  unfold split_text_with.
  pose proof (split_fold_invariant (packed_tight limit) packed_tight_step
                (split text) ([], []) (split_words text)) as H.
  destruct (fold_left (split_step limit) (split text) ([], []))
    as [chunks cur].
  destruct H as (Hadj & Hlast & Hc).
  { split; [intros i c d H; discriminate|].
    split; [intros c H; discriminate | constructor]. }
  cbn [fst snd] in *.
  destruct cur as [|w cur]; [exact Hadj|].
  apply adjacent_snoc; [exact Hadj|].
  intros c Hl. destruct (Hlast c Hl) as (w0 & rest & E & Hlen).
  injection E as <- <-. now apply full_before_open.
Qed.

End PackingInvariants.

(** ** More on the job supervisor *)

Section SupervisorBounds.

Import PollyInvoker.

Variable sv : services.

Lemma poll_task_log (task_id : string) (w : world) :
  log (poll_task sv task_id w).2 = log w ++ [EvPollTask task_id (now w)].
Proof.
  rewrite poll_task_eq.
  destruct (get_speech_synthesis_task sv task_id (now w)) as [[st lat]|e];
    [|reflexivity].
  destruct (tasks w !! task_id) as [req|]; [|reflexivity].
  cbn [fst snd]. now destruct (String.eqb st "completed").
Qed.

(** Whatever the environment answers, the loop ends, every poll it makes
    starts before the deadline, and it makes at most one poll per unit of
    fuel but the last. *)
Lemma wait_loop_bounded (fuel : nat) (task_id : string) (end_time : Z) :
  forall w, enough_fuel fuel end_time w ->
    exists r w' evs,
      wait_loop sv fuel task_id end_time w = (r, w')
      /\ r <> NoFuel
      /\ log w' = log w ++ evs
      /\ Forall (polled_before end_time) evs
      /\ (polls evs < fuel)%nat.
Proof.
  induction fuel as [|fuel IH]; intros w [Hne Hfuel]; [congruence|].
  cbn [wait_loop]. mrun.
  destruct (Z.ltb_spec (now w) end_time) as [Hlt|Hge].
  2:{ eexists _, _, []. split; [reflexivity|]. split; [discriminate|].
      rewrite app_nil_r. split; [reflexivity|].
      split; [constructor | unfold polls; cbn; lia]. }
  assert (Hfuel1 : (1 <= fuel)%nat) by (unfold POLL_INTERVAL in *; lia).
  assert (Hone : forall (r : result string) (w1 : world),
            r <> NoFuel ->
            log w1 = log w ++ [EvPollTask task_id (now w)] ->
            exists r' w' evs,
              (r, w1) = (r', w') /\ r' <> NoFuel
              /\ log w' = log w ++ evs
              /\ Forall (polled_before end_time) evs
              /\ (polls evs < S fuel)%nat).
  { intros r w1 Hr Hl. exists r, w1, [EvPollTask task_id (now w)].
    split; [reflexivity|]. split; [exact Hr|]. split; [exact Hl|].
    split; [constructor; [exact Hlt | constructor]|].
    unfold polls. cbn. lia. }
  destruct (poll_task_now sv task_id w) as [Hnf Hnow].
  pose proof (poll_task_log task_id w) as Hlog.
  destruct (poll_task sv task_id w) as [[[st uri]|e|] w1];
    cbn [fst snd] in *; [| |congruence].
  2:{ apply Hone; [discriminate | assumption]. }
  destruct (String.eqb st "completed").
  { destruct (last (split_on "/" uri));
      (apply Hone; [discriminate | assumption]). }
  destruct (String.eqb st "failed").
  { apply Hone; [discriminate | assumption]. }
  unfold sleep. mrun.
  set (w2 := add_event _ _).
  destruct (IH w2) as (r & w' & evs & E & Hr & Hlog2 & Hall & Hpolls).
  { subst w2. unfold enough_fuel, POLL_INTERVAL in *.
    cbn [now set_now add_event].
    split; [|lia]. destruct fuel; [lia | congruence]. }
  exists r, w', (EvPollTask task_id (now w) :: EvSleep POLL_INTERVAL :: evs).
  split; [exact E|]. split; [exact Hr|]. split; [|split].
  - rewrite Hlog2. subst w2. cbn [log set_now add_event]. rewrite Hlog.
    now rewrite <- !app_assoc.
  - constructor; [exact Hlt|]. constructor; [exact I | exact Hall].
  - unfold polls in *. cbn. lia.
Qed.

End SupervisorBounds.

(** ** Splitting at a separator *)

Lemma split_on_from_nonempty (c : ascii) (s cur : string) :
  split_on_from c cur s <> [].
Proof.
  revert cur. induction s as [|d s IH]; intros cur; cbn [split_on_from].
  - discriminate.
  - destruct (Ascii.eqb d c); [discriminate | apply IH].
Qed.

(** A string without the separator is one field. *)
Lemma split_on_from_no_char (c : ascii) (s cur : string) :
  no_char c s = true -> split_on_from c cur s = [cur +:+ s].
Proof.
  revert cur. induction s as [|d s IH]; intros cur H; cbn in *.
  - now rewrite append_nil_r.
  - apply andb_prop in H as [Hd Hs].
    destruct (Ascii.eqb d c); [discriminate|].
    rewrite IH by assumption. now rewrite append_snoc.
Qed.

(** The separator ends the field read so far. *)
Lemma split_on_from_app (c : ascii) (a cur rest : string) :
  no_char c a = true ->
  split_on_from c cur (a +:+ String c rest)
  = (cur +:+ a) :: split_on_from c "" rest.
Proof.
  revert cur. induction a as [|d a IH]; intros cur H; cbn in *.
  - now rewrite Ascii.eqb_refl, append_nil_r.
  - apply andb_prop in H as [Hd Ha].
    destruct (Ascii.eqb d c); [discriminate|].
    rewrite IH by assumption. now rewrite append_snoc.
Qed.

Lemma last_cons_nonempty {A : Type} (x : A) (l : list A) :
  l <> [] -> last (x :: l) = last l.
Proof. destruct l; [congruence | reflexivity]. Qed.

(** The last field is what follows the last separator. *)
Lemma last_split_on_from (c : ascii) (a cur b : string) :
  last (split_on_from c cur (a +:+ String c b)) = last (split_on c b).
Proof.
  revert cur. induction a as [|d a IH]; intros cur; cbn [append split_on_from].
  - rewrite Ascii.eqb_refl.
    apply last_cons_nonempty, split_on_from_nonempty.
  - destruct (Ascii.eqb d c); [|apply IH].
    rewrite last_cons_nonempty by apply split_on_from_nonempty. apply IH.
Qed.

Lemma last_split_on (c : ascii) (a b : string) :
  no_char c b = true -> last (split_on c (a +:+ String c b)) = Some b.
Proof.
  intros H. unfold split_on at 1. rewrite last_split_on_from.
  unfold split_on. now rewrite split_on_from_no_char.
Qed.

(** Joining with a one-character separator and splitting at it gives the
    parts back, when no part holds the separator. *)
Lemma split_on_join (c : ascii) (l : list string) :
  l <> [] -> Forall (fun s => no_char c s = true) l ->
  split_on c (join (String c "") l) = l.
Proof.
  intros Hne Hall. induction Hall as [|s l Hs Hl IH]; [congruence|].
  destruct l as [|s' l].
  - rewrite join_single. unfold split_on. now rewrite split_on_from_no_char.
  - rewrite join_cons2. unfold split_on. cbn [append].
    rewrite split_on_from_app by assumption. cbn [append].
    f_equal. apply IH. discriminate.
Qed.

Lemma no_char_append (c : ascii) (a b : string) :
  no_char c (a +:+ b) = no_char c a && no_char c b.
Proof.
  induction a as [|d a IH]; cbn; [reflexivity|].
  now rewrite IH, andb_assoc.
Qed.

(** A whitespace-only text has no word. *)
Lemma split_from_blank (s : string) :
  is_blank s = true -> split_from "" s = [].
Proof.
  induction s as [|c s IH]; cbn; [reflexivity|].
  intros H. apply andb_prop in H as [Hc Hs]. rewrite Hc. now apply IH.
Qed.

Lemma split_blank (s : string) : is_blank s = true -> split s = [].
Proof. apply split_from_blank. Qed.

(** A text that starts with a word is not blank. *)
Lemma join_words_not_blank (ws : list string) :
  ws <> [] -> Forall is_word ws -> is_blank (join " " ws) = false.
Proof.
  intros Hne Hws. destruct ws as [|w ws]; [congruence|].
  apply Forall_cons_iff in Hws as [[Hw Hns] _].
  destruct w as [|c w]; [congruence|].
  cbn in Hns. apply andb_prop in Hns as [Hc _].
  apply negb_true_iff in Hc.
  destruct ws; [rewrite join_single | rewrite join_cons2];
    cbn; now rewrite Hc.
Qed.

(** The length of a joined list grows with the list. *)
Lemma len_nonneg (s : string) : (0 <= len s)%Z.
Proof. unfold len. lia. Qed.

Lemma len_join_snoc (l : list string) (w : string) :
  (len (join " " l) <= len (join " " (l ++ [w])))%Z.
Proof.
  induction l as [|x [|y l] IH].
  - cbn [app]. rewrite join_single. apply len_nonneg.
  - cbn [app]. rewrite join_single, join_cons2, !len_append.
    pose proof (len_nonneg (" " +:+ join " " [w])).
    rewrite len_append in H. pose proof (len_nonneg " ").
    pose proof (len_nonneg (join " " [w])). lia.
  - change ((x :: y :: l) ++ [w]) with (x :: (y :: l) ++ [w]).
    cbn [app] in *. rewrite !join_cons2, !len_append. lia.
Qed.

Lemma len_join_app (l1 l2 : list string) :
  (len (join " " l1) <= len (join " " (l1 ++ l2)))%Z.
Proof.
  revert l1. induction l2 as [|w l2 IH]; intros l1.
  - rewrite app_nil_r. lia.
  - replace (l1 ++ w :: l2) with ((l1 ++ [w]) ++ l2)
      by now rewrite <- app_assoc.
    pose proof (len_join_snoc l1 w). pose proof (IH (l1 ++ [w])). lia.
Qed.

(** ** More on the synthesize-speech stage *)

Section SplitterChunks.

Import PollyInvoker.

Variable limit : Z.

Lemma chunks_spoken_step (st : list string * list string) (w : string) :
  is_word w -> chunks_spoken st -> chunks_spoken (split_step limit st w).
Proof.
  destruct st as [chunks cur]. intros Hw [Hc Hcur]. cbn [fst snd] in *.
  destruct (split_step_cases limit chunks cur w) as [[_ ->]|[_ ->]];
    unfold chunks_spoken; cbn [fst snd].
  - split; [exact Hc|]. apply Forall_app. split; [assumption|now constructor].
  - split; [|now constructor]. apply Forall_app. split; [exact Hc|].
    constructor; [|constructor]. destruct cur as [|w0 cur]; [now left|].
    right. now apply join_words_not_blank.
Qed.

(** A chunk that is not empty is not blank. *)
Lemma split_text_with_spoken (text : string) :
  Forall empty_or_spoken (split_text_with limit text).
Proof.
  unfold split_text_with.
  pose proof (split_fold_invariant limit chunks_spoken chunks_spoken_step
                (split text) ([], []) (split_words text)) as H.
  destruct (fold_left (split_step limit) (split text) ([], []))
    as [chunks cur].
  destruct H as [Hc Hcur]; [split; constructor|]. cbn [fst snd] in *.
  destruct cur as [|w cur]; [exact Hc|].
  apply Forall_app. split; [exact Hc|]. constructor; [|constructor].
  right. now apply join_words_not_blank.
Qed.

(** A text whose words, joined, fit the limit is one chunk. *)
Lemma split_fold_single (rest : list string) :
  forall cur,
    (len (join " " (cur ++ rest)) <= limit)%Z ->
    fold_left (split_step limit) rest ([], cur) = ([], cur ++ rest).
Proof.
  induction rest as [|w rest IH]; intros cur Hlen; cbn [fold_left].
  - now rewrite app_nil_r.
  - replace (cur ++ w :: rest) with ((cur ++ [w]) ++ rest) in *
      by now rewrite <- app_assoc.
    rewrite split_step_fit.
    + now apply IH.
    + pose proof (len_join_app (cur ++ [w]) rest). lia.
Qed.

Lemma split_text_with_single (text w : string) (ws : list string) :
  split text = w :: ws ->
  (len (join " " (w :: ws)) <= limit)%Z ->
  split_text_with limit text = [join " " (w :: ws)].
Proof.
  intros Hsplit Hlen. unfold split_text_with.
  rewrite Hsplit, (split_fold_single (w :: ws) []) by exact Hlen.
  reflexivity.
Qed.

(** A text with a first word within the limit has a first chunk, which is
    not blank. *)
Lemma split_text_with_first_chunk (text w : string) (ws : list string) :
  split text = w :: ws -> (len w <= limit)%Z ->
  exists chunk rest,
    split_text_with limit text = chunk :: rest /\ is_blank chunk = false.
Proof.
  intros Hsplit Hlen.
  pose proof (split_text_with_first_fits limit text w ws Hsplit Hlen) as Hne.
  pose proof (split_text_with_spoken text) as Hsp.
  pose proof (split_text_with_words limit text) as Hwords.
  destruct (split_text_with limit text) as [|chunk rest].
  - rewrite Hsplit in Hwords. discriminate.
  - exists chunk, rest. split; [reflexivity|].
    apply Forall_cons_iff in Hne as [Hne _].
    apply Forall_cons_iff in Hsp as [[->|Hsp] _]; [congruence | exact Hsp].
Qed.

End SplitterChunks.

Section SynthesizeMore.

Import PollyInvoker.

Variable sv : services.

Lemma item_at_some {A : Type} (i : nat) (l : list A) (a : A) (w : world) :
  l !! i = Some a -> item_at i l w = (Ok a, w).
Proof. intros H. unfold item_at. now rewrite H. Qed.

Lemma item_at_none {A : Type} (i : nat) (l : list A) (w : world) :
  l !! i = None -> item_at i l w = (Raise IndexError, w).
Proof. intros H. unfold item_at. now rewrite H. Qed.

Lemma get_language_eq (reference_key language : string)
    (item : gmap string string) (w : world) :
  get_item_fault sv = None ->
  table w !! reference_key = Some item ->
  item !! "Language" = Some language ->
  get_language_from_dynamodb sv reference_key w = (Ok (lower language), w).
Proof.
  intros Hf Hitem Hlang. unfold get_language_from_dynamodb.
  rewrite try_except_client_reraise, Hf. unfold get_item. mrun.
  now rewrite Hitem, Hlang.
Qed.

Lemma get_language_missing (reference_key : string) (w : world) :
  get_item_fault sv = None ->
  table w !! reference_key = None ->
  get_language_from_dynamodb sv reference_key w = (Raise (KeyError "Item"), w).
Proof.
  intros Hf Hitem. unfold get_language_from_dynamodb.
  rewrite try_except_client_reraise, Hf. unfold get_item. mrun.
  now rewrite Hitem.
Qed.

(** An exception of the [try] block becomes the response 500 and the
    status [failed]. *)
Lemma lambda_handler_fails (bucket key reference_key : string) (e : exn)
    (w w1 : world) :
  split_on "/" key !! 1%nat = Some reference_key ->
  update_item_fault sv = None ->
  handler_try sv bucket key w = (Raise e, w1) ->
  lambda_handler sv (Some (bucket, key)) w
  = (Ok (Response 500 (DumpsStr ("Error processing file: " +:+ str_exn e))),
     (update_item reference_key STATUS_FAILED w1).2).
Proof.
  intros Hkey Hf Htry. unfold lambda_handler. mrun.
  rewrite Htry, Hkey. mrun.
  rewrite update_dynamodb_status_ok by assumption.
  reflexivity.
Qed.

Lemma lambda_handler_ok (bucket key : string) (r : response) (w w1 : world) :
  handler_try sv bucket key w = (Ok r, w1) ->
  lambda_handler sv (Some (bucket, key)) w = (Ok r, w1).
Proof. intros Htry. unfold lambda_handler. mrun. now rewrite Htry. Qed.

(** The first steps of the [try] block: the reference key, the language
    and the text are read and the world is as before. *)
Lemma handler_try_reads (bucket key reference_key language text : string)
    (item : gmap string string) (w : world) :
  split_on "/" key !! 1%nat = Some reference_key ->
  get_item_fault sv = None ->
  s3_fault sv "GetObject" = None ->
  table w !! reference_key = Some item ->
  item !! "Language" = Some language ->
  s3 w !! (bucket, key) = Some text ->
  handler_try sv bucket key w
  = (audio_files ← for_chunks sv bucket reference_key (lower language)
                     (split_text text) 0 [];
     (if (1 <? length audio_files)%nat then
        combined_audio_key ← combine_audio_files sv bucket reference_key
                               audio_files;
        rename_to_audio_mp3 sv bucket combined_audio_key reference_key
      else
        audio_file ← item_at 0 audio_files;
        rename_to_audio_mp3 sv bucket
          ("download/" +:+ reference_key +:+ "/" +:+ audio_file)
          reference_key);;
     update_dynamodb_status sv reference_key STATUS_READY;;
     mret (Response 200 (DumpsStr "Processing completed successfully"))) w.
Proof.
  intros Hkey Hgf Hsf Hitem Hlang Htext. unfold handler_try.
  rewrite bind_eq, (item_at_some _ _ _ _ Hkey).
  rewrite bind_eq, (get_language_eq _ _ _ _ Hgf Hitem Hlang).
  rewrite bind_eq, Hsf. unfold faulty, get_object. now rewrite Htext.
Qed.

Lemma start_polly_task_unsupported (bucket reference_key text language : string)
    (i : nat) (w : world) :
  is_blank text = false ->
  language <> "english" -> language <> "arabic" ->
  start_polly_task sv bucket reference_key text i language w
  = (Raise (ValueError ("Unsupported language: " +:+ language)), w).
Proof.
  intros Hb He Ha. unfold start_polly_task. rewrite Hb.
  rewrite try_except_client_reraise, bind_eq. unfold get_voice_id.
  apply String.eqb_neq in He, Ha. now rewrite He, Ha.
Qed.

(** The request the handler makes for the chunk [0]. *)
Lemma start_polly_task_ok (bucket reference_key text language voice code
    task_id : string) (w : world) :
  is_blank text = false ->
  (language = "english" /\ voice = "Joanna" /\ code = "en-US")
  \/ (language = "arabic" /\ voice = "Zeina" /\ code = "arb") ->
  start_speech_synthesis_task sv
    (TaskRequest bucket ("download/" +:+ reference_key +:+ "/chunk_0_")
       text voice code) (size (tasks w))
  = Returns task_id ->
  start_polly_task sv bucket reference_key text 0 language w
  = (Ok task_id,
     add_event (EvStartTask task_id)
       (set_tasks
          (insert task_id
             (TaskRequest bucket
                ("download/" +:+ reference_key +:+ "/chunk_0_")
                text voice code)) w)).
Proof.
  intros Hb Hlang Hstart. unfold start_polly_task. rewrite Hb.
  rewrite try_except_client_reraise.
  change ("download/" +:+ reference_key +:+ "/chunk_" +:+ pretty 0%nat
            +:+ "_")
    with ("download/" +:+ reference_key +:+ "/chunk_0_").
  mrun. destruct Hlang as [(-> & -> & ->)|(-> & -> & ->)].
  - change (get_voice_id "english" w) with (Ok "Joanna", w). cbv beta iota.
    change (get_language_code "english" w) with (Ok "en-US", w).
    cbv beta iota. now rewrite Hstart.
  - change (get_voice_id "arabic" w) with (Ok "Zeina", w). cbv beta iota.
    change (get_language_code "arabic" w) with (Ok "arb", w).
    cbv beta iota. now rewrite Hstart.
Qed.

(** The key of the audio of the chunk [0] is the key the handler builds
    from the file name, and the file name is the last segment of the
    URI. *)
Lemma chunk_0_output_key (bucket reference_key text voice code
    task_id : string) :
  output_key_of task_id
    (TaskRequest bucket ("download/" +:+ reference_key +:+ "/chunk_0_")
       text voice code)
  = chunk_0_key reference_key task_id.
Proof.
  unfold output_key_of, chunk_0_key, chunk_0_file. cbn [tr_prefix].
  rewrite !append_assoc. reflexivity.
Qed.

Lemma chunk_0_uri_last (bucket reference_key text voice code
    task_id : string) :
  no_char "/" task_id = true ->
  last (split_on "/"
          (output_uri_of task_id
             (TaskRequest bucket
                ("download/" +:+ reference_key +:+ "/chunk_0_")
                text voice code)))
  = Some (chunk_0_file task_id).
Proof.
  intros Hid. unfold output_uri_of. rewrite chunk_0_output_key.
  unfold chunk_0_key. cbn [tr_bucket].
  replace ("https://s3.amazonaws.com/" +:+ bucket +:+ "/"
             +:+ "download/" +:+ reference_key +:+ "/"
             +:+ chunk_0_file task_id)
    with (("https://s3.amazonaws.com/" +:+ bucket +:+ "/download/"
             +:+ reference_key) +:+ String "/" (chunk_0_file task_id))
    by (rewrite !append_assoc; reflexivity).
  apply last_split_on. unfold chunk_0_file.
  rewrite no_char_append. cbn. rewrite no_char_append, Hid. reflexivity.
Qed.

Lemma chunk_0_key_not_destination (reference_key task_id : string) :
  chunk_0_key reference_key task_id <> destination_key reference_key.
Proof.
  unfold chunk_0_key, destination_key, chunk_0_file. intros H.
  cbn in H. injection H as H.
  assert (H' : reference_key +:+ "/chunk_0_." +:+ task_id +:+ ".mp3"
               = reference_key +:+ "/Audio.mp3") by exact H.
  apply String.app_inj in H'. discriminate H'.
Qed.

(** A task seen completed at the first poll gives the file name of its
    audio, which is then in the bucket. *)
Lemma wait_completed_first (task_id file : string) (req : task_request)
    (latency : N) (w : world) :
  tasks w !! task_id = Some req ->
  get_speech_synthesis_task sv task_id (now w)
    = Returns ("completed", latency) ->
  last (split_on "/" (output_uri_of task_id req)) = Some file ->
  wait_for_polly_task sv task_id w
  = (Ok file,
     set_s3 (insert (tr_bucket req, output_key_of task_id req)
               (synthesize sv req))
       (polled task_id latency w)).
Proof.
  intros Hreq Hget Hlast. unfold wait_for_polly_task. mrun.
  unfold wait_fuel. cbn [wait_loop]. mrun.
  destruct (Z.ltb_spec (now w) (now w + WAIT_DEADLINE)) as [_|H];
    [|unfold WAIT_DEADLINE in H; lia].
  rewrite poll_task_eq, Hget, Hreq. cbn [fst snd String.eqb Ascii.eqb].
  now rewrite Hlast.
Qed.

End SynthesizeMore.

(** ** The manifest of a task with several chunks *)

Section Manifest.

Import PollyInvoker.

Variable sv : services.

Lemma combine_writes_manifest (bucket reference_key : string)
    (audio_files : list string) (w : world) :
  s3_fault sv "PutObject" = None ->
  audio_files <> [] ->
  combine_audio_files sv bucket reference_key audio_files w
  = (Ok (combined_key reference_key),
     set_s3 (insert (bucket, combined_key reference_key)
               (join LF audio_files)) w).
Proof.
  intros Hp Hne. destruct audio_files as [|f fs]; [congruence|].
  unfold combine_audio_files. rewrite try_except_client_reraise, Hp.
  unfold put_object. mrun. reflexivity.
Qed.

Lemma combine_refused (bucket reference_key : string)
    (audio_files : list string) (e : exn) (w : world) :
  s3_fault sv "PutObject" = Some e ->
  audio_files <> [] ->
  combine_audio_files sv bucket reference_key audio_files w = (Raise e, w).
Proof.
  intros Hp Hne. destruct audio_files as [|f fs]; [congruence|].
  unfold combine_audio_files. rewrite try_except_client_reraise, Hp.
  mrun. reflexivity.
Qed.

Lemma combined_key_not_destination (reference_key : string) :
  combined_key reference_key <> destination_key reference_key.
Proof.
  unfold combined_key, destination_key. intros H.
  cbn in H. injection H as H.
  assert (H' : reference_key +:+ "/combined_audio_info.txt"
               = reference_key +:+ "/Audio.mp3") by exact H.
  apply String.app_inj in H'. discriminate H'.
Qed.

End Manifest.

(** ** The query and the router: faults and what they leave *)

Section TrackMore.

Import TrackExecution.

Variable sv : services.

(** The scan leaves the world as it is, whatever it returns. *)
Lemma scan_loop_world (username : string) (fuel : nat)
    (remaining items : list (gmap string string)) (w : world) :
  (scan_loop sv fuel username remaining items w).2 = w.
Proof.
  revert remaining items.
  induction fuel as [|fuel IH]; intros remaining items; [reflexivity|].
  cbn [scan_loop]. destruct (scan_fault sv) as [e|]; mrun; [reflexivity|].
  destruct (drop _ remaining); [reflexivity | apply IH].
Qed.

Lemma for_items_world (items : list (gmap string string))
    (requests : list request) (w : world) :
  (for_items items requests w).2 = w.
Proof.
  revert requests. induction items as [|item items IH]; intros requests;
    [reflexivity|].
  cbn [for_items]. rewrite bind_eq. unfold request_of.
  destruct (item !! "reference_key"); mrun; [apply IH | reflexivity].
Qed.

Lemma get_user_requests_world (username : string) (w : world) :
  (get_user_requests sv username w).2 = w.
Proof.
  unfold get_user_requests, try_except_client.
  rewrite try_except_eq, bind_eq. unfold get_world at 1. cbv beta iota.
  rewrite bind_eq.
  pose proof (scan_loop_world username (S (length (table_items w)))
                (table_items w) [] w) as Hs.
  destruct (scan_loop sv _ username (table_items w) [] w)
    as [[items|e|] w1]; cbn [snd] in Hs; subst w1.
  - rewrite bind_eq.
    pose proof (for_items_world items [] w) as Hf.
    destruct (for_items items [] w) as [[requests|e|] w1]; cbn [snd] in Hf;
      subst w1; mrun; [reflexivity | | reflexivity].
    now destruct e.
  - mrun. now destruct e.
  - reflexivity.
Qed.

(** The requests of the items up to the first one without its key. *)
Lemma for_items_missing_key (before after : list (gmap string string))
    (item : gmap string string) (requests : list request) (w : world) :
  Forall (fun item => is_Some (item !! "reference_key")) before ->
  item !! "reference_key" = None ->
  for_items (before ++ item :: after) requests w
  = (Raise (KeyError "reference_key"), w).
Proof.
  intros Hbefore Hitem. revert requests.
  induction Hbefore as [|b before Hb _ IH]; intros requests;
    cbn [app for_items].
  - rewrite bind_eq. unfold request_of. rewrite Hitem. reflexivity.
  - rewrite bind_eq, request_of_eq by assumption. apply IH.
Qed.

End TrackMore.

(** ** The build trigger under any answers of CodeBuild *)

Section BuildTriggerMore.

Import CodebuildInvoker.

Variable sv : services.

Lemma starts_app (l1 l2 : list event) :
  starts (l1 ++ l2) = (starts l1 + starts l2)%nat.
Proof. unfold starts. now rewrite List.filter_app, length_app. Qed.

Lemma retries_app (l1 l2 : list event) :
  retries (l1 ++ l2) = (retries l1 + retries l2)%nat.
Proof. unfold retries. now rewrite List.filter_app, length_app. Qed.

Lemma monitor_events_counts (build_id : string) (evs : list event) :
  Forall (monitor_event build_id) evs -> starts evs = O /\ retries evs = O.
Proof.
  intros H. unfold starts, retries.
  destruct (monitor_events_no_start build_id evs H) as [-> ->]. now split.
Qed.

Ltac fold_snd :=
  match goal with
  | |- context [let (_, y) := ?p in y] =>
      change (let (_, y) := p in y) with (p.2)
  end.

(** Whatever CodeBuild answers and however the monitoring ends, it records
    waits of ten seconds and status requests for its build only. *)
Lemma monitor_build_log (build_id : string) (fuel : nat) (w : world) :
  exists evs,
    log (monitor_build sv fuel build_id w).2 = log w ++ evs
    /\ Forall (monitor_event build_id) evs.
Proof.
  revert w. induction fuel as [|fuel IH]; intros w.
  - exists []. split; [cbn; now rewrite app_nil_r | constructor].
  - cbn [monitor_build]. unfold sleep. mrun.
    cbn [now set_now add_event].
    set (w2 := add_event (EvPollBuild build_id (now w + POLL_SLEEP)%Z) _).
    assert (Hlog2 : log w2 = log w ++ [EvSleep POLL_SLEEP;
                                       EvPollBuild build_id
                                         (now w + POLL_SLEEP)%Z]).
    { subst w2. unfold add_event, set_now. cbn [log].
      now rewrite <- app_assoc. }
    assert (Hall2 : Forall (monitor_event build_id)
                      [EvSleep POLL_SLEEP;
                       EvPollBuild build_id (now w + POLL_SLEEP)%Z])
      by (repeat constructor).
    destruct (batch_get_builds sv build_id (now w + POLL_SLEEP)%Z)
      as [[status|]|e].
    + destruct (negb (String.eqb status "IN_PROGRESS")).
      * eexists. split; [exact Hlog2 | exact Hall2].
      * destruct (IH w2) as (evs & Hlog & Hall).
        exists ([EvSleep POLL_SLEEP;
                 EvPollBuild build_id (now w + POLL_SLEEP)%Z] ++ evs).
        split; [|apply Forall_app; now split].
        change (log (monitor_build sv fuel build_id w2).2
                = log w ++ [EvSleep POLL_SLEEP;
                            EvPollBuild build_id (now w + POLL_SLEEP)%Z]
                    ++ evs).
        rewrite Hlog, Hlog2. now rewrite <- app_assoc.
    + eexists. split; [exact Hlog2 | exact Hall2].
    + destruct e; (eexists; split; [exact Hlog2 | exact Hall2]).
Qed.

(** One round of monitoring whose status request is refused gives a
    failed build. *)
Lemma monitor_build_refused (fuel : nat) (build_id msg : string)
    (w : world) :
  batch_get_builds sv build_id (now w + POLL_SLEEP)%Z
  = Fails (ClientError msg) ->
  monitor_build sv (S fuel) build_id w
  = (Ok false,
     add_event (EvPollBuild build_id (now w + POLL_SLEEP)%Z)
       (add_event (EvSleep POLL_SLEEP)
          (set_now (fun t => t + POLL_SLEEP)%Z w))).
Proof.
  intros Hget. cbn [monitor_build]. unfold sleep. mrun.
  cbn [now set_now add_event]. rewrite Hget. reflexivity.
Qed.

(** One round whose status request names no build. *)
Lemma monitor_build_no_build (fuel : nat) (build_id : string) (w : world) :
  batch_get_builds sv build_id (now w + POLL_SLEEP)%Z = Returns None ->
  monitor_build sv (S fuel) build_id w
  = (Raise IndexError,
     add_event (EvPollBuild build_id (now w + POLL_SLEEP)%Z)
       (add_event (EvSleep POLL_SLEEP)
          (set_now (fun t => t + POLL_SLEEP)%Z w))).
Proof.
  intros Hget. cbn [monitor_build]. unfold sleep. mrun.
  cbn [now set_now add_event]. rewrite Hget. reflexivity.
Qed.

(** The attempts from [attempt] on submit and wait at most once for each
    attempt before the last. *)
Lemma attempt_loop_bound (fuel : nat) (project_name : string)
    (remaining : nat) :
  forall (attempt : Z) (build_id : string) (w : world),
  exists evs,
    log (attempt_loop sv fuel project_name remaining attempt build_id w).2
    = log w ++ evs
    /\ (starts evs <= Z.to_nat (max_attempts - attempt))%nat
    /\ (retries evs <= Z.to_nat (max_attempts - attempt))%nat.
Proof.
  induction remaining as [|remaining IH]; intros attempt build_id w.
  - exists []. cbn. rewrite app_nil_r. repeat split; lia.
  - cbn [attempt_loop]. rewrite bind_eq.
    destruct (monitor_build_log build_id fuel w) as (m & Hm & Hall).
    destruct (monitor_events_counts build_id m Hall) as [Hs Hr].
    destruct (monitor_build sv fuel build_id w) as [[[|]|e|] w1];
      cbn [snd] in Hm.
    + exists m. rewrite Hs, Hr. repeat split; [exact Hm | lia | lia].
    + rewrite bind_eq.
      destruct (Z.ltb_spec attempt max_attempts) as [Hlt|Hge].
      * rewrite bind_eq. unfold sleep. mrun. rewrite submit_build_eq.
        set (w2 := add_event (EvStartBuild project_name) _).
        assert (Hlog2 : log w2 = log w ++ m
                          ++ [EvSleep RETRY_SLEEP; EvStartBuild project_name]).
        { subst w2. cbn [log add_event set_now]. rewrite Hm.
          now rewrite <- !app_assoc. }
        assert (Hcount : forall evs,
                  (starts evs <= Z.to_nat (max_attempts - (attempt + 1)))%nat ->
                  (retries evs <= Z.to_nat (max_attempts - (attempt + 1)))%nat ->
                  (starts (m ++ [EvSleep RETRY_SLEEP;
                                 EvStartBuild project_name] ++ evs)
                   <= Z.to_nat (max_attempts - attempt))%nat
                  /\ (retries (m ++ [EvSleep RETRY_SLEEP;
                                     EvStartBuild project_name] ++ evs)
                      <= Z.to_nat (max_attempts - attempt))%nat).
        { intros evs H1 H2.
          rewrite !starts_app, !retries_app, Hs, Hr.
          change (starts [EvSleep RETRY_SLEEP; EvStartBuild project_name])
            with 1%nat.
          change (retries [EvSleep RETRY_SLEEP; EvStartBuild project_name])
            with 1%nat.
          lia. }
        destruct (start_build sv project_name (submissions _))
          as [build_id'|e].
        -- destruct (IH (attempt + 1)%Z build_id' w2)
             as (evs & Hlog & H1 & H2).
           exists (m ++ [EvSleep RETRY_SLEEP; EvStartBuild project_name]
                     ++ evs).
           split; [|now apply Hcount].
           fold_snd. rewrite Hlog, Hlog2. now rewrite <- !app_assoc.
        -- assert (Hraise :
                     exists evs,
                       log w2 = log w ++ evs
                       /\ (starts evs <= Z.to_nat (max_attempts - attempt))%nat
                       /\ (retries evs
                           <= Z.to_nat (max_attempts - attempt))%nat).
           { exists (m ++ [EvSleep RETRY_SLEEP;
                           EvStartBuild project_name] ++ []).
             split; [|apply Hcount; cbn; lia].
             rewrite Hlog2, app_nil_r. reflexivity. }
           destruct e; try exact Hraise.
           destruct (IH (attempt + 1)%Z build_id w2)
             as (evs & Hlog & H1 & H2).
           exists (m ++ [EvSleep RETRY_SLEEP; EvStartBuild project_name]
                     ++ evs).
           split; [|now apply Hcount].
           fold_snd. rewrite Hlog, Hlog2. now rewrite <- !app_assoc.
      * mrun.
        destruct (IH (attempt + 1)%Z build_id w1) as (evs & Hlog & H1 & H2).
        exists (m ++ evs). rewrite starts_app, retries_app, Hs, Hr.
        split; [|split; lia].
        fold_snd. rewrite Hlog, Hm. now rewrite <- app_assoc.
    + exists m. rewrite Hs, Hr. repeat split; [exact Hm | lia | lia].
    + exists m. rewrite Hs, Hr. repeat split; [exact Hm | lia | lia].
Qed.

(** An attempt on a build that fails, followed by a resubmission that is
    refused: the next attempt monitors the same build. *)
Lemma failed_attempt_refused (project_name build_id msg : string)
    (remaining : nat) (attempt : Z) (w : world) :
  build_fails sv build_id ->
  (attempt < max_attempts)%Z ->
  start_build sv project_name (submissions w) = Fails (ClientError msg) ->
  exists (n : nat) (w' : world) (evs : list event),
    (forall fuel, (n < fuel)%nat ->
       attempt_loop sv fuel project_name (S remaining) attempt build_id w
       = attempt_loop sv fuel project_name remaining (attempt + 1)%Z
           build_id w')
    /\ log w' = log w ++ evs ++ [EvSleep RETRY_SLEEP; EvStartBuild project_name]
    /\ Forall (monitor_event build_id) evs.
Proof.
  intros (finish & final & Hip & Hs & Hends) Hlt Hstart.
  destruct (monitor_build_result sv build_id final finish w)
    as (n & w1 & evs & Hrun & Hlog & Hall); [assumption | assumption |].
  apply String.eqb_neq in Hs.
  exists n. eexists. exists evs. split; [|split; [|exact Hall]].
  - intros fuel Hf. cbn [attempt_loop].
    rewrite bind_eq, (Hrun fuel Hf), Hs.
    destruct (Z.ltb_spec attempt max_attempts) as [_|]; [|lia].
    rewrite bind_eq. unfold sleep. mrun. rewrite submit_build_eq.
    replace (submissions _) with (submissions w).
    + rewrite Hstart. reflexivity.
    + unfold submissions. cbn [log add_event set_now].
      rewrite Hlog, !List.filter_app.
      destruct (monitor_events_no_start build_id evs Hall) as [-> _].
      cbn. now rewrite !app_nil_r.
  - cbn [log add_event set_now]. rewrite Hlog. now rewrite <- !app_assoc.
Qed.

End BuildTriggerMore.

(** ** What a stage leaves untouched *)

Lemma changes_only_refl (object : option (string * string))
    (item : option string) (w : world) :
  changes_only object item w w.
Proof. repeat split. Qed.

Lemma changes_only_trans (object : option (string * string))
    (item : option string) (w1 w2 w3 : world) :
  changes_only object item w1 w2 -> changes_only object item w2 w3 ->
  changes_only object item w1 w3.
Proof.
  intros (Hn & Hl & Ht & Hs & Hi) (Hn' & Hl' & Ht' & Hs' & Hi').
  repeat split; try congruence.
  - intros k Hk. rewrite Hs', Hs by assumption. reflexivity.
  - intros k Hk. rewrite Hi', Hi by assumption. reflexivity.
Qed.

Lemma changes_only_update_item (object : option (string * string))
    (reference_key status : string) (w : world) :
  changes_only object (Some reference_key) w
    (update_item reference_key status w).2.
Proof.
  repeat split. intros k Hk. cbn.
  apply lookup_insert_ne. congruence.
Qed.

Lemma changes_only_put_object (item : option string)
    (bucket key body : string) (w : world) :
  changes_only (Some (bucket, key)) item w (put_object bucket key body w).2.
Proof.
  repeat split. intros k Hk. cbn.
  apply lookup_insert_ne. congruence.
Qed.

Section ExtractFrame.

Import ImageConverter.

Variable sv : services.

Lemma changes_only_update_dynamodb (object : option (string * string))
    (reference_key status : string) (w : world) :
  changes_only object (Some reference_key) w
    (update_dynamodb sv reference_key status w).2.
Proof.
  destruct (update_item_fault sv) as [e|] eqn:Hf.
  - rewrite (update_dynamodb_fault sv _ _ _ e) by assumption.
    apply changes_only_refl.
  - rewrite update_dynamodb_ok by assumption.
    apply changes_only_update_item.
Qed.

Lemma changes_only_handler_try (event : option sns_message) (w : world) :
  changes_only (artifact_of event) (bound_reference_key event) w
    (handler_try sv event w).2.
Proof.
  unfold handler_try.
  destruct event as [[[reference_key|] [bucket|]]|]; mrun;
    try apply changes_only_refl.
  - destruct (paginate_fault sv) as [e|]; [apply changes_only_refl|].
    change (artifact_of _) with (Some (bucket, output_key reference_key)).
    change (bound_reference_key _) with (Some reference_key).
    destruct (list_keys bucket (images_prefix reference_key) w)
      as [|k ks].
    + pose proof (changes_only_update_dynamodb
                    (Some (bucket, output_key reference_key))
                    reference_key STATUS_NO_IMAGES w) as H.
      destruct (update_dynamodb sv reference_key STATUS_NO_IMAGES w)
        as [[[]|e|] w1]; exact H.
    + rewrite for_images_eq.
      destruct (put_object_fault sv) as [e|]; [apply changes_only_refl|].
      set (text := fold_left _ _ _).
      pose proof (changes_only_put_object (Some reference_key) bucket
                    (output_key reference_key) text w) as Hput.
      unfold put_object in *. mrun. mrun in Hput.
      set (w1 := set_s3 _ w) in *.
      pose proof (changes_only_update_dynamodb
                    (Some (bucket, output_key reference_key))
                    reference_key STATUS_COMPLETED w1) as H.
      destruct (update_dynamodb sv reference_key STATUS_COMPLETED w1)
        as [[[]|e|] w2];
        exact (changes_only_trans _ _ _ _ _ Hput H).
Qed.

Lemma changes_only_lambda_handler (event : option sns_message) (w : world) :
  changes_only (artifact_of event) (bound_reference_key event) w
    (lambda_handler sv event w).2.
Proof.
  unfold lambda_handler. rewrite try_except_eq.
  pose proof (changes_only_handler_try event w) as H.
  destruct (handler_try sv event w) as [[r|e|] w1]; cbn [snd] in H;
    try exact H.
  destruct (bound_reference_key event) as [reference_key|] eqn:Hb;
    [|exact H].
  rewrite bind_eq.
  pose proof (changes_only_update_dynamodb (artifact_of event)
                reference_key STATUS_FAILED w1) as H'.
  destruct (update_dynamodb sv reference_key STATUS_FAILED w1)
    as [[[]|e'|] w2];
    exact (changes_only_trans _ _ _ _ _ H H').
Qed.

End ExtractFrame.

(** ** The upload and the record it creates *)

Section NewItem.

Import UploadExecution.

Variables reference_key file_name language start_page end_page : string.
Variables s3_path upload_date_time username expires_at : string.

Let item : gmap string string :=
  new_item reference_key file_name language start_page end_page s3_path
    upload_date_time username expires_at.

Lemma new_item_reference_key : item !! "reference_key" = Some reference_key.
Proof. reflexivity. Qed.

Lemma new_item_FileName : item !! "FileName" = Some file_name.
Proof. reflexivity. Qed.

Lemma new_item_TaskStatus : item !! "TaskStatus" = Some INITIAL_STATUS.
Proof. reflexivity. Qed.

Lemma new_item_Username : item !! "Username" = Some username.
Proof. reflexivity. Qed.

Lemma new_item_S3Path : item !! "S3Path" = Some s3_path.
Proof. reflexivity. Qed.

Lemma new_item_Language : item !! "Language" = Some language.
Proof. reflexivity. Qed.

Lemma new_item_request :
  TrackExecution.to_request item
  = Request reference_key file_name TrackExecution.IN_PROGRESS.
Proof. reflexivity. Qed.

Lemma new_item_is_user : TrackExecution.is_user username item = true.
Proof.
  unfold TrackExecution.is_user. rewrite new_item_Username.
  apply String.eqb_refl.
Qed.

End NewItem.

(** The items of the table after an item was put. *)
Lemma table_items_put (P : gmap string string -> Prop)
    (reference_key : string) (item : gmap string string) (w : world) :
  Forall P (TrackExecution.table_items w) -> P item ->
  Forall P (TrackExecution.table_items
              (set_table (insert reference_key item) w)).
Proof.
  intros Hall Hitem. apply List.Forall_forall. intros x Hin.
  unfold TrackExecution.table_items in *.
  apply in_map_iff in Hin as ([k v] & <- & Hin). cbn [snd].
  apply list_elem_of_In, elem_of_map_to_list in Hin. cbn [table set_table] in Hin.
  apply lookup_insert_Some in Hin as [[_ <-]|[_ Hin]]; [exact Hitem|].
  rewrite List.Forall_forall in Hall. apply Hall.
  apply in_map_iff. exists (k, v). split; [reflexivity|].
  now apply list_elem_of_In, elem_of_map_to_list.
Qed.

Lemma table_items_put_in (reference_key : string)
    (item : gmap string string) (w : world) :
  In item (TrackExecution.table_items
             (set_table (insert reference_key item) w)).
Proof.
  unfold TrackExecution.table_items. apply in_map_iff.
  exists (reference_key, item). split; [reflexivity|].
  apply list_elem_of_In, elem_of_map_to_list. cbn [table set_table].
  apply lookup_insert_eq.
Qed.

Section Upload.

Import UploadExecution.

Variable sv : services.

(** The upload with all its fields, a content that decodes and services
    that answer. *)
Lemma upload_stores (file_name language start_page end_page content64
    username content : string) (w : world) :
  b64decode sv content64 = Returns content ->
  put_object_fault sv = None ->
  put_item_fault sv = None ->
  lambda_handler sv
    (UploadEvent (Some file_name) (Some language) (Some start_page)
       (Some end_page) (Some content64) (Some username)) w
  = (Ok (Response 200
           (DumpsObj [("message", SUBMITTED);
                      ("reference_key", uuid4 sv)])),
     set_table
       (insert (uuid4 sv)
          (new_item (uuid4 sv) file_name language start_page end_page
             ("s3://" +:+ S3_BUCKET sv +:+ "/"
                +:+ upload_key (uuid4 sv) file_name)
             (isoformat sv (now w)) username
             (pretty (Z.quot (now w + WEEK * 1000) 1000))))
       (set_s3
          (insert (S3_BUCKET sv, upload_key (uuid4 sv) file_name) content)
          w)).
Proof.
  intros Hdecode Hput Hitem. unfold lambda_handler.
  cbn [ev_fileName ev_language ev_startPage ev_endPage ev_fileContent
       ev_username].
  mrun. rewrite Hdecode, Hput. unfold put_object, put_item. mrun.
  rewrite Hitem. reflexivity.
Qed.

(** No exception leaves the handler. *)
Lemma upload_returns (event : upload_event) (w : world) :
  exists r w',
    lambda_handler sv event w = (Ok r, w')
    /\ (statusCode r = 200 \/ statusCode r = 500)%Z.
Proof.
  unfold lambda_handler. rewrite try_except_eq.
  match goal with
  | |- context [match ?m w with _ => _ end] =>
      destruct (m w) as [[r|e|] w1] eqn:E
  end.
  - exists r, w1. split; [reflexivity|].
    revert E. mrun.
    destruct event as [[f|] [l|] [s|] [e|] [c|] [u|]];
      cbn [ev_fileName ev_language ev_startPage ev_endPage ev_fileContent
           ev_username]; try discriminate.
    destruct (b64decode sv c); [|discriminate].
    destruct (put_object_fault sv); [discriminate|].
    unfold put_object, put_item. mrun.
    destruct (put_item_fault sv); [discriminate|].
    intros [= <- _]. now left.
  - eexists. eexists. split; [reflexivity|]. now right.
  - exfalso. revert E. mrun.
    destruct event as [[f|] [l|] [s|] [e|] [c|] [u|]];
      cbn [ev_fileName ev_language ev_startPage ev_endPage ev_fileContent
           ev_username]; try discriminate.
    destruct (b64decode sv c); [|discriminate].
    destruct (put_object_fault sv); [discriminate|].
    unfold put_object, put_item. mrun.
    destruct (put_item_fault sv); discriminate.
Qed.

End Upload.

(** ** The rasterize stage *)

Lemma prefix_append (a b : string) : String.prefix a (a +:+ b) = true.
Proof.
  induction a as [|c a IH]; cbn; [now destruct b|].
  destruct (ascii_dec c c); [exact IH | congruence].
Qed.

(** The keys listed under a prefix are the keys of the objects of the
    bucket that start with it. *)
Lemma list_keys_in (bucket prefix key : string) (w : world) :
  In key (list_keys bucket prefix w)
  <-> is_Some (s3 w !! (bucket, key)) /\ String.prefix prefix key = true.
Proof.
  unfold list_keys. rewrite in_map_iff. split.
  - intros ([[b k] body] & Hk & Hin). cbn in Hk. subst k.
    apply filter_In in Hin as [Hin Hp].
    apply list_elem_of_In, elem_of_map_to_list in Hin.
    unfold has_prefix in Hp. cbn [fst snd] in Hp.
    apply andb_prop in Hp as [Hb Hp]. apply String.eqb_eq in Hb. subst b.
    split; [eauto | exact Hp].
  - intros [[body Hbody] Hp]. exists ((bucket, key), body).
    split; [reflexivity|]. apply filter_In. split.
    + now apply list_elem_of_In, elem_of_map_to_list.
    + unfold has_prefix. cbn [fst snd]. now rewrite String.eqb_refl, Hp.
Qed.

Lemma image_key_prefix (reference_key : string) (i start_page : Z) :
  String.prefix (ImageConverter.images_prefix reference_key)
    (CodebuildArtifacts.image_key reference_key i start_page) = true.
Proof.
  unfold ImageConverter.images_prefix, CodebuildArtifacts.image_key.
  replace ("images/" +:+ reference_key +:+ "/page_"
             +:+ pretty (i + start_page)%Z +:+ ".png")
    with (("images/" +:+ reference_key +:+ "/")
            +:+ ("page_" +:+ pretty (i + start_page)%Z +:+ ".png")).
  - apply prefix_append.
  - now rewrite !append_assoc.
Qed.

(** Reading the attributes of the new image. *)
Ltac read_image :=
  mrun;
  cbn [CodebuildArtifacts.img_reference_key CodebuildArtifacts.img_S3Path
       CodebuildArtifacts.img_StartPage CodebuildArtifacts.img_EndPage
       CodebuildArtifacts.string_of];
  mrun.

(** A branch in which the [try] block raises before the loop: the replies
    known so far are put in. *)
Ltac use_reply :=
  match goal with
  | H : CodebuildArtifacts.int_of _ _ = _ |- _ => rewrite H
  | H : CodebuildArtifacts.parse_s3_path _ _ = _ |- _ => rewrite H
  | H : CodebuildArtifacts.download_fault _ = _ |- _ => rewrite H
  | H : s3 _ !! _ = _ |- _ => rewrite H
  | H : CodebuildArtifacts.convert_from_path _ _ _ _ = _ |- _ => rewrite H
  | |- _ => progress unfold get_object
  end.

Ltac raises_here :=
  left; unfold CodebuildArtifacts.handler_try; read_image;
  repeat (use_reply; read_image); eexists; reflexivity.

Section Rasterize.

Import CodebuildArtifacts.

Variable sv : services.

Lemma update_dynamodb_status_eq (reference_key status : string) (w : world) :
  update_dynamodb_status sv reference_key status w
  = (Ok tt,
     match update_item_fault sv with
     | Some _ => w
     | None => (update_item reference_key status w).2
     end).
Proof.
  unfold update_dynamodb_status. rewrite try_except_eq.
  destruct (update_item_fault sv); reflexivity.
Qed.

(** An image is stored under its key, or skipped. *)
Lemma upload_image_eq (bucket reference_key : string) (start_page i : Z)
    (image : string) (uploaded : list string) (w : world) :
  upload_image sv bucket reference_key start_page i image uploaded w
  = match save_png sv image,
          put_object_fault sv (image_key reference_key i start_page) with
    | Returns png, None =>
        (Ok (uploaded ++ [image_key reference_key i start_page]),
         set_s3 (insert (bucket, image_key reference_key i start_page) png)
           w)
    | _, _ => (Ok uploaded, w)
    end.
Proof.
  unfold upload_image. rewrite try_except_eq. mrun.
  destruct (save_png sv image) as [png|e]; [|reflexivity].
  destruct (put_object_fault sv _); reflexivity.
Qed.

Lemma for_images_keeps (bucket reference_key : string) (start_page : Z)
    (images : list string) :
  forall (i : Z) (uploaded : list string) (w : world),
    loop_keeps bucket reference_key start_page uploaded w
      (for_images sv bucket reference_key start_page images i uploaded w).
Proof.
  induction images as [|image images IH]; intros i uploaded w;
    cbn [for_images].
  - exists []. rewrite app_nil_r. repeat split; auto.
  - rewrite bind_eq, upload_image_eq.
    destruct (save_png sv image) as [png|e]; [|apply IH].
    destruct (put_object_fault sv _); [apply IH|].
    set (key := image_key reference_key i start_page).
    set (w1 := set_s3 _ w).
    destruct (IH (i + 1)%Z (uploaded ++ [key]) w1)
      as (new & Hr & Ht & Hn & Hl & Hk & Hmono & Hframe & Hall).
    exists (key :: new).
    split; [rewrite Hr; now rewrite <- app_assoc|].
    repeat split; try assumption.
    + intros k Hsome. apply Hmono. subst w1. cbn [s3 set_s3].
      destruct (decide (k = (bucket, key))) as [->|Hne].
      * rewrite lookup_insert_eq. eauto.
      * now rewrite lookup_insert_ne by congruence.
    + intros k Hk'. rewrite Hframe by assumption. subst w1. cbn [s3 set_s3].
      apply lookup_insert_ne. intros <-. now apply (Hk' i).
    + constructor; [|exact Hall]. split; [now exists i|].
      apply Hmono. subst w1. cbn [s3 set_s3]. rewrite lookup_insert_eq. eauto.
Qed.

(** When no image can be stored the loop changes nothing. *)
Lemma for_images_none (bucket reference_key : string) (start_page : Z)
    (images : list string) :
  (forall key, put_object_fault sv key <> None) ->
  forall (i : Z) (uploaded : list string) (w : world),
    for_images sv bucket reference_key start_page images i uploaded w
    = (Ok uploaded, w).
Proof.
  intros Hput. induction images as [|image images IH]; intros i uploaded w;
    cbn [for_images]; [reflexivity|].
  rewrite bind_eq, upload_image_eq.
  destruct (save_png sv image) as [png|e]; [|apply IH].
  specialize (Hput (image_key reference_key i start_page)).
  destruct (put_object_fault sv _); [apply IH | congruence].
Qed.

(** When every image can be stored the loop adds the keys of the pages in
    their order. *)
Lemma for_images_all (bucket reference_key : string) (start_page : Z)
    (images : list string) :
  (forall image, In image images -> exists png, save_png sv image = Returns png) ->
  (forall key, put_object_fault sv key = None) ->
  forall (i : Z) (uploaded : list string) (w : world),
    (for_images sv bucket reference_key start_page images i uploaded w).1
    = Ok (uploaded ++ page_keys reference_key start_page i (length images)).
Proof.
  intros Hsave Hput. induction images as [|image images IH];
    intros i uploaded w; cbn [for_images].
  - cbn. now rewrite app_nil_r.
  - rewrite bind_eq, upload_image_eq.
    destruct (Hsave image (or_introl eq_refl)) as [png ->].
    rewrite Hput, IH by (intros; apply Hsave; now right).
    rewrite <- app_assoc. f_equal. f_equal.
    unfold page_keys. cbn [length seq map app].
    rewrite Z.add_0_r. f_equal.
    rewrite <- seq_shift, map_map. apply map_ext. intros j.
    f_equal. lia.
Qed.

(** The world after the status of a task was written, or not when the
    table refuses. *)
Lemma status_written (reference_key status : string) (w : world) :
  update_item_fault sv = None ->
  update_dynamodb_status sv reference_key status w
  = (Ok tt, (update_item reference_key status w).2).
Proof. intros H. now rewrite update_dynamodb_status_eq, H. Qed.

(** The [try] block on an event that can be read, with the file in the
    bucket and a PDF that converts: what is left is the loop, the status
    and the notification. *)
Lemma handler_try_converted (reference_key s3_path start end_ bucket key
    pdf : string) (start_page end_page : Z) (images : list string)
    (w : world) :
  parse_s3_path sv s3_path = (bucket, key) ->
  int_of sv start = Returns start_page ->
  int_of sv end_ = Returns end_page ->
  download_fault sv = None ->
  s3 w !! (bucket, key) = Some pdf ->
  convert_from_path sv pdf start_page end_page = Returns images ->
  handler_try sv
    (Image (NewImage (S_ reference_key) (S_ s3_path) (S_ start) (S_ end_))) w
  = (uploaded_images ←
       for_images sv bucket reference_key start_page images 0 [];
     update_dynamodb_status sv reference_key STATUS_COMPLETED;;
     published ← try_except
       (faulty (publish_fault sv)
          (mret (Some (Notification (topic_arn sv) reference_key bucket
                         uploaded_images))))
       (fun _ => mret None);
     mret (Processed reference_key (length images) uploaded_images,
           published)) w.
Proof.
  intros Hparse Hstart Hend Hdown Hpdf Hconv. unfold handler_try.
  read_image. rewrite Hstart. read_image. rewrite Hend. read_image.
  rewrite Hparse, Hdown. unfold get_object. read_image.
  rewrite Hpdf. read_image. rewrite Hconv. reflexivity.
Qed.

(** With the reference key read, the [try] block raises and leaves the
    world as it was, or it gives the answer 200 after the loop. *)
Lemma handler_try_outcome (event : stream_event) (reference_key : string)
    (w : world) :
  bound_reference_key event = Some reference_key ->
  (exists e, handler_try sv event w = (Raise e, w))
  \/ (exists (bucket : string) (start_page : Z) (images uploaded : list string)
             (published : option notification) (w1 : world),
        handler_try sv event w
        = (Ok (Processed reference_key (length images) uploaded, published),
           (update_dynamodb_status sv reference_key STATUS_COMPLETED w1).2)
        /\ loop_keeps bucket reference_key start_page [] w
             (Ok uploaded, w1)
        /\ (published = None
            \/ published = Some (Notification (topic_arn sv) reference_key
                                   bucket uploaded))).
Proof.
  intros Hbound.
  destruct event as [| e |[[| |rk] a_path a_start a_end]];
    try discriminate Hbound.
  injection Hbound as ->.
  destruct a_path as [| |s3_path]; [raises_here ..|].
  destruct a_start as [| |start]; [raises_here ..|].
  destruct (int_of sv start) as [start_page|e] eqn:Hstart; [|raises_here].
  destruct a_end as [| |end_]; [raises_here ..|].
  destruct (int_of sv end_) as [end_page|e] eqn:Hend; [|raises_here].
  destruct (parse_s3_path sv s3_path) as [bucket key] eqn:Hparse.
  destruct (download_fault sv) as [e|] eqn:Hdown; [raises_here|].
  destruct (s3 w !! (bucket, key)) as [pdf|] eqn:Hpdf; [|raises_here].
  destruct (convert_from_path sv pdf start_page end_page) as [images|e]
    eqn:Hconv; [|raises_here].
  right.
  rewrite (handler_try_converted reference_key s3_path start end_ bucket key
             pdf start_page end_page images w) by assumption.
  pose proof (for_images_keeps bucket reference_key start_page images 0
                [] w) as Hloop.
  destruct (for_images sv bucket reference_key start_page images 0 [] w)
    as [r w1] eqn:Hrun.
  destruct Hloop as (new & Hr & Hrest). cbn [fst app] in Hr. subst r.
  exists bucket, start_page, images, new.
  rewrite bind_eq, Hrun. cbv beta iota. rewrite bind_eq.
  rewrite update_dynamodb_status_eq. cbv beta iota.
  destruct (publish_fault sv) as [e|].
  - exists None, w1. split; [|split; [|now left]].
    + rewrite update_dynamodb_status_eq. mrun. reflexivity.
    + exists new. split; [reflexivity | exact Hrest].
  - eexists. exists w1. split; [|split; [|now right]].
    + rewrite update_dynamodb_status_eq. mrun. reflexivity.
    + exists new. split; [reflexivity | exact Hrest].
Qed.

End Rasterize.

(** * The stage-handoff properties *)

(** ** Extract-text stage: status and artifact *)

(** C1, as the handler behaves.  With at least one page image listed and
    the services answering, the extract-text stage stores the text artifact
    and writes its success status however many pages fail extraction; when
    every page fails the artifact is empty and the status is still the
    success status. *)
Theorem extract_status_with_images (sv : ImageConverter.services)
    (reference_key bucket : string) (w : world) :
  ImageConverter.paginate_fault sv = None ->
  ImageConverter.put_object_fault sv = None ->
  ImageConverter.update_item_fault sv = None ->
  list_keys bucket (ImageConverter.images_prefix reference_key) w <> [] ->
  exists w',
    ImageConverter.lambda_handler sv
      (Some (ImageConverter.SnsMessage (Some reference_key) (Some bucket))) w
    = (Ok (Response 200
             (DumpsStr "Images processed and text generated successfully!")),
       w')
    /\ TaskStatus_of reference_key w' = Some ImageConverter.STATUS_COMPLETED
    /\ s3 w' !! (bucket, ImageConverter.output_key reference_key)
       = Some (ImageConverter.artifact_text sv w bucket
                 (sorted (list_keys bucket
                            (ImageConverter.images_prefix reference_key) w)))
    /\ (Forall (fun k => ImageConverter.page_text sv w bucket k = None)
          (sorted (list_keys bucket
                     (ImageConverter.images_prefix reference_key) w)) ->
        s3 w' !! (bucket, ImageConverter.output_key reference_key) = Some "").
Proof.
  intros Hl Hp Hu Hne. eexists. split; [|split; [|split]].
  - now apply handler_completes.
  - apply TaskStatus_of_update.
  - unfold ImageConverter.stored. rewrite s3_update_item.
    apply lookup_insert_eq.
  - intros Hall. unfold ImageConverter.stored. rewrite s3_update_item.
    rewrite artifact_text_all_fail by assumption.
    apply lookup_insert_eq.
Qed.

Lemma extract_status_with_images_witness :
  list_keys "docs" (ImageConverter.images_prefix "task") Scenario.five_pages
    <> []
  /\ TaskStatus_of "task"
       (ImageConverter.lambda_handler Scenario.bedrock_fails_page_3
          Scenario.notification Scenario.five_pages).2
     = Some ImageConverter.STATUS_COMPLETED.
Proof.
  assert (H : list_keys "docs" (ImageConverter.images_prefix "task")
                Scenario.five_pages <> [])
    by (vm_compute; discriminate).
  split; [exact H|].
  destruct (extract_status_with_images Scenario.bedrock_fails_page_3
              "task" "docs" Scenario.five_pages
              eq_refl eq_refl eq_refl H) as (w' & E & St & _).
  unfold Scenario.notification. rewrite E. exact St.
Defined.

(** C1, the claim on the handler: five page images are listed, Bedrock
    fails on each of them, and the stage stores an empty artifact, returns
    200 and writes its success status, not its failure status. *)
Lemma extract_all_pages_fail_writes_success :
  sorted (list_keys "docs" (ImageConverter.images_prefix "task")
            Scenario.five_pages)
  = ["images/task/page_1.png"; "images/task/page_2.png";
     "images/task/page_3.png"; "images/task/page_4.png";
     "images/task/page_5.png"]
  /\ Forall (fun k => ImageConverter.page_text Scenario.bedrock_down
                        Scenario.five_pages "docs" k = None)
       ["images/task/page_1.png"; "images/task/page_2.png";
        "images/task/page_3.png"; "images/task/page_4.png";
        "images/task/page_5.png"]
  /\ TaskStatus_of "task"
       (ImageConverter.lambda_handler Scenario.bedrock_down
          Scenario.notification Scenario.five_pages).2
     = Some ImageConverter.STATUS_COMPLETED
  /\ TaskStatus_of "task"
       (ImageConverter.lambda_handler Scenario.bedrock_down
          Scenario.notification Scenario.five_pages).2
     <> Some ImageConverter.STATUS_FAILED.
Proof.
  split; [|split; [|split]].
  - vm_compute. reflexivity.
  - repeat constructor; vm_compute; reflexivity.
  - vm_compute. reflexivity.
  - vm_compute. discriminate.
Qed.

(** Page 3 of 5 fails: the artifact holds pages 1, 2, 4 and 5 in that
    order and the status is the success status. *)
Example extract_skips_failed_page :
  let r := ImageConverter.lambda_handler Scenario.bedrock_fails_page_3
             Scenario.notification Scenario.five_pages in
  s3 r.2 !! ("docs", ImageConverter.output_key "task")
    = Some (Scenario.text_of_pages ["p1"; "p2"; "p4"; "p5"])
  /\ TaskStatus_of "task" r.2 = Some ImageConverter.STATUS_COMPLETED.
Proof. vm_compute. split; reflexivity. Qed.

(** C2, the handler on the images of pages 2 to 10 as the rasterize stage
    names them: the keys are sorted as strings, the text of page 10 comes
    first and the text of page 2 after it. *)
Theorem extract_orders_pages_by_key_string :
  map (fun i => CodebuildArtifacts.image_key "task" i 2) [0; 8]%Z
    = ["images/task/page_2.png"; "images/task/page_10.png"]
  /\ sorted (list_keys "docs" (ImageConverter.images_prefix "task")
               Scenario.pages_2_to_10)
     = ["images/task/page_10.png"; "images/task/page_2.png";
        "images/task/page_3.png"; "images/task/page_4.png";
        "images/task/page_5.png"; "images/task/page_6.png";
        "images/task/page_7.png"; "images/task/page_8.png";
        "images/task/page_9.png"]
  /\ s3 (ImageConverter.lambda_handler Scenario.bedrock_reads
           Scenario.notification Scenario.pages_2_to_10).2
       !! ("docs", ImageConverter.output_key "task")
     = Some (Scenario.text_of_pages
               ["p10"; "p2"; "p3"; "p4"; "p5"; "p6"; "p7"; "p8"; "p9"]).
Proof. vm_compute. repeat split. Qed.

(** ** Extract-text stage: the predecessor status *)

(** C3, as the handler behaves.  The extract-text stage does not read the
    task status.  For a task whose status is still the initial one it runs
    as for any other: with page images listed it stores the text artifact,
    returns 200 and writes its success status; with none listed it returns
    200 and writes the status of a failed rasterization; and whatever the
    task table holds instead, the result of the handler and the bucket it
    leaves are the same. *)
Theorem extract_runs_on_initial_status (sv : ImageConverter.services)
    (reference_key bucket : string) (w : world) :
  TaskStatus_of reference_key w = Some UploadExecution.INITIAL_STATUS ->
  ImageConverter.paginate_fault sv = None ->
  ImageConverter.put_object_fault sv = None ->
  ImageConverter.update_item_fault sv = None ->
  let keys := list_keys bucket (ImageConverter.images_prefix reference_key) w in
  let r := ImageConverter.lambda_handler sv
             (Some (ImageConverter.SnsMessage (Some reference_key)
                      (Some bucket))) w in
  (keys <> [] ->
   r.1 = Ok (Response 200
               (DumpsStr "Images processed and text generated successfully!"))
   /\ TaskStatus_of reference_key r.2 = Some ImageConverter.STATUS_COMPLETED
   /\ s3 r.2 !! (bucket, ImageConverter.output_key reference_key)
      = Some (ImageConverter.artifact_text sv w bucket (sorted keys)))
  /\ (keys = [] ->
      r.1 = Ok (Response 200 (DumpsStr "No images found to process"))
      /\ TaskStatus_of reference_key r.2
         = Some ImageConverter.STATUS_NO_IMAGES)
  /\ (forall (event : option ImageConverter.sns_message)
             (other : gmap string (gmap string string)),
        (ImageConverter.lambda_handler sv event
           (set_table (fun _ => other) w)).1
        = (ImageConverter.lambda_handler sv event w).1
        /\ s3 (ImageConverter.lambda_handler sv event
                 (set_table (fun _ => other) w)).2
           = s3 (ImageConverter.lambda_handler sv event w).2).
Proof.
  intros _ Hl Hp Hu keys r. subst keys r. split; [|split].
  - intros Hk. rewrite handler_completes by assumption. cbn [fst snd].
    split; [reflexivity|]. split; [apply TaskStatus_of_update|].
    unfold ImageConverter.stored. rewrite s3_update_item.
    apply lookup_insert_eq.
  - intros Hk. rewrite handler_no_images by assumption. cbn [fst snd].
    split; [reflexivity | apply TaskStatus_of_update].
  - intros event other.
    destruct (blind_lambda_handler sv event _ _ (same_but_table_set other w))
      as [Hr [Hs _]].
    now split.
Qed.

Lemma extract_runs_on_initial_status_witness :
  TaskStatus_of "task" Scenario.just_uploaded
    = Some UploadExecution.INITIAL_STATUS
  /\ TaskStatus_of "task"
       (ImageConverter.lambda_handler Scenario.bedrock_reads
          Scenario.notification Scenario.just_uploaded).2
     = Some ImageConverter.STATUS_COMPLETED.
Proof.
  split; [reflexivity|].
  refine (proj1 (proj2 (proj1
    (extract_runs_on_initial_status Scenario.bedrock_reads "task" "docs"
       Scenario.just_uploaded eq_refl eq_refl eq_refl eq_refl) _))).
  vm_compute. discriminate.
Defined.

(** C3, the claim on the handler: the task is in its initial status, the
    rasterize stage has not written its success status, and the invocation
    is processed: the artifact is stored, the response is 200 and the
    status becomes the success status of the stage. *)
Lemma extract_not_rejected_on_initial_status :
  TaskStatus_of "task" Scenario.just_uploaded
    = Some UploadExecution.INITIAL_STATUS
  /\ (ImageConverter.lambda_handler Scenario.bedrock_reads
        Scenario.notification Scenario.just_uploaded).1
     = Ok (Response 200
             (DumpsStr "Images processed and text generated successfully!"))
  /\ s3 (ImageConverter.lambda_handler Scenario.bedrock_reads
           Scenario.notification Scenario.just_uploaded).2
       !! ("docs", ImageConverter.output_key "task")
     = Some (Scenario.text_of_pages ["p2"])
  /\ TaskStatus_of "task"
       (ImageConverter.lambda_handler Scenario.bedrock_reads
          Scenario.notification Scenario.just_uploaded).2
     = Some ImageConverter.STATUS_COMPLETED.
Proof. vm_compute. repeat split. Qed.

(** ** The chunk splitter *)

(** C4, [split_text] on a text that is one word of 190001 characters, one
    more than [MAX_CHARS]: the chunk that is still empty is closed first,
    so the result starts with the empty string, a chunk
    [start_polly_task] refuses. *)
Theorem split_text_long_word_gives_empty_chunk :
  let word := repeat_char "a" (Z.to_nat 190001) in
  len word = 190001%Z
  /\ split word = [word]
  /\ PollyInvoker.split_text word = [""; word]
  /\ forall sv bucket reference_key i language w,
       PollyInvoker.start_polly_task sv bucket reference_key "" i language w
       = (Raise (ValueError "Empty text provided for speech synthesis"), w).
Proof.
  intros word.
  assert (Hw : is_word word).
  { apply repeat_char_word; [reflexivity | lia]. }
  assert (Hl : len word = 190001%Z).
  { unfold word. rewrite repeat_char_len. lia. }
  split; [exact Hl|]. split; [now apply split_word|]. split.
  - apply split_text_with_long_word; [exact Hw|].
    rewrite Hl. reflexivity.
  - reflexivity.
Qed.

(** The same with a limit of 3. *)
Example split_text_with_3 :
  PollyInvoker.split_text_with 3 "aaaa bb c" = [""; "aaaa"; "bb"; "c"]
  /\ PollyInvoker.split_text_with 9 "  the quick   brown fox "
     = ["the quick"; "brown fox"].
Proof. split; reflexivity. Qed.

(** Whatever the text and the limit, every chunk is within the limit, or
    is one word of the text, or is empty, and the words of the chunks are
    the words of the text: no word is cut. *)
Lemma split_text_with_chunks (limit : Z) (text : string) :
  Forall (PollyInvoker.chunk_shape limit (split text))
    (PollyInvoker.split_text_with limit text)
  /\ List.concat (map split (PollyInvoker.split_text_with limit text))
     = split text.
Proof. split; [apply split_text_with_shape | apply split_text_with_words]. Qed.

(** C5.  When no word of the text is longer than the limit, joining the
    chunks with a space and splitting at whitespace gives the words of the
    text in their order, every chunk is non-empty and within the limit, and
    the empty text gives no chunk.  [split_text_with] is a function: the
    chunks depend on the limit and the text only. *)
Theorem split_text_roundtrip (text : string) (limit : Z) :
  Forall (fun w => (len w <= limit)%Z) (split text) ->
  split (join " " (PollyInvoker.split_text_with limit text)) = split text
  /\ join " " (split (join " " (PollyInvoker.split_text_with limit text)))
     = join " " (split text)
  /\ Forall (PollyInvoker.chunk_fits limit)
       (PollyInvoker.split_text_with limit text)
  /\ PollyInvoker.split_text_with limit "" = [].
Proof.
  intros Hle. split; [apply split_text_with_roundtrip|].
  split; [now rewrite split_text_with_roundtrip|].
  split; [now apply split_text_with_fits | reflexivity].
Qed.

Lemma split_text_roundtrip_witness :
  Forall (fun w => (len w <= 9)%Z) (split "  the quick   brown fox ")
  /\ split (join " " (PollyInvoker.split_text_with 9
                        "  the quick   brown fox "))
     = ["the"; "quick"; "brown"; "fox"].
Proof.
  assert (H : Forall (fun w => (len w <= 9)%Z)
                (split "  the quick   brown fox ")).
  { change (split "  the quick   brown fox ")
      with ["the"; "quick"; "brown"; "fox"].
    repeat constructor; discriminate. }
  split; [exact H|].
  exact (proj1 (split_text_roundtrip "  the quick   brown fox " 9 H)).
Defined.

(** ** The finalize step *)

(** C6, as the code behaves.  With the source object stored under a key
    other than the canonical one, [rename_to_audio_mp3] copies it to
    [download/<reference_key>/Audio.mp3] and deletes the source; run again
    with the same arguments it raises the [ClientError] of the copy, the
    source being gone, and leaves the bucket, with the canonical object, as
    it is. *)
Theorem finalize_again_raises (sv : PollyInvoker.services)
    (bucket source_key reference_key body : string) (w : world) :
  PollyInvoker.s3_fault sv "CopyObject" = None ->
  PollyInvoker.s3_fault sv "DeleteObject" = None ->
  source_key <> PollyInvoker.destination_key reference_key ->
  s3 w !! (bucket, source_key) = Some body ->
  exists w1,
    PollyInvoker.rename_to_audio_mp3 sv bucket source_key reference_key w
    = (Ok (PollyInvoker.destination_key reference_key), w1)
    /\ s3 w1 !! (bucket, PollyInvoker.destination_key reference_key)
       = Some body
    /\ s3 w1 !! (bucket, source_key) = None
    /\ PollyInvoker.rename_to_audio_mp3 sv bucket source_key reference_key w1
       = (Raise (ClientError "NoSuchKey"), w1).
Proof.
  intros Hc Hd Hne Hsrc. eexists.
  split; [exact (rename_moves sv _ _ _ _ _ Hc Hd Hsrc)|].
  assert (Hgone : forall m : gmap (string * string) string,
             delete (bucket, source_key) m !! (bucket, source_key) = None)
    by (intros m; apply lookup_delete_eq).
  split; [|split].
  - cbn [s3 set_s3]. rewrite lookup_delete_ne by congruence.
    apply lookup_insert_eq.
  - cbn [s3 set_s3]. apply Hgone.
  - apply rename_missing; [assumption|]. cbn [s3 set_s3]. apply Hgone.
Qed.

Lemma finalize_again_raises_witness :
  s3 Scenario.chunk_stored !! ("docs", "download/task/chunk_0_.t0.mp3")
    = Some "mp3:the quick"
  /\ exists w1,
       PollyInvoker.rename_to_audio_mp3 Scenario.polly_works "docs"
         "download/task/chunk_0_.t0.mp3" "task" Scenario.chunk_stored
       = (Ok "download/task/Audio.mp3", w1)
       /\ PollyInvoker.rename_to_audio_mp3 Scenario.polly_works "docs"
            "download/task/chunk_0_.t0.mp3" "task" w1
          = (Raise (ClientError "NoSuchKey"), w1).
Proof.
  assert (H : s3 Scenario.chunk_stored
                !! ("docs", "download/task/chunk_0_.t0.mp3")
              = Some "mp3:the quick")
    by (vm_compute; reflexivity).
  split; [exact H|].
  destruct (finalize_again_raises Scenario.polly_works "docs"
              "download/task/chunk_0_.t0.mp3" "task" "mp3:the quick"
              Scenario.chunk_stored eq_refl eq_refl)
    as (w1 & E1 & _ & _ & E2); [discriminate | exact H |].
  exists w1. split; [exact E1 | exact E2].
Defined.

(** C6, the claim on the code: the finalize step runs, and running it
    again with the same arguments raises an exception. *)
Lemma finalize_is_not_idempotent :
  let first := PollyInvoker.rename_to_audio_mp3 Scenario.polly_works "docs"
                 "download/task/chunk_0_.t0.mp3" "task"
                 Scenario.chunk_stored in
  let again := PollyInvoker.rename_to_audio_mp3 Scenario.polly_works "docs"
                 "download/task/chunk_0_.t0.mp3" "task" first.2 in
  first.1 = Ok "download/task/Audio.mp3"
  /\ again.1 = Raise (ClientError "NoSuchKey").
Proof. vm_compute. split; reflexivity. Qed.

(** ** Faults and the stage boundary *)

(** C7, as the handlers behave.  The extract-text handler catches an
    exception of its [try] block and raises again: an exception leaves the
    handler, the caught one after the failure status is written when the
    reference key was read and the table takes the update.  The
    synthesize-speech handler, for an event whose object key has a second
    path segment and a table that takes the update, returns a response in
    every case: an exception of its [try] block becomes a 500 response and
    the status [failed]. *)
Theorem stage_fault_handling :
  (forall (sv : ImageConverter.services)
          (event : option ImageConverter.sns_message)
          (w w1 : world) (e : exn),
     ImageConverter.handler_try sv event w = (Raise e, w1) ->
     (exists e' w', ImageConverter.lambda_handler sv event w = (Raise e', w'))
     /\ forall reference_key,
          ImageConverter.bound_reference_key event = Some reference_key ->
          ImageConverter.update_item_fault sv = None ->
          exists w',
            ImageConverter.lambda_handler sv event w = (Raise e, w')
            /\ TaskStatus_of reference_key w'
               = Some ImageConverter.STATUS_FAILED)
  /\ (forall (sv : PollyInvoker.services)
             (bucket key reference_key : string) (w : world),
        split_on "/" key !! 1%nat = Some reference_key ->
        PollyInvoker.update_item_fault sv = None ->
        exists resp w',
          PollyInvoker.lambda_handler sv (Some (bucket, key)) w = (Ok resp, w')
          /\ ((statusCode resp = 200%Z
               /\ TaskStatus_of reference_key w'
                  = Some PollyInvoker.STATUS_READY)
              \/ (statusCode resp = 500%Z
                  /\ TaskStatus_of reference_key w'
                     = Some PollyInvoker.STATUS_FAILED
                  /\ exists e w1,
                       PollyInvoker.handler_try sv bucket key w = (Raise e, w1)
                       /\ body resp
                          = DumpsStr ("Error processing file: "
                                        +:+ str_exn e)))).
Proof.
  split.
  - intros sv event w w1 e Htry. split.
    + eapply handler_raises. eassumption.
    + intros reference_key Hb Hf. eexists. split.
      * eapply handler_reraises; eassumption.
      * apply TaskStatus_of_update.
  - intros sv bucket key reference_key w Hkey Hf.
    now apply lambda_handler_returns.
Qed.

Lemma stage_fault_handling_witness :
  (ImageConverter.handler_try Scenario.put_refused Scenario.notification
     Scenario.five_pages).1
    = Raise (ClientError "AccessDenied")
  /\ (exists w',
        ImageConverter.lambda_handler Scenario.put_refused
          Scenario.notification Scenario.five_pages
        = (Raise (ClientError "AccessDenied"), w')
        /\ TaskStatus_of "task" w' = Some ImageConverter.STATUS_FAILED)
  /\ exists resp w',
       PollyInvoker.lambda_handler Scenario.polly_stuck Scenario.text_stored
         Scenario.text_ready
       = (Ok resp, w').
Proof.
  destruct (ImageConverter.handler_try Scenario.put_refused
              Scenario.notification Scenario.five_pages)
    as [r w1] eqn:Htry.
  assert (Hr : r = Raise (ClientError "AccessDenied")).
  { change r with (r, w1).1. rewrite <- Htry. vm_compute. reflexivity. }
  subst r. split; [reflexivity|]. split.
  - exact (proj2 (proj1 stage_fault_handling Scenario.put_refused
                    Scenario.notification Scenario.five_pages w1 _ Htry)
             "task" eq_refl eq_refl).
  - destruct (proj2 stage_fault_handling Scenario.polly_stuck "docs"
                "download/task/formatted_output.txt" "task"
                Scenario.text_ready eq_refl eq_refl)
      as (resp & w' & E & _).
    exists resp, w'. exact E.
Defined.

(** C7, the claim on the handlers: storing the text artifact is refused,
    and the exception leaves the extract-text handler. *)
Lemma extract_fault_leaves_handler :
  (ImageConverter.lambda_handler Scenario.put_refused Scenario.notification
     Scenario.five_pages).1
  = Raise (ClientError "AccessDenied").
Proof. vm_compute. reflexivity. Qed.

(** The event read before the [try], and the key without a second
    segment, leave the synthesize-speech handler as exceptions too. *)
Example synthesize_faults_outside_try :
  (PollyInvoker.lambda_handler Scenario.polly_works None
     Scenario.text_ready).1
    = Raise (KeyError "Records")
  /\ (PollyInvoker.lambda_handler Scenario.polly_works
        (Some ("docs", "formatted_output.txt")) Scenario.text_ready).1
     = Raise (UnboundLocalError "reference_key").
Proof. vm_compute. split; reflexivity. Qed.

(** ** The job supervisor *)

(** C8.  When the task is pending at every time of the deadline window,
    [wait_for_polly_task] raises the timed-out exception, which is not the
    exception of a failed task; every poll it made started before the
    deadline, and the clock has reached the deadline when it raises. *)
Theorem wait_times_out_at_deadline (sv : PollyInvoker.services)
    (task_id : string) (req : task_request) (w : world) :
  tasks w !! task_id = Some req ->
  (forall t, (now w <= t < now w + PollyInvoker.WAIT_DEADLINE)%Z ->
             PollyInvoker.pending sv task_id t) ->
  exists w' evs,
    PollyInvoker.wait_for_polly_task sv task_id w
    = (Raise (PollyInvoker.TIMED_OUT task_id), w')
    /\ PollyInvoker.TIMED_OUT task_id <> PollyInvoker.TASK_FAILED task_id
    /\ log w' = log w ++ evs
    /\ Forall (PollyInvoker.polled_before
                 (now w + PollyInvoker.WAIT_DEADLINE)%Z) evs
    /\ (now w + PollyInvoker.WAIT_DEADLINE <= now w')%Z.
Proof.
  intros Hreq Hpend.
  destruct (wait_loop_times_out sv PollyInvoker.wait_fuel task_id
              (now w + PollyInvoker.WAIT_DEADLINE)%Z req w
              (wait_fuel_enough w) Hreq Hpend)
    as (w' & evs & E & Hend & Hlog & Hall & _).
  exists w', evs. split; [exact E|]. split; [|now repeat split].
  unfold PollyInvoker.TIMED_OUT, PollyInvoker.TASK_FAILED.
  intros H. injection H as H. cbn in H. discriminate H.
Qed.

Lemma wait_times_out_at_deadline_witness :
  tasks Scenario.task_submitted !! "t0"
    = Some (TaskRequest "docs" "download/task/chunk_0_" "the quick"
              "Joanna" "en-US")
  /\ exists w',
       PollyInvoker.wait_for_polly_task Scenario.polly_stuck "t0"
         Scenario.task_submitted
       = (Raise (PollyInvoker.TIMED_OUT "t0"), w').
Proof.
  assert (H : tasks Scenario.task_submitted !! "t0"
              = Some (TaskRequest "docs" "download/task/chunk_0_" "the quick"
                        "Joanna" "en-US"))
    by (vm_compute; reflexivity).
  split; [exact H|].
  destruct (wait_times_out_at_deadline Scenario.polly_stuck "t0" _
              Scenario.task_submitted H) as (w' & evs & E & _).
  - intros t _. exists "inProgress", 120%N.
    split; [reflexivity | split; discriminate].
  - exists w'. exact E.
Defined.

(** The run on the stuck task: 59 polls, the last started at 297960 ms, 40 ms
    before the deadline at 301000 ms, and the clock at 303080 ms when the
    exception is raised. *)
Example wait_stuck_task_run :
  let r := PollyInvoker.wait_for_polly_task Scenario.polly_stuck "t0"
             Scenario.task_submitted in
  r.1 = Raise (Exception "Speech synthesis task timed out: t0")
  /\ now r.2 = 303080%Z
  /\ length (log r.2) = 119%nat
  /\ rev (log r.2) !! 1%nat = Some (EvPollTask "t0" 297960)
  /\ rev (log r.2) !! 0%nat = Some (EvSleep 5000).
Proof. vm_compute. repeat split. Qed.

(** ** The retrying submitter *)

(** C9.  [max_attempts] is the constant 3.  When the three submissions are accepted and
    the three builds fail, the handler makes exactly three submissions,
    waits the backoff before the second and the third, monitors in each
    attempt the build of that attempt's submission, and returns the
    failure response.  A build that succeeds ends the loop: one, two or
    three submissions are made when the first, second or third build
    succeeds, and the success response names that build and attempt.
    There is fuel from which on the handler gives this result. *)
Theorem retry_submits_at_most_three_builds (sv : CodebuildInvoker.services)
    (c : ascii) (s : string) (env_project_name : option string)
    (id1 id2 id3 : string) (w : world) :
  CodebuildInvoker.start_build sv (String c s) (CodebuildInvoker.submissions w)
    = Returns id1 ->
  CodebuildInvoker.start_build sv (String c s)
    (S (CodebuildInvoker.submissions w)) = Returns id2 ->
  CodebuildInvoker.start_build sv (String c s)
    (S (S (CodebuildInvoker.submissions w))) = Returns id3 ->
  (CodebuildInvoker.build_fails sv id1 ->
   CodebuildInvoker.build_fails sv id2 ->
   CodebuildInvoker.build_fails sv id3 ->
   exists (fuel0 : nat) (w' : world) (m1 m2 m3 : list event),
     (forall fuel, (fuel0 <= fuel)%nat ->
        CodebuildInvoker.lambda_handler sv fuel (Some (String c s))
          env_project_name w
        = (Ok CodebuildInvoker.FAILED_RESPONSE, w'))
     /\ log w'
        = log w ++ [EvStartBuild (String c s)] ++ m1
            ++ [EvSleep CodebuildInvoker.RETRY_SLEEP;
                EvStartBuild (String c s)] ++ m2
            ++ [EvSleep CodebuildInvoker.RETRY_SLEEP;
                EvStartBuild (String c s)] ++ m3
     /\ Forall (CodebuildInvoker.monitor_event id1) m1
     /\ Forall (CodebuildInvoker.monitor_event id2) m2
     /\ Forall (CodebuildInvoker.monitor_event id3) m3
     /\ CodebuildInvoker.submissions w'
        = (CodebuildInvoker.submissions w + 3)%nat
     /\ CodebuildInvoker.retry_sleeps w'
        = (CodebuildInvoker.retry_sleeps w + 2)%nat)
  /\ (CodebuildInvoker.build_succeeds sv id1 ->
      exists (fuel0 : nat) (w' : world),
        (forall fuel, (fuel0 <= fuel)%nat ->
           CodebuildInvoker.lambda_handler sv fuel (Some (String c s))
             env_project_name w
           = (Ok (CodebuildInvoker.SUCCESS_RESPONSE id1 1), w'))
        /\ CodebuildInvoker.submissions w'
           = (CodebuildInvoker.submissions w + 1)%nat
        /\ CodebuildInvoker.retry_sleeps w' = CodebuildInvoker.retry_sleeps w)
  /\ (CodebuildInvoker.build_fails sv id1 ->
      CodebuildInvoker.build_succeeds sv id2 ->
      exists (fuel0 : nat) (w' : world),
        (forall fuel, (fuel0 <= fuel)%nat ->
           CodebuildInvoker.lambda_handler sv fuel (Some (String c s))
             env_project_name w
           = (Ok (CodebuildInvoker.SUCCESS_RESPONSE id2 2), w'))
        /\ CodebuildInvoker.submissions w'
           = (CodebuildInvoker.submissions w + 2)%nat
        /\ CodebuildInvoker.retry_sleeps w'
           = (CodebuildInvoker.retry_sleeps w + 1)%nat)
  /\ (CodebuildInvoker.build_fails sv id1 ->
      CodebuildInvoker.build_fails sv id2 ->
      CodebuildInvoker.build_succeeds sv id3 ->
      exists (fuel0 : nat) (w' : world),
        (forall fuel, (fuel0 <= fuel)%nat ->
           CodebuildInvoker.lambda_handler sv fuel (Some (String c s))
             env_project_name w
           = (Ok (CodebuildInvoker.SUCCESS_RESPONSE id3 3), w'))
        /\ CodebuildInvoker.submissions w'
           = (CodebuildInvoker.submissions w + 3)%nat
        /\ CodebuildInvoker.retry_sleeps w'
           = (CodebuildInvoker.retry_sleeps w + 2)%nat).
Proof.
  intros Hs1 Hs2 Hs3. split; [|split; [|split]].
  - intros H1 H2 H3. eapply retries_exhausted; eassumption.
  - intros H1. eapply success_on_first_attempt; eassumption.
  - intros H1 H2. eapply success_on_second_attempt; eassumption.
  - intros H1 H2 H3. eapply success_on_third_attempt; eassumption.
Qed.

Lemma retry_submits_at_most_three_builds_witness :
  (exists (fuel0 : nat) (w' : world),
     (forall fuel, (fuel0 <= fuel)%nat ->
        CodebuildInvoker.lambda_handler Scenario.builds_fail fuel
          (Some "vocaldocs") None Scenario.idle
        = (Ok CodebuildInvoker.FAILED_RESPONSE, w'))
     /\ CodebuildInvoker.submissions w' = 3%nat)
  /\ (exists (fuel0 : nat) (w' : world),
        (forall fuel, (fuel0 <= fuel)%nat ->
           CodebuildInvoker.lambda_handler Scenario.second_build_succeeds
             fuel (Some "vocaldocs") None Scenario.idle
           = (Ok (CodebuildInvoker.SUCCESS_RESPONSE "b1" 2), w'))
        /\ CodebuildInvoker.submissions w' = 2%nat).
Proof.
  assert (F : forall id,
             CodebuildInvoker.build_fails Scenario.builds_fail id).
  { intros id. exists (Scenario.finish_of id), "FAILED".
    split; [discriminate|]. split; [discriminate|]. intros t. reflexivity. }
  split.
  - destruct (proj1 (retry_submits_at_most_three_builds Scenario.builds_fail
                       "v" "ocaldocs" None "b0" "b1" "b2" Scenario.idle
                       eq_refl eq_refl eq_refl)
                (F "b0") (F "b1") (F "b2"))
      as (fuel0 & w' & m1 & m2 & m3 & Hrun & _ & _ & _ & _ & Hsub & _).
    exists fuel0, w'. split; [exact Hrun | exact Hsub].
  - destruct (proj1 (proj2 (proj2
                (retry_submits_at_most_three_builds
                   Scenario.second_build_succeeds
                   "v" "ocaldocs" None "b0" "b1" "b2" Scenario.idle
                   eq_refl eq_refl eq_refl))))
      as (fuel0 & w' & Hrun & Hsub & _).
    + exists 25000%Z, "FAILED".
      split; [discriminate|]. split; [discriminate|]. intros t. reflexivity.
    + exists 95000%Z. intros t. reflexivity.
    + exists fuel0, w'. split; [exact Hrun | exact Hsub].
Defined.

(** The run on three failing builds with fuel for ten rounds: three
    submissions, two backoff waits, the failure response. *)
Example retry_run_all_fail :
  let r := CodebuildInvoker.lambda_handler Scenario.builds_fail 10
             (Some "vocaldocs") None Scenario.idle in
  r.1 = Ok (Response 500
              (Plain "Failed to complete build successfully after 3 attempts"))
  /\ CodebuildInvoker.submissions r.2 = 3%nat
  /\ CodebuildInvoker.retry_sleeps r.2 = 2%nat
  /\ log r.2
     = [EvStartBuild "vocaldocs";
        EvSleep 10000; EvPollBuild "b0" 10000;
        EvSleep 10000; EvPollBuild "b0" 20000;
        EvSleep 10000; EvPollBuild "b0" 30000;
        EvSleep 30000; EvStartBuild "vocaldocs";
        EvSleep 10000; EvPollBuild "b1" 70000;
        EvSleep 10000; EvPollBuild "b1" 80000;
        EvSleep 10000; EvPollBuild "b1" 90000;
        EvSleep 10000; EvPollBuild "b1" 100000;
        EvSleep 30000; EvStartBuild "vocaldocs";
        EvSleep 10000; EvPollBuild "b2" 140000].
Proof. vm_compute. repeat split. Qed.

(** ** The user-requests query *)

(** C10.  When the scan succeeds the query answers 200 with one request
    per item of the user, in table order; a request reports
    [Voice-is-Ready] exactly when the stored status is [Voice-is-Ready]
    and [Work-In-Progress] for every other stored status, the failure
    statuses of the three stages among them. *)
Theorem user_requests_ready_or_in_progress (sv : TrackExecution.services)
    (username : string) (w : world) :
  TrackExecution.scan_fault sv = None ->
  Forall (fun item => is_Some (item !! "reference_key"))
    (TrackExecution.table_items w) ->
  TrackExecution.get_user_requests sv username w
  = (Ok (Response 200
           (DumpsRequests
              (map TrackExecution.to_request
                 (List.filter (TrackExecution.is_user username)
                    (TrackExecution.table_items w))))), w)
  /\ (forall item,
        (item !! "TaskStatus" = Some "Voice-is-Ready" ->
         req_TaskStatus (TrackExecution.to_request item) = "Voice-is-Ready")
        /\ (item !! "TaskStatus" <> Some "Voice-is-Ready" ->
            req_TaskStatus (TrackExecution.to_request item)
            = "Work-In-Progress"))
  /\ (forall item status,
        In status [CodebuildArtifacts.STATUS_FAILED;
                   ImageConverter.STATUS_NO_IMAGES;
                   ImageConverter.STATUS_FAILED;
                   PollyInvoker.STATUS_FAILED] ->
        item !! "TaskStatus" = Some status ->
        req_TaskStatus (TrackExecution.to_request item) = "Work-In-Progress").
Proof.
  intros Hfault Hkeys. split; [now apply get_user_requests_eq|]. split.
  - intros item. split; intros H; cbn [TrackExecution.to_request req_TaskStatus].
    + now apply reported_status_ready.
    + now apply reported_status_other.
  - intros item status Hin Hst.
    cbn [TrackExecution.to_request req_TaskStatus].
    apply reported_status_other. rewrite Hst.
    cbn [In] in Hin.
    destruct Hin as [<-|[<-|[<-|[<-|[]]]]]; discriminate.
Qed.

Lemma user_requests_ready_or_in_progress_witness :
  Forall (fun item => is_Some (item !! "reference_key"))
    (TrackExecution.table_items Scenario.three_tasks)
  /\ TrackExecution.get_user_requests Scenario.small_pages "ann"
       Scenario.three_tasks
     = (Ok (Response 200
              (DumpsRequests
                 (map TrackExecution.to_request
                    (List.filter (TrackExecution.is_user "ann")
                       (TrackExecution.table_items Scenario.three_tasks))))),
        Scenario.three_tasks).
Proof.
  assert (H : Forall (fun item => is_Some (item !! "reference_key"))
                (TrackExecution.table_items Scenario.three_tasks)).
  { apply has_key_items. vm_compute. reflexivity. }
  split; [exact H|].
  exact (proj1 (user_requests_ready_or_in_progress Scenario.small_pages "ann"
                  Scenario.three_tasks eq_refl H)).
Defined.

(** The answer for a user with a ready and a failed task: the failed task
    is reported in progress. *)
Example user_requests_run :
  (TrackExecution.get_user_requests Scenario.small_pages "ann"
     Scenario.three_tasks).1
  = Ok (Response 200
          (DumpsRequests
             [Request "k1" "report.pdf" "Voice-is-Ready";
              Request "k2" "report.pdf" "Work-In-Progress"])).
Proof. vm_compute. reflexivity. Qed.

(** * Further properties of the handlers *)

(** ** The chunk splitter *)

(** X1.  For every text and every limit, each chunk of [split_text_with]
    is within the limit, or is one word of the text, or is empty; and the
    words of the chunks, in order, are the words of the text: no word is
    cut, lost, repeated or moved. *)
Theorem split_text_keeps_words (limit : Z) (text : string) :
  Forall (PollyInvoker.chunk_shape limit (split text))
    (PollyInvoker.split_text_with limit text)
  /\ List.concat (map split (PollyInvoker.split_text_with limit text))
     = split text.
Proof. split; [apply split_text_with_shape | apply split_text_with_words]. Qed.

(** X2.  Only the first chunk can be empty.  No chunk after the first is
    empty; when the first word of the text is within the limit no chunk
    is empty; when it is over the limit the first chunk is the empty
    string. *)
Theorem split_text_empty_chunk_only_first (limit : Z) (text : string) :
  Forall (fun c => c <> "") (tail (PollyInvoker.split_text_with limit text))
  /\ (forall w ws, split text = w :: ws -> (len w <= limit)%Z ->
        Forall (fun c => c <> "") (PollyInvoker.split_text_with limit text))
  /\ (forall w ws, split text = w :: ws -> (limit < len w)%Z ->
        head (PollyInvoker.split_text_with limit text) = Some "").
Proof.
  split; [apply split_text_with_tail_nonempty|]. split.
  - intros w ws. apply split_text_with_first_fits.
  - intros w ws. apply split_text_with_first_long.
Qed.

Lemma split_text_empty_chunk_only_first_witness :
  Forall (fun c => c <> "") (PollyInvoker.split_text_with 5 "ab cd efgh")
  /\ head (PollyInvoker.split_text_with 3 "abcd ef") = Some "".
Proof.
  split.
  - apply (proj1 (proj2 (split_text_empty_chunk_only_first 5 "ab cd efgh"))
             "ab" ["cd"; "efgh"]); [reflexivity | discriminate].
  - apply (proj2 (proj2 (split_text_empty_chunk_only_first 3 "abcd ef"))
             "abcd" ["ef"]); [reflexivity | reflexivity].
Defined.

(** X3.  The packing is greedy: a chunk is closed only when the next word
    does not fit.  For two chunks that follow each other, the words of
    the first joined with the first word of the second are longer than
    the limit. *)
Theorem split_text_chunks_are_full (limit : Z) (text : string) (i : nat)
    (c d : string) :
  PollyInvoker.split_text_with limit text !! i = Some c ->
  PollyInvoker.split_text_with limit text !! S i = Some d ->
  PollyInvoker.full_before limit c d.
Proof. apply split_text_with_tight. Qed.

Lemma split_text_chunks_are_full_witness :
  PollyInvoker.full_before 9 "the quick" "brown fox".
Proof.
  apply (split_text_chunks_are_full 9 "  the quick   brown fox " 0);
    reflexivity.
Defined.

(** X4.  A text whose words, joined by single spaces, fit the limit is one
    chunk: its words joined by single spaces. *)
Theorem split_text_single_chunk (limit : Z) (text w : string)
    (ws : list string) :
  split text = w :: ws ->
  (len (join " " (w :: ws)) <= limit)%Z ->
  PollyInvoker.split_text_with limit text = [join " " (w :: ws)].
Proof. apply split_text_with_single. Qed.

Lemma split_text_single_chunk_witness :
  PollyInvoker.split_text_with 20 "  the quick   brown fox "
  = ["the quick brown fox"].
Proof.
  apply (split_text_single_chunk 20 "  the quick   brown fox " "the"
           ["quick"; "brown"; "fox"]); [reflexivity | discriminate].
Defined.

(** ** The job supervisor *)

(** X5.  Whatever Polly answers and however long its answers take,
    [wait_for_polly_task] ends, makes at most 60 status requests, and
    starts each of them before the deadline of 300 seconds. *)
Theorem wait_makes_at_most_60_polls (sv : PollyInvoker.services)
    (task_id : string) (w : world) :
  exists r w' evs,
    PollyInvoker.wait_for_polly_task sv task_id w = (r, w')
    /\ r <> NoFuel
    /\ log w' = log w ++ evs
    /\ Forall (PollyInvoker.polled_before
                 (now w + PollyInvoker.WAIT_DEADLINE)%Z) evs
    /\ (PollyInvoker.polls evs <= 60)%nat.
Proof.
  destruct (wait_loop_bounded sv PollyInvoker.wait_fuel task_id
              (now w + PollyInvoker.WAIT_DEADLINE)%Z w (wait_fuel_enough w))
    as (r & w' & evs & E & Hr & Hlog & Hall & Hpolls).
  exists r, w', evs. split; [exact E|]. split; [exact Hr|].
  split; [exact Hlog|]. split; [exact Hall|].
  change PollyInvoker.wait_fuel with 61%nat in Hpolls. lia.
Qed.

(** ** The synthesize-speech stage *)

(** X6.  A task whose language, in lower case, is neither [english] nor
    [arabic]: with a text whose first word is within the limit, the
    handler returns 500 with the message of the unsupported language and
    writes the status [failed]; nothing else changes: no synthesis task
    is started and the bucket is as before. *)
Theorem synthesize_unsupported_language (sv : PollyInvoker.services)
    (bucket key reference_key language text first : string)
    (ws : list string) (item : gmap string string) (w : world) :
  split_on "/" key !! 1%nat = Some reference_key ->
  PollyInvoker.get_item_fault sv = None ->
  PollyInvoker.s3_fault sv "GetObject" = None ->
  PollyInvoker.update_item_fault sv = None ->
  table w !! reference_key = Some item ->
  item !! "Language" = Some language ->
  lower language <> "english" ->
  lower language <> "arabic" ->
  s3 w !! (bucket, key) = Some text ->
  split text = first :: ws ->
  (len first <= PollyInvoker.MAX_CHARS)%Z ->
  PollyInvoker.lambda_handler sv (Some (bucket, key)) w
  = (Ok (Response 500
           (DumpsStr ("Error processing file: Unsupported language: "
                        +:+ lower language))),
     (update_item reference_key PollyInvoker.STATUS_FAILED w).2).
Proof.
  intros Hkey Hgf Hsf Huf Hitem Hlang He Ha Htext Hsplit Hlen.
  apply (lambda_handler_fails sv bucket key reference_key
           (ValueError ("Unsupported language: " +:+ lower language)));
    [assumption | assumption |].
  rewrite (handler_try_reads sv bucket key reference_key language text item)
    by assumption.
  destruct (split_text_with_first_chunk PollyInvoker.MAX_CHARS text first ws
              Hsplit Hlen) as (chunk & rest & Hchunks & Hblank).
  unfold PollyInvoker.split_text. rewrite Hchunks.
  cbn [PollyInvoker.for_chunks]. rewrite !bind_eq.
  now rewrite start_polly_task_unsupported.
Qed.

(** X7.  A text without a word (empty, or whitespace only): no chunk is
    synthesized, [audio_files[0]] raises, and the handler returns 500 with
    the message of the index error and writes the status [failed], whatever
    the language of the task. *)
Theorem synthesize_text_without_words (sv : PollyInvoker.services)
    (bucket key reference_key language text : string)
    (item : gmap string string) (w : world) :
  split_on "/" key !! 1%nat = Some reference_key ->
  PollyInvoker.get_item_fault sv = None ->
  PollyInvoker.s3_fault sv "GetObject" = None ->
  PollyInvoker.update_item_fault sv = None ->
  table w !! reference_key = Some item ->
  item !! "Language" = Some language ->
  s3 w !! (bucket, key) = Some text ->
  is_blank text = true ->
  PollyInvoker.lambda_handler sv (Some (bucket, key)) w
  = (Ok (Response 500
           (DumpsStr "Error processing file: list index out of range")),
     (update_item reference_key PollyInvoker.STATUS_FAILED w).2).
Proof.
  intros Hkey Hgf Hsf Huf Hitem Hlang Htext Hblank.
  apply (lambda_handler_fails sv bucket key reference_key IndexError);
    [assumption | assumption |].
  rewrite (handler_try_reads sv bucket key reference_key language text item)
    by assumption.
  unfold PollyInvoker.split_text, PollyInvoker.split_text_with.
  rewrite (split_blank text Hblank). reflexivity.
Qed.

Lemma synthesize_unsupported_language_witness :
  (PollyInvoker.lambda_handler Scenario.polly_works Scenario.text_stored
     Scenario.french_text).1
  = Ok (Response 500
          (DumpsStr "Error processing file: Unsupported language: french")).
Proof.
  unfold Scenario.text_stored.
  rewrite (synthesize_unsupported_language Scenario.polly_works "docs"
             "download/task/formatted_output.txt" "task" "French"
             "  the quick   brown fox " "the" ["quick"; "brown"; "fox"]
             (Scenario.task_item_in "French" ImageConverter.STATUS_COMPLETED)
             Scenario.french_text);
    try reflexivity; try discriminate.
Defined.

Lemma synthesize_text_without_words_witness :
  (PollyInvoker.lambda_handler Scenario.polly_works Scenario.text_stored
     Scenario.empty_text).1
  = Ok (Response 500
          (DumpsStr "Error processing file: list index out of range")).
Proof.
  unfold Scenario.text_stored.
  rewrite (synthesize_text_without_words Scenario.polly_works "docs"
             "download/task/formatted_output.txt" "task" "English" ""
             (Scenario.task_item_in "English" ImageConverter.STATUS_COMPLETED)
             Scenario.empty_text);
    reflexivity.
Defined.

(** X8.  The single-chunk path.  For a task in a supported language whose
    text fits one chunk, when Polly accepts the task and reports it
    completed at the first poll, the handler returns 200; the canonical key
    [download/<reference_key>/Audio.mp3] holds the audio of the chunk, the
    key of the chunk is gone, the status is [Voice-is-Ready], and one task
    was started and polled once. *)
Theorem synthesize_single_chunk (sv : PollyInvoker.services)
    (bucket key reference_key language voice code text first task_id : string)
    (ws : list string) (item : gmap string string) (latency : N)
    (w : world) :
  split_on "/" key !! 1%nat = Some reference_key ->
  PollyInvoker.get_item_fault sv = None ->
  (forall op, PollyInvoker.s3_fault sv op = None) ->
  PollyInvoker.update_item_fault sv = None ->
  table w !! reference_key = Some item ->
  item !! "Language" = Some language ->
  (lower language = "english" /\ voice = "Joanna" /\ code = "en-US")
  \/ (lower language = "arabic" /\ voice = "Zeina" /\ code = "arb") ->
  s3 w !! (bucket, key) = Some text ->
  split text = first :: ws ->
  (len (join " " (first :: ws)) <= PollyInvoker.MAX_CHARS)%Z ->
  PollyInvoker.start_speech_synthesis_task sv
    (TaskRequest bucket ("download/" +:+ reference_key +:+ "/chunk_0_")
       (join " " (first :: ws)) voice code) (size (tasks w))
  = Returns task_id ->
  no_char "/" task_id = true ->
  PollyInvoker.get_speech_synthesis_task sv task_id (now w)
  = Returns ("completed", latency) ->
  exists w',
    PollyInvoker.lambda_handler sv (Some (bucket, key)) w
    = (Ok (Response 200 (DumpsStr "Processing completed successfully")), w')
    /\ s3 w' !! (bucket, PollyInvoker.destination_key reference_key)
       = Some (PollyInvoker.synthesize sv
                 (TaskRequest bucket
                    ("download/" +:+ reference_key +:+ "/chunk_0_")
                    (join " " (first :: ws)) voice code))
    /\ s3 w' !! (bucket, PollyInvoker.chunk_0_key reference_key task_id)
       = None
    /\ TaskStatus_of reference_key w' = Some PollyInvoker.STATUS_READY
    /\ log w' = log w ++ [EvStartTask task_id; EvPollTask task_id (now w)].
Proof.
  intros Hkey Hgf Hsf Huf Hitem Hlang Hsup Htext Hsplit Hlen Hstart Hid Hget.
  set (chunk := join " " (first :: ws)) in *.
  set (req := TaskRequest bucket _ chunk voice code) in *.
  assert (Hblank : is_blank chunk = false).
  { apply join_words_not_blank; [discriminate|].
    rewrite <- Hsplit. apply split_words. }
  pose proof (start_polly_task_ok sv bucket reference_key chunk
                (lower language) voice code task_id w Hblank Hsup Hstart)
    as Hst.
  fold req in Hst. set (w1 := add_event _ _) in Hst.
  assert (Hreq : tasks w1 !! task_id = Some req).
  { subst w1. cbn [tasks add_event set_tasks]. apply lookup_insert_eq. }
  pose proof (wait_completed_first sv task_id
                (PollyInvoker.chunk_0_file task_id) req latency w1 Hreq Hget
                (chunk_0_uri_last bucket reference_key chunk voice code
                   task_id Hid)) as Hwait.
  set (w2 := set_s3 _ _) in Hwait.
  assert (Hsrc : s3 w2 !! (bucket,
                           PollyInvoker.chunk_0_key reference_key task_id)
                 = Some (PollyInvoker.synthesize sv req)).
  { subst w2. cbn [s3 set_s3]. subst req.
    rewrite chunk_0_output_key. apply lookup_insert_eq. }
  pose proof (rename_moves sv bucket
                (PollyInvoker.chunk_0_key reference_key task_id)
                reference_key _ w2 (Hsf "CopyObject") (Hsf "DeleteObject")
                Hsrc) as Hren.
  set (w3 := set_s3 (delete _) _) in Hren.
  exists (update_item reference_key PollyInvoker.STATUS_READY w3).2.
  split; [|split; [|split; [|split]]].
  - apply lambda_handler_ok.
    rewrite (handler_try_reads sv bucket key reference_key language text item)
      by (try apply Hsf; assumption).
    unfold PollyInvoker.split_text.
    rewrite (split_text_with_single _ text first ws Hsplit Hlen).
    fold chunk. cbn [PollyInvoker.for_chunks]. mrun.
    rewrite Hst. cbv beta iota. rewrite Hwait. cbv beta iota.
    cbn [app length Nat.ltb Nat.leb].
    rewrite (item_at_some 0 [PollyInvoker.chunk_0_file task_id] _ _ eq_refl).
    cbv beta iota.
    change ("download/" +:+ reference_key +:+ "/"
              +:+ PollyInvoker.chunk_0_file task_id)
      with (PollyInvoker.chunk_0_key reference_key task_id).
    rewrite Hren. cbv beta iota.
    rewrite update_dynamodb_status_ok by assumption.
    reflexivity.
  - rewrite s3_update_item. subst w3. cbn [s3 set_s3].
    rewrite lookup_delete_ne
      by (pose proof (chunk_0_key_not_destination reference_key task_id);
          congruence).
    apply lookup_insert_eq.
  - rewrite s3_update_item. subst w3. cbn [s3 set_s3].
    apply lookup_delete_eq.
  - apply TaskStatus_of_update.
  - change (log (update_item reference_key PollyInvoker.STATUS_READY w3).2)
      with ((log w ++ [EvStartTask task_id]) ++ [EvPollTask task_id (now w)]).
    now rewrite <- app_assoc.
Qed.

Lemma synthesize_single_chunk_witness :
  exists w',
    PollyInvoker.lambda_handler Scenario.polly_fast Scenario.text_stored
      Scenario.text_ready
    = (Ok (Response 200 (DumpsStr "Processing completed successfully")), w')
    /\ s3 w' !! ("docs", "download/task/Audio.mp3")
       = Some "mp3:the quick brown fox"
    /\ s3 w' !! ("docs", "download/task/chunk_0_.t0.mp3") = None
    /\ TaskStatus_of "task" w' = Some "Voice-is-Ready"
    /\ log w' = [EvStartTask "t0"; EvPollTask "t0" 1000].
Proof.
  apply (synthesize_single_chunk Scenario.polly_fast "docs"
           "download/task/formatted_output.txt" "task" "English" "Joanna"
           "en-US" "  the quick   brown fox " "the" "t0"
           ["quick"; "brown"; "fox"]
           (Scenario.task_item ImageConverter.STATUS_COMPLETED) 120%N
           Scenario.text_ready);
    try reflexivity; try discriminate.
  left. repeat split; reflexivity.
Defined.

(** X9.  The several-chunks path stores no audio under the canonical key.
    [combine_audio_files] followed by [rename_to_audio_mp3], as the handler
    chains them, leaves at [download/<reference_key>/Audio.mp3] the manifest:
    the file names of the chunks, one per line, from which the list of file
    names is read back; the manifest key itself is gone and no other object
    of the bucket changes, so the audio of the chunks stays where Polly
    wrote it. *)
Theorem combined_audio_is_manifest (sv : PollyInvoker.services)
    (bucket reference_key : string) (audio_files : list string) (w : world) :
  (forall op, PollyInvoker.s3_fault sv op = None) ->
  audio_files <> [] ->
  Forall (fun f => no_char "010"%char f = true) audio_files ->
  exists manifest w',
    (combined_audio_key ←
       PollyInvoker.combine_audio_files sv bucket reference_key audio_files;
     PollyInvoker.rename_to_audio_mp3 sv bucket combined_audio_key
       reference_key) w
    = (Ok (PollyInvoker.destination_key reference_key), w')
    /\ s3 w' !! (bucket, PollyInvoker.destination_key reference_key)
       = Some manifest
    /\ split_on "010"%char manifest = audio_files
    /\ s3 w' !! (bucket, PollyInvoker.combined_key reference_key) = None
    /\ (forall k,
          k <> (bucket, PollyInvoker.destination_key reference_key) ->
          k <> (bucket, PollyInvoker.combined_key reference_key) ->
          s3 w' !! k = s3 w !! k).
Proof.
  intros Hsf Hne Hall.
  exists (join LF audio_files). eexists.
  split; [|split; [|split; [|split]]].
  - rewrite bind_eq, (combine_writes_manifest sv) by auto.
    apply rename_moves; auto.
    cbn [s3 set_s3]. apply lookup_insert_eq.
  - cbn [s3 set_s3].
    rewrite lookup_delete_ne
      by (pose proof (combined_key_not_destination reference_key);
          congruence).
    apply lookup_insert_eq.
  - now apply split_on_join.
  - cbn [s3 set_s3]. apply lookup_delete_eq.
  - intros k Hd Hc. cbn [s3 set_s3].
    rewrite lookup_delete_ne by congruence.
    rewrite lookup_insert_ne by congruence.
    rewrite lookup_insert_ne by congruence. reflexivity.
Qed.

Lemma combined_audio_is_manifest_witness :
  exists manifest w',
    (combined_audio_key ←
       PollyInvoker.combine_audio_files Scenario.polly_fast "docs" "task"
         ["chunk_0_.t0.mp3"; "chunk_1_.t1.mp3"; "chunk_2_.t2.mp3"];
     PollyInvoker.rename_to_audio_mp3 Scenario.polly_fast "docs"
       combined_audio_key "task") Scenario.three_chunks
    = (Ok "download/task/Audio.mp3", w')
    /\ s3 w' !! ("docs", "download/task/Audio.mp3") = Some manifest
    /\ split_on "010"%char manifest
       = ["chunk_0_.t0.mp3"; "chunk_1_.t1.mp3"; "chunk_2_.t2.mp3"]
    /\ s3 w' !! ("docs", "download/task/combined_audio_info.txt") = None
    /\ (forall k,
          k <> ("docs", "download/task/Audio.mp3") ->
          k <> ("docs", "download/task/combined_audio_info.txt") ->
          s3 w' !! k = s3 Scenario.three_chunks !! k).
Proof.
  apply (combined_audio_is_manifest Scenario.polly_fast "docs" "task"
           ["chunk_0_.t0.mp3"; "chunk_1_.t1.mp3"; "chunk_2_.t2.mp3"]
           Scenario.three_chunks).
  - reflexivity.
  - discriminate.
  - repeat constructor.
Defined.

(** ** Between the stages *)

(** X10.  The key under which the extract-text stage stores its artifact
    names the task to the synthesize-speech stage: for a reference key
    without a slash, the segments of [output_key reference_key] are
    [download], the reference key and the file name, and the second one is
    what the synthesize-speech handler reads as the reference key. *)
Theorem extract_key_names_task (reference_key : string) (w : world) :
  no_char "/" reference_key = true ->
  split_on "/" (ImageConverter.output_key reference_key)
  = ["download"; reference_key; "formatted_output.txt"]
  /\ PollyInvoker.item_at 1
       (split_on "/" (ImageConverter.output_key reference_key)) w
     = (Ok reference_key, w).
Proof.
  intros Hrk.
  assert (H : split_on "/" (ImageConverter.output_key reference_key)
              = ["download"; reference_key; "formatted_output.txt"]).
  { change (ImageConverter.output_key reference_key)
      with (join "/" ["download"; reference_key; "formatted_output.txt"]).
    apply split_on_join; [discriminate|].
    repeat constructor; assumption. }
  split; [exact H|]. now rewrite H.
Qed.

Lemma extract_key_names_task_witness :
  split_on "/" (ImageConverter.output_key "task")
  = ["download"; "task"; "formatted_output.txt"]
  /\ PollyInvoker.item_at 1
       (split_on "/" (ImageConverter.output_key "task")) Scenario.text_ready
     = (Ok "task", Scenario.text_ready).
Proof.
  apply (extract_key_names_task "task" Scenario.text_ready). reflexivity.
Defined.

(** ** The query and the router *)

(** X11.  A scan that fails with a [ClientError] is answered with 500 and
    the text of the error; any other exception of the scan leaves
    [get_user_requests].  Nothing is changed either way. *)
Theorem user_requests_scan_fault (sv : TrackExecution.services)
    (username : string) (e : exn) (w : world) :
  TrackExecution.scan_fault sv = Some e ->
  TrackExecution.get_user_requests sv username w
  = (if is_client_error e
     then Ok (Response 500 (DumpsStr ("An error occurred: " +:+ str_exn e)))
     else Raise e, w).
Proof.
  intros Hfault. unfold TrackExecution.get_user_requests. mrun.
  cbn [TrackExecution.scan_loop]. rewrite Hfault. mrun.
  now destruct e.
Qed.

Lemma user_requests_scan_fault_witness :
  TrackExecution.get_user_requests Scenario.scan_throttled "ann"
    Scenario.three_tasks
  = (Ok (Response 500
           (DumpsStr
              "An error occurred: ProvisionedThroughputExceededException")),
     Scenario.three_tasks).
Proof.
  apply (user_requests_scan_fault Scenario.scan_throttled "ann"
           (ClientError "ProvisionedThroughputExceededException")
           Scenario.three_tasks).
  reflexivity.
Defined.

(** X12.  The router reads only: whatever the event, the signer and the
    scan do, and whether it returns or raises, it leaves the bucket, the
    table, the clock and the record of calls as they were. *)
Theorem track_is_read_only (sg : TrackExecution.signer)
    (sv : TrackExecution.services) (event : TrackExecution.event_fields)
    (w : world) :
  (TrackExecution.lambda_handler sg sv event w).2 = w.
Proof.
  unfold TrackExecution.lambda_handler.
  destruct (TrackExecution.ev_username event) as [username|].
  - rewrite bind_eq.
    pose proof (get_user_requests_world sv username w) as H.
    destruct (TrackExecution.get_user_requests sv username w)
      as [[r|e|] w1]; cbn [snd] in H; subst w1; reflexivity.
  - destruct (TrackExecution.ev_action event) as [action|]; [|reflexivity].
    destruct (TrackExecution.ev_reference_key event) as [reference_key|];
      [|reflexivity].
    destruct (String.eqb action "generate_url"); [|reflexivity].
    unfold TrackExecution.generate_presigned_url. mrun.
    destruct (TrackExecution.presign sg _ _ _) as [url|e]; [reflexivity|].
    now destruct e.
Qed.

(** X13.  A URL request without a user name is answered from the signer
    alone: the key signed is [download/<reference_key>/Audio.mp3], the key
    the synthesize-speech stage renames its result to, for one hour, and
    neither the table nor the bucket is consulted, so the URL is issued
    whatever the state of the task and whether or not the audio exists. *)
Theorem download_url_names_audio_key (sg : TrackExecution.signer)
    (sv : TrackExecution.services) (reference_key url : string)
    (w : world) :
  TrackExecution.presign sg (TrackExecution.S3_BUCKET sg)
    (PollyInvoker.destination_key reference_key) 3600 = Returns url ->
  TrackExecution.lambda_handler sg sv
    (TrackExecution.EventFields None (Some "generate_url")
       (Some reference_key)) w
  = (Ok (TrackExecution.UrlAnswer 200 TrackExecution.NO_CACHE url
           (Z.quot (now w) 1000)), w).
Proof.
  intros Hsign. unfold TrackExecution.lambda_handler.
  cbn [TrackExecution.ev_username TrackExecution.ev_action
       TrackExecution.ev_reference_key].
  change (String.eqb "generate_url" "generate_url") with true. cbv iota.
  unfold TrackExecution.generate_presigned_url. mrun.
  change (TrackExecution.object_key reference_key)
    with (PollyInvoker.destination_key reference_key).
  unfold TrackExecution.EXPIRES_IN. now rewrite Hsign.
Qed.

Lemma download_url_names_audio_key_witness :
  TrackExecution.lambda_handler Scenario.signer_works Scenario.small_pages
    (TrackExecution.EventFields None (Some "generate_url") (Some "task"))
    Scenario.idle
  = (Ok (TrackExecution.UrlAnswer 200 TrackExecution.NO_CACHE
           "https://docs.s3.amazonaws.com/download/task/Audio.mp3?X-Amz-Signature=0"
           0), Scenario.idle).
Proof.
  apply (download_url_names_audio_key Scenario.signer_works
           Scenario.small_pages "task"
           "https://docs.s3.amazonaws.com/download/task/Audio.mp3?X-Amz-Signature=0"
           Scenario.idle).
  reflexivity.
Defined.

(** ** The build trigger *)

(** X14.  Whatever CodeBuild answers to submissions and status requests,
    whatever the event, and however the handler ends (a response, an
    exception, or monitoring still going on), one invocation adds to the
    record of calls at most three submissions and at most two waits of
    thirty seconds. *)
Theorem build_trigger_submits_at_most_three (sv : CodebuildInvoker.services)
    (fuel : nat) (event_project_name env_project_name : option string)
    (w : world) :
  exists evs,
    log (CodebuildInvoker.lambda_handler sv fuel event_project_name
           env_project_name w).2 = log w ++ evs
    /\ (CodebuildInvoker.starts evs <= 3)%nat
    /\ (CodebuildInvoker.retries evs <= 2)%nat.
Proof.
  assert (Hnone : exists evs,
            log w = log w ++ evs
            /\ (CodebuildInvoker.starts evs <= 3)%nat
            /\ (CodebuildInvoker.retries evs <= 2)%nat).
  { exists []. rewrite app_nil_r. cbn. repeat split; lia. }
  unfold CodebuildInvoker.lambda_handler.
  destruct (CodebuildInvoker.py_or event_project_name env_project_name)
    as [[|c s]|]; try exact Hnone.
  rewrite bind_eq. unfold try_except_client. rewrite try_except_eq, bind_eq.
  rewrite submit_build_eq.
  assert (Hone : exists evs,
            log (add_event (EvStartBuild (String c s)) w) = log w ++ evs
            /\ (CodebuildInvoker.starts evs <= 3)%nat
            /\ (CodebuildInvoker.retries evs <= 2)%nat).
  { exists [EvStartBuild (String c s)]. cbn. repeat split; lia. }
  destruct (CodebuildInvoker.start_build sv (String c s) _) as [build_id|e].
  - mrun. change (Z.to_nat CodebuildInvoker.max_attempts) with 3%nat.
    destruct (attempt_loop_bound sv fuel (String c s) 3 1 build_id
                (add_event (EvStartBuild (String c s)) w))
      as (evs & Hlog & H1 & H2).
    change (Z.to_nat (CodebuildInvoker.max_attempts - 1)) with 2%nat in *.
    assert (Hall : exists evs',
              log (CodebuildInvoker.attempt_loop sv fuel (String c s) 3 1
                     build_id (add_event (EvStartBuild (String c s)) w)).2
              = log w ++ evs'
              /\ (CodebuildInvoker.starts evs' <= 3)%nat
              /\ (CodebuildInvoker.retries evs' <= 2)%nat).
    { exists ([EvStartBuild (String c s)] ++ evs).
      rewrite starts_app, retries_app. cbn [add_event log] in Hlog.
      split; [rewrite Hlog; now rewrite <- app_assoc|].
      change (CodebuildInvoker.starts [EvStartBuild (String c s)])
        with 1%nat.
      change (CodebuildInvoker.retries [EvStartBuild (String c s)])
        with 0%nat.
      lia. }
    destruct (CodebuildInvoker.attempt_loop sv fuel (String c s) 3 1
                build_id (add_event (EvStartBuild (String c s)) w))
      as [[[[success id] attempt]|e|] w']; cbn [snd] in Hall;
      try exact Hall.
    now destruct success.
  - mrun. destruct e; exact Hone.
Qed.

(** X15.  The project name of the event counts only when it is a
    non-empty string: without one the handler goes on as for the
    environment's name, and when that is missing or empty too it answers
    400 and submits nothing. *)
Theorem build_trigger_project_name (sv : CodebuildInvoker.services)
    (fuel : nat) (event_project_name env_project_name : option string)
    (w : world) :
  event_project_name = None \/ event_project_name = Some "" ->
  CodebuildInvoker.lambda_handler sv fuel event_project_name
    env_project_name w
  = CodebuildInvoker.lambda_handler sv fuel env_project_name None w
  /\ (env_project_name = None \/ env_project_name = Some "" ->
      CodebuildInvoker.lambda_handler sv fuel event_project_name
        env_project_name w
      = (Ok (Response 400 (Plain "Missing required parameter: project_name")),
         w)).
Proof.
  intros Hev. split.
  - destruct Hev as [-> | ->]; unfold CodebuildInvoker.lambda_handler;
      cbn [CodebuildInvoker.py_or];
      now destruct env_project_name as [[|c s]|].
  - intros Henv.
    destruct Hev as [-> | ->], Henv as [-> | ->]; reflexivity.
Qed.

Lemma build_trigger_project_name_witness :
  CodebuildInvoker.lambda_handler Scenario.builds_fail 10 (Some "") None
    Scenario.idle
  = (Ok (Response 400 (Plain "Missing required parameter: project_name")),
     Scenario.idle).
Proof.
  apply (build_trigger_project_name Scenario.builds_fail 10 (Some "") None
           Scenario.idle).
  - now right.
  - now left.
Defined.

(** X16.  A first submission that CodeBuild refuses with a [ClientError]
    is answered with 500 and the text of the error, after that one
    submission: nothing is monitored and nothing is submitted again.  Any
    other exception of the submission leaves the handler. *)
Theorem build_trigger_first_submission_refused
    (sv : CodebuildInvoker.services) (fuel : nat) (c : ascii) (s : string)
    (env_project_name : option string) (e : exn) (w : world) :
  CodebuildInvoker.start_build sv (String c s) (CodebuildInvoker.submissions w)
  = Fails e ->
  CodebuildInvoker.lambda_handler sv fuel (Some (String c s))
    env_project_name w
  = (if is_client_error e
     then Ok (Response 500 (Plain ("Failed to start build: " +:+ str_exn e)))
     else Raise e,
     add_event (EvStartBuild (String c s)) w).
Proof.
  intros Hstart. unfold CodebuildInvoker.lambda_handler.
  cbn [CodebuildInvoker.py_or].
  rewrite bind_eq. unfold try_except_client. rewrite try_except_eq, bind_eq.
  rewrite submit_build_eq, Hstart. mrun. now destruct e.
Qed.

Lemma build_trigger_first_submission_refused_witness :
  CodebuildInvoker.lambda_handler Scenario.codebuild_refuses 10
    (Some "vocaldocs") None Scenario.idle
  = (Ok (Response 500
           (Plain "Failed to start build: AccountLimitExceededException")),
     add_event (EvStartBuild "vocaldocs") Scenario.idle).
Proof.
  apply (build_trigger_first_submission_refused Scenario.codebuild_refuses
           10 "v" "ocaldocs" None
           (ClientError "AccountLimitExceededException") Scenario.idle).
  reflexivity.
Defined.

(** X17.  A status request that CodeBuild refuses with a [ClientError]
    ends the monitoring with [False] after that one request: the attempt
    counts as failed whatever the build is doing. *)
Theorem monitor_build_status_refused (sv : CodebuildInvoker.services)
    (fuel : nat) (build_id msg : string) (w : world) :
  CodebuildInvoker.batch_get_builds sv build_id
    (now w + CodebuildInvoker.POLL_SLEEP)%Z = Fails (ClientError msg) ->
  exists w',
    CodebuildInvoker.monitor_build sv (S fuel) build_id w = (Ok false, w')
    /\ log w' = log w ++ [EvSleep CodebuildInvoker.POLL_SLEEP;
                          EvPollBuild build_id
                            (now w + CodebuildInvoker.POLL_SLEEP)%Z].
Proof.
  intros Hget. eexists. split.
  - now apply (monitor_build_refused sv fuel build_id msg).
  - cbn [log add_event set_now]. now rewrite <- app_assoc.
Qed.

Lemma monitor_build_status_refused_witness :
  exists w',
    CodebuildInvoker.monitor_build Scenario.status_refused 1 "b0"
      Scenario.idle = (Ok false, w')
    /\ log w' = [EvSleep 10000; EvPollBuild "b0" 10000].
Proof.
  apply (monitor_build_status_refused Scenario.status_refused 0 "b0"
           "ThrottlingException" Scenario.idle).
  reflexivity.
Defined.

(** X18.  A status request that returns an empty list of builds leaves
    the handler as an [IndexError]: the subscript is inside a [try] that
    catches [ClientError] only.  One submission was made. *)
Theorem build_trigger_empty_builds_list (sv : CodebuildInvoker.services)
    (fuel : nat) (c : ascii) (s : string)
    (env_project_name : option string) (build_id : string) (w : world) :
  CodebuildInvoker.start_build sv (String c s) (CodebuildInvoker.submissions w)
  = Returns build_id ->
  CodebuildInvoker.batch_get_builds sv build_id
    (now w + CodebuildInvoker.POLL_SLEEP)%Z = Returns None ->
  exists w',
    CodebuildInvoker.lambda_handler sv (S fuel) (Some (String c s))
      env_project_name w = (Raise IndexError, w')
    /\ log w' = log w ++ [EvStartBuild (String c s);
                          EvSleep CodebuildInvoker.POLL_SLEEP;
                          EvPollBuild build_id
                            (now w + CodebuildInvoker.POLL_SLEEP)%Z].
Proof.
  intros Hstart Hget. eexists. split.
  - rewrite lambda_handler_submitted with (build_id := build_id)
      by assumption.
    cbn [CodebuildInvoker.attempt_loop]. rewrite bind_eq.
    rewrite monitor_build_no_build by exact Hget. reflexivity.
  - cbn [log add_event set_now]. now rewrite <- !app_assoc.
Qed.

Lemma build_trigger_empty_builds_list_witness :
  exists w',
    CodebuildInvoker.lambda_handler Scenario.no_builds_listed 1
      (Some "vocaldocs") None Scenario.idle = (Raise IndexError, w')
    /\ log w' = [EvStartBuild "vocaldocs"; EvSleep 10000;
                 EvPollBuild "b0" 10000].
Proof.
  apply (build_trigger_empty_builds_list Scenario.no_builds_listed 0
           "v" "ocaldocs" None "b0" Scenario.idle); reflexivity.
Defined.

(** X19.  When the first build ends without success and CodeBuild refuses
    both resubmissions with a [ClientError], the handler still makes its
    three attempts: each of them monitors the first build, which has
    ended, and the handler answers that the build failed after three
    attempts and three submissions. *)
Theorem build_trigger_resubmission_refused (sv : CodebuildInvoker.services)
    (c : ascii) (s : string) (env_project_name : option string)
    (id1 msg2 msg3 : string) (w : world) :
  CodebuildInvoker.start_build sv (String c s) (CodebuildInvoker.submissions w)
  = Returns id1 ->
  CodebuildInvoker.start_build sv (String c s)
    (S (CodebuildInvoker.submissions w)) = Fails (ClientError msg2) ->
  CodebuildInvoker.start_build sv (String c s)
    (S (S (CodebuildInvoker.submissions w))) = Fails (ClientError msg3) ->
  CodebuildInvoker.build_fails sv id1 ->
  exists (fuel0 : nat) (w' : world) (m1 m2 m3 : list event),
    (forall fuel, (fuel0 <= fuel)%nat ->
       CodebuildInvoker.lambda_handler sv fuel (Some (String c s))
         env_project_name w
       = (Ok CodebuildInvoker.FAILED_RESPONSE, w'))
    /\ log w'
       = log w ++ [EvStartBuild (String c s)] ++ m1
           ++ [EvSleep CodebuildInvoker.RETRY_SLEEP;
               EvStartBuild (String c s)] ++ m2
           ++ [EvSleep CodebuildInvoker.RETRY_SLEEP;
               EvStartBuild (String c s)] ++ m3
    /\ Forall (CodebuildInvoker.monitor_event id1) (m1 ++ m2 ++ m3).
Proof.
  intros Hstart1 Hstart2 Hstart3 H1.
  set (project_name := String c s) in *.
  destruct (counts_after_submit project_name w) as [Hs0 Hr0].
  destruct (failed_attempt_refused sv project_name id1 msg2 2 1
              (add_event (EvStartBuild project_name) w) H1)
    as (n1 & w1 & m1 & Hrun1 & Hlog1 & Hall1);
    [reflexivity | now rewrite Hs0 |].
  destruct (counts_after_retry id1 _ _ _ _ Hlog1 Hall1) as [Hs1 Hr1].
  destruct (failed_attempt_refused sv project_name id1 msg3 1 2 w1 H1)
    as (n2 & w2 & m2 & Hrun2 & Hlog2 & Hall2);
    [reflexivity | now rewrite Hs1, Hs0 |].
  destruct (failed_last_attempt sv project_name id1 3 w2 H1)
    as (n3 & w3 & m3 & Hrun3 & Hlog3 & Hall3); [reflexivity|].
  exists (S (n1 + n2 + n3)), w3, m1, m2, m3.
  split; [|split].
  - intros fuel Hf. subst project_name.
    rewrite lambda_handler_submitted with (build_id := id1) by assumption.
    rewrite Hrun1 by lia. change (1 + 1)%Z with 2%Z.
    rewrite Hrun2 by lia. change (2 + 1)%Z with 3%Z.
    rewrite Hrun3 by lia. reflexivity.
  - rewrite Hlog3, Hlog2, Hlog1. cbn [log add_event].
    now rewrite <- !app_assoc.
  - rewrite !Forall_app. auto.
Qed.

Lemma build_trigger_resubmission_refused_witness :
  exists (fuel0 : nat) (w' : world),
    (forall fuel, (fuel0 <= fuel)%nat ->
       CodebuildInvoker.lambda_handler Scenario.resubmission_refused fuel
         (Some "vocaldocs") None Scenario.idle
       = (Ok CodebuildInvoker.FAILED_RESPONSE, w'))
    /\ CodebuildInvoker.starts (log w') = 3%nat.
Proof.
  destruct (build_trigger_resubmission_refused Scenario.resubmission_refused
              "v" "ocaldocs" None "b0" "AccountLimitExceededException"
              "AccountLimitExceededException" Scenario.idle
              eq_refl eq_refl eq_refl)
    as (fuel0 & w' & m1 & m2 & m3 & Hrun & Hlog & Hall).
  - exists 25000%Z, "FAILED".
    split; [discriminate|]. split; [discriminate|]. intros t. reflexivity.
  - exists fuel0, w'. split; [exact Hrun|].
    apply Forall_app in Hall as [H1 H23]. apply Forall_app in H23 as [H2 H3].
    rewrite Hlog, !starts_app.
    destruct (monitor_events_counts "b0" m1 H1) as [-> _].
    destruct (monitor_events_counts "b0" m2 H2) as [-> _].
    destruct (monitor_events_counts "b0" m3 H3) as [-> _].
    reflexivity.
Defined.

(** ** The extract-text stage *)

(** X20.  Whatever the event and the services do, and whether the handler
    returns or raises, the extract-text stage changes nothing but the text
    artifact of the task the event names and the record of that task: the
    clock, the record of calls and the synthesis tasks stay, every other
    object and every other record stays, and in particular no object whose
    key starts with [images/] is removed or rewritten. *)
Theorem extract_changes_artifact_and_record_only
    (sv : ImageConverter.services)
    (event : option ImageConverter.sns_message) (w : world) :
  changes_only (ImageConverter.artifact_of event)
    (ImageConverter.bound_reference_key event) w
    (ImageConverter.lambda_handler sv event w).2
  /\ forall bucket key,
       String.prefix "images/" key = true ->
       s3 (ImageConverter.lambda_handler sv event w).2 !! (bucket, key)
       = s3 w !! (bucket, key).
Proof.
  pose proof (changes_only_lambda_handler sv event w) as H.
  split; [exact H|].
  intros bucket key Hprefix.
  destruct H as (_ & _ & _ & Hs3 & _). apply Hs3.
  destruct event as [[[reference_key|] [bucket'|]]|]; try discriminate.
  cbn. intros [= -> ->]. discriminate Hprefix.
Qed.

(** ** The upload *)

(** X21.  An upload and the query that follows it.  For an event with all
    its fields, a content that decodes and services that answer, the
    handler answers 200 with the reference key it drew, the file is under
    [upload/<reference_key>/<fileName>] in the bucket, the record of the
    task holds the status [Upload-Completed] and the URI of that file, and
    a user-requests query of the same user lists the task as
    [Work-In-Progress]. *)
Theorem upload_then_query (sv : UploadExecution.services)
    (tsv : TrackExecution.services)
    (file_name language start_page end_page content64 username
       content : string) (w : world) :
  UploadExecution.b64decode sv content64 = Returns content ->
  UploadExecution.put_object_fault sv = None ->
  UploadExecution.put_item_fault sv = None ->
  TrackExecution.scan_fault tsv = None ->
  Forall (fun item => is_Some (item !! "reference_key"))
    (TrackExecution.table_items w) ->
  let reference_key := UploadExecution.uuid4 sv in
  let bucket := UploadExecution.S3_BUCKET sv in
  exists (w' : world) (item : gmap string string) (requests : list request),
    UploadExecution.lambda_handler sv
      (UploadExecution.UploadEvent (Some file_name) (Some language)
         (Some start_page) (Some end_page) (Some content64) (Some username))
      w
    = (Ok (Response 200
             (DumpsObj [("message", UploadExecution.SUBMITTED);
                        ("reference_key", reference_key)])), w')
    /\ s3 w' !! (bucket, UploadExecution.upload_key reference_key file_name)
       = Some content
    /\ table w' !! reference_key = Some item
    /\ item !! "TaskStatus" = Some UploadExecution.INITIAL_STATUS
    /\ item !! "S3Path"
       = Some ("s3://" +:+ bucket +:+ "/"
                 +:+ UploadExecution.upload_key reference_key file_name)
    /\ TrackExecution.get_user_requests tsv username w'
       = (Ok (Response 200 (DumpsRequests requests)), w')
    /\ In (Request reference_key file_name "Work-In-Progress") requests.
Proof.
  intros Hdecode Hput Hitem Hscan Hkeys reference_key bucket.
  subst reference_key bucket.
  pose proof (upload_stores sv file_name language start_page end_page
                content64 username content w Hdecode Hput Hitem) as Hrun.
  eexists. eexists. eexists.
  split; [exact Hrun|].
  split; [cbn [s3 set_table set_s3]; apply lookup_insert_eq|].
  split; [cbn [table set_table]; apply lookup_insert_eq|].
  split; [apply new_item_TaskStatus|].
  split; [apply new_item_S3Path|].
  split.
  - apply get_user_requests_eq; [assumption|].
    apply table_items_put.
    + unfold TrackExecution.table_items in *. exact Hkeys.
    + rewrite new_item_reference_key. eauto.
  - apply in_map_iff. eexists. split; [apply new_item_request|].
    apply filter_In. split; [apply table_items_put_in|].
    apply new_item_is_user.
Qed.

Lemma upload_then_query_witness :
  exists (w' : world) (item : gmap string string) (requests : list request),
    UploadExecution.lambda_handler Scenario.upload_works
      (UploadExecution.UploadEvent (Some "report.pdf") (Some "English")
         (Some "2") (Some "10") (Some "JVBERi0=") (Some "user@example.com"))
      Scenario.idle
    = (Ok (Response 200
             (DumpsObj [("message", UploadExecution.SUBMITTED);
                        ("reference_key", "task")])), w')
    /\ s3 w' !! ("docs", "upload/task/report.pdf") = Some "pdf:JVBERi0="
    /\ table w' !! "task" = Some item
    /\ item !! "TaskStatus" = Some "Upload-Completed"
    /\ item !! "S3Path" = Some "s3://docs/upload/task/report.pdf"
    /\ TrackExecution.get_user_requests Scenario.small_pages
         "user@example.com" w'
       = (Ok (Response 200 (DumpsRequests requests)), w')
    /\ In (Request "task" "report.pdf" "Work-In-Progress") requests.
Proof.
  apply (upload_then_query Scenario.upload_works Scenario.small_pages
           "report.pdf" "English" "2" "10" "JVBERi0=" "user@example.com"
           "pdf:JVBERi0=" Scenario.idle); try reflexivity.
  change (TrackExecution.table_items Scenario.idle)
    with (@nil (gmap string string)).
  constructor.
Defined.

(** X22.  No exception leaves the upload handler: whatever the event and
    the services do, it returns a response, with status 200 or 500. *)
Theorem upload_never_raises (sv : UploadExecution.services)
    (event : UploadExecution.upload_event) (w : world) :
  exists r w',
    UploadExecution.lambda_handler sv event w = (Ok r, w')
    /\ (statusCode r = 200 \/ statusCode r = 500)%Z.
Proof. apply upload_returns. Qed.

(** X23.  The two writes of an upload are not undone: when the file was
    stored and storing the record fails, the handler answers 500 with the
    text of the error, the file stays in the bucket and the table is as it
    was, so the file belongs to no task. *)
Theorem upload_record_fault_leaves_file (sv : UploadExecution.services)
    (file_name language start_page end_page content64 username
       content : string) (e : exn) (w : world) :
  UploadExecution.b64decode sv content64 = Returns content ->
  UploadExecution.put_object_fault sv = None ->
  UploadExecution.put_item_fault sv = Some e ->
  exists w',
    UploadExecution.lambda_handler sv
      (UploadExecution.UploadEvent (Some file_name) (Some language)
         (Some start_page) (Some end_page) (Some content64) (Some username))
      w
    = (Ok (Response 500 (DumpsStr ("An error occurred: " +:+ str_exn e))),
       w')
    /\ s3 w' !! (UploadExecution.S3_BUCKET sv,
                 UploadExecution.upload_key (UploadExecution.uuid4 sv)
                   file_name) = Some content
    /\ table w' = table w.
Proof.
  intros Hdecode Hput Hitem. eexists. split; [|split].
  - unfold UploadExecution.lambda_handler.
    cbn [UploadExecution.ev_fileName UploadExecution.ev_language
         UploadExecution.ev_startPage UploadExecution.ev_endPage
         UploadExecution.ev_fileContent UploadExecution.ev_username].
    mrun. rewrite Hdecode, Hput. unfold put_object. mrun.
    rewrite Hitem. reflexivity.
  - cbn [s3 set_s3]. apply lookup_insert_eq.
  - reflexivity.
Qed.

Lemma upload_record_fault_leaves_file_witness :
  exists w',
    UploadExecution.lambda_handler Scenario.table_refuses
      (UploadExecution.UploadEvent (Some "report.pdf") (Some "English")
         (Some "2") (Some "10") (Some "JVBERi0=") (Some "user@example.com"))
      Scenario.idle
    = (Ok (Response 500
             (DumpsStr "An error occurred: ResourceNotFoundException")), w')
    /\ s3 w' !! ("docs", "upload/task/report.pdf") = Some "pdf:JVBERi0="
    /\ table w' = table Scenario.idle.
Proof.
  apply (upload_record_fault_leaves_file Scenario.table_refuses
           "report.pdf" "English" "2" "10" "JVBERi0=" "user@example.com"
           "pdf:JVBERi0=" (ClientError "ResourceNotFoundException")
           Scenario.idle); reflexivity.
Defined.

(** X24.  An upload is checked before anything is written: when the event
    lacks one of its six fields, or the content does not decode, the
    handler answers 500 and the bucket and the table are as they were. *)
Theorem upload_rejects_before_writing (sv : UploadExecution.services)
    (event : UploadExecution.upload_event) (w : world) :
  UploadExecution.ev_fileName event = None
  \/ UploadExecution.ev_language event = None
  \/ UploadExecution.ev_startPage event = None
  \/ UploadExecution.ev_endPage event = None
  \/ UploadExecution.ev_fileContent event = None
  \/ UploadExecution.ev_username event = None
  \/ (exists content64 e,
        UploadExecution.ev_fileContent event = Some content64
        /\ UploadExecution.b64decode sv content64 = Fails e) ->
  exists r,
    UploadExecution.lambda_handler sv event w = (Ok r, w)
    /\ statusCode r = 500%Z.
Proof.
  intros H. unfold UploadExecution.lambda_handler. mrun.
  destruct event as [[f|] [l|] [s|] [e|] [c|] [u|]];
    cbn [UploadExecution.ev_fileName UploadExecution.ev_language
         UploadExecution.ev_startPage UploadExecution.ev_endPage
         UploadExecution.ev_fileContent UploadExecution.ev_username] in *;
    try (eexists; split; reflexivity).
  destruct H as [H|[H|[H|[H|[H|[H|(c' & e' & [= <-] & H)]]]]]];
    try discriminate.
  rewrite H. eexists; split; reflexivity.
Qed.

Lemma upload_rejects_before_writing_witness :
  exists r,
    UploadExecution.lambda_handler Scenario.upload_works
      Scenario.upload_without_content Scenario.idle = (Ok r, Scenario.idle)
    /\ statusCode r = 500%Z.
Proof.
  apply (upload_rejects_before_writing Scenario.upload_works
           Scenario.upload_without_content Scenario.idle).
  do 4 right. left. reflexivity.
Defined.

(** ** The rasterize stage *)

(** X25.  An event from which the reference key cannot be read (no
    [Records], no new image, or a [reference_key] attribute that is
    missing or not a string) does not get the 500 response: the [except]
    clause passes [reference_key] to the status update before the variable
    was assigned, so the handler raises [UnboundLocalError], and nothing is
    written. *)
Theorem rasterize_without_reference_key (sv : CodebuildArtifacts.services)
    (event : CodebuildArtifacts.stream_event) (w : world) :
  CodebuildArtifacts.bound_reference_key event = None ->
  CodebuildArtifacts.lambda_handler sv event w
  = (Raise (UnboundLocalError "reference_key"), w).
Proof.
  intros Hbound. unfold CodebuildArtifacts.lambda_handler.
  destruct event as [| e |[[| |rk] a_path a_start a_end]];
    try discriminate Hbound;
    unfold CodebuildArtifacts.handler_try; read_image; reflexivity.
Qed.

Lemma rasterize_without_reference_key_witness :
  CodebuildArtifacts.lambda_handler Scenario.rasterizer
    CodebuildArtifacts.NoRecords Scenario.pdf_uploaded
  = (Raise (UnboundLocalError "reference_key"), Scenario.pdf_uploaded).
Proof.
  apply (rasterize_without_reference_key Scenario.rasterizer
           CodebuildArtifacts.NoRecords Scenario.pdf_uploaded).
  reflexivity.
Defined.

(** X26.  With the reference key read and the table answering, the
    handler always returns, and the status it writes matches its answer:
    either the answer 200 with the status
    [pdf-to-images conversion is completed], or the answer 500 with the
    status [pdf-to-images conversion is failed], nothing published and
    the bucket as it was. *)
Theorem rasterize_answers_when_key_read (sv : CodebuildArtifacts.services)
    (event : CodebuildArtifacts.stream_event) (reference_key : string)
    (w : world) :
  CodebuildArtifacts.bound_reference_key event = Some reference_key ->
  CodebuildArtifacts.update_item_fault sv = None ->
  exists a p w',
    CodebuildArtifacts.lambda_handler sv event w = (Ok (a, p), w')
    /\ ((exists n uploaded,
           a = CodebuildArtifacts.Processed reference_key n uploaded
           /\ TaskStatus_of reference_key w'
              = Some CodebuildArtifacts.STATUS_COMPLETED)
        \/ (exists error,
              a = CodebuildArtifacts.Failed error reference_key
              /\ p = None
              /\ TaskStatus_of reference_key w'
                 = Some CodebuildArtifacts.STATUS_FAILED
              /\ s3 w' = s3 w)).
Proof.
  intros Hbound Hu. unfold CodebuildArtifacts.lambda_handler.
  rewrite try_except_eq.
  destruct (handler_try_outcome sv event reference_key w Hbound)
    as [[e ->]|(bucket & start_page & images & uploaded & published & w1
                & -> & _ & _)].
  - rewrite Hbound, bind_eq, status_written by assumption.
    eexists. eexists. eexists. split; [reflexivity|]. right.
    eexists. split; [reflexivity|]. split; [reflexivity|].
    split; [apply TaskStatus_of_update | reflexivity].
  - eexists. eexists. eexists. split; [reflexivity|]. left.
    eexists. eexists. split; [reflexivity|].
    rewrite status_written by assumption. apply TaskStatus_of_update.
Qed.

Lemma rasterize_answers_when_key_read_witness :
  exists a p w',
    CodebuildArtifacts.lambda_handler Scenario.rasterizer
      Scenario.stream_record_all_pages Scenario.pdf_uploaded
    = (Ok (a, p), w')
    /\ ((exists n uploaded,
           a = CodebuildArtifacts.Processed "task" n uploaded
           /\ TaskStatus_of "task" w'
              = Some CodebuildArtifacts.STATUS_COMPLETED)
        \/ (exists error,
              a = CodebuildArtifacts.Failed error "task"
              /\ p = None
              /\ TaskStatus_of "task" w'
                 = Some CodebuildArtifacts.STATUS_FAILED
              /\ s3 w' = s3 Scenario.pdf_uploaded)).
Proof.
  apply (rasterize_answers_when_key_read Scenario.rasterizer
           Scenario.stream_record_all_pages "task" Scenario.pdf_uploaded);
    reflexivity.
Defined.

(** X27.  The status of the rasterize stage does not depend on the images
    stored.  For an event that can be read, with the file in the bucket
    and a PDF that converts to some images, when the bucket refuses every
    image the handler still writes
    [pdf-to-images conversion is completed], answers 200 with the number
    of pages and no uploaded image, and publishes a notification without
    images; the bucket is as it was.  The extract-text stage, notified,
    then finds no image for the task, writes [pdf-to-images is failed]
    and answers that there is nothing to process. *)
Theorem rasterize_completed_without_images
    (sv : CodebuildArtifacts.services) (isv : ImageConverter.services)
    (reference_key s3_path start end_ bucket key pdf : string)
    (start_page end_page : Z) (images : list string) (w : world) :
  CodebuildArtifacts.parse_s3_path sv s3_path = (bucket, key) ->
  CodebuildArtifacts.int_of sv start = Returns start_page ->
  CodebuildArtifacts.int_of sv end_ = Returns end_page ->
  CodebuildArtifacts.download_fault sv = None ->
  s3 w !! (bucket, key) = Some pdf ->
  CodebuildArtifacts.convert_from_path sv pdf start_page end_page
  = Returns images ->
  (forall k, CodebuildArtifacts.put_object_fault sv k <> None) ->
  CodebuildArtifacts.update_item_fault sv = None ->
  CodebuildArtifacts.publish_fault sv = None ->
  ImageConverter.paginate_fault isv = None ->
  ImageConverter.update_item_fault isv = None ->
  list_keys bucket (ImageConverter.images_prefix reference_key) w = [] ->
  exists w' w'',
    CodebuildArtifacts.lambda_handler sv
      (CodebuildArtifacts.Image
         (CodebuildArtifacts.NewImage
            (CodebuildArtifacts.S_ reference_key)
            (CodebuildArtifacts.S_ s3_path) (CodebuildArtifacts.S_ start)
            (CodebuildArtifacts.S_ end_))) w
    = (Ok (CodebuildArtifacts.Processed reference_key (length images) [],
           Some (CodebuildArtifacts.Notification
                   (CodebuildArtifacts.topic_arn sv) reference_key bucket
                   [])), w')
    /\ TaskStatus_of reference_key w'
       = Some CodebuildArtifacts.STATUS_COMPLETED
    /\ s3 w' = s3 w
    /\ ImageConverter.lambda_handler isv
         (Some (ImageConverter.SnsMessage (Some reference_key)
                  (Some bucket))) w'
       = (Ok (Response 200 (DumpsStr "No images found to process")), w'')
    /\ TaskStatus_of reference_key w''
       = Some ImageConverter.STATUS_NO_IMAGES.
Proof.
  intros Hparse Hstart Hend Hdown Hpdf Hconv Hput Hu Hpub Hpag Hiu Hnone.
  exists (update_item reference_key CodebuildArtifacts.STATUS_COMPLETED w).2.
  eexists. split; [|split; [|split; [|split]]].
  - unfold CodebuildArtifacts.lambda_handler. rewrite try_except_eq.
    rewrite (handler_try_converted sv reference_key s3_path start end_
               bucket key pdf start_page end_page images w) by assumption.
    rewrite bind_eq, for_images_none by assumption. cbv beta iota.
    rewrite bind_eq, status_written by assumption. cbv beta iota.
    mrun. rewrite Hpub. reflexivity.
  - apply TaskStatus_of_update.
  - reflexivity.
  - apply handler_no_images; assumption.
  - apply TaskStatus_of_update.
Qed.

Lemma rasterize_completed_without_images_witness :
  exists w' w'',
    CodebuildArtifacts.lambda_handler Scenario.rasterizer_refused
      Scenario.stream_record Scenario.pdf_uploaded
    = (Ok (CodebuildArtifacts.Processed "task" 2 [],
           Some (CodebuildArtifacts.Notification
                   "arn:aws:sns:eu-west-1:123456789012:images" "task" "docs"
                   [])), w')
    /\ TaskStatus_of "task" w' = Some "pdf-to-images conversion is completed"
    /\ s3 w' = s3 Scenario.pdf_uploaded
    /\ ImageConverter.lambda_handler Scenario.bedrock_reads
         (Some (ImageConverter.SnsMessage (Some "task") (Some "docs"))) w'
       = (Ok (Response 200 (DumpsStr "No images found to process")), w'')
    /\ TaskStatus_of "task" w'' = Some "pdf-to-images is failed".
Proof.
  apply (rasterize_completed_without_images Scenario.rasterizer_refused
           Scenario.bedrock_reads "task" "s3://docs/upload/task/report.pdf"
           "2" "3" "docs" "upload/task/report.pdf" "pdf" 2 3
           ["pdf#2"; "pdf#3"] Scenario.pdf_uploaded);
    try reflexivity.
  discriminate.
Defined.

(** X28.  The rasterize stage hands its images to the extract-text stage.
    For an event that can be read, with the file in the bucket, a PDF
    that converts, images that are all stored and a table and a topic
    that answer, the handler answers 200 and publishes the reference key,
    the bucket and the keys [images/<reference_key>/page_<n>.png] for the
    page numbers from [start_page] on, in page order; every one of these
    keys is among the keys the extract-text stage lists for the task, and
    the status is [pdf-to-images conversion is completed]. *)
Theorem rasterize_hands_images_to_extract
    (sv : CodebuildArtifacts.services)
    (reference_key s3_path start end_ bucket key pdf : string)
    (start_page end_page : Z) (images : list string) (w : world) :
  CodebuildArtifacts.parse_s3_path sv s3_path = (bucket, key) ->
  CodebuildArtifacts.int_of sv start = Returns start_page ->
  CodebuildArtifacts.int_of sv end_ = Returns end_page ->
  CodebuildArtifacts.download_fault sv = None ->
  s3 w !! (bucket, key) = Some pdf ->
  CodebuildArtifacts.convert_from_path sv pdf start_page end_page
  = Returns images ->
  (forall image, In image images ->
     exists png, CodebuildArtifacts.save_png sv image = Returns png) ->
  (forall k, CodebuildArtifacts.put_object_fault sv k = None) ->
  CodebuildArtifacts.update_item_fault sv = None ->
  CodebuildArtifacts.publish_fault sv = None ->
  let keys :=
    CodebuildArtifacts.page_keys reference_key start_page 0 (length images) in
  exists w',
    CodebuildArtifacts.lambda_handler sv
      (CodebuildArtifacts.Image
         (CodebuildArtifacts.NewImage
            (CodebuildArtifacts.S_ reference_key)
            (CodebuildArtifacts.S_ s3_path) (CodebuildArtifacts.S_ start)
            (CodebuildArtifacts.S_ end_))) w
    = (Ok (CodebuildArtifacts.Processed reference_key (length images) keys,
           Some (CodebuildArtifacts.Notification
                   (CodebuildArtifacts.topic_arn sv) reference_key bucket
                   keys)), w')
    /\ Forall (fun k =>
                 In k (list_keys bucket
                         (ImageConverter.images_prefix reference_key) w'))
         keys
    /\ TaskStatus_of reference_key w'
       = Some CodebuildArtifacts.STATUS_COMPLETED.
Proof.
  intros Hparse Hstart Hend Hdown Hpdf Hconv Hsave Hput Hu Hpub keys.
  pose proof (for_images_keeps sv bucket reference_key start_page images 0
                [] w) as (new & Hr & _ & _ & _ & _ & _ & _ & Hall).
  pose proof (for_images_all sv bucket reference_key start_page images
                Hsave Hput 0 [] w) as Hkeys.
  destruct (CodebuildArtifacts.for_images sv bucket reference_key start_page
              images 0 [] w) as [r w1] eqn:Hrun.
  cbn [fst snd app] in *. subst r. injection Hkeys as ->. fold keys in Hall.
  exists (update_item reference_key CodebuildArtifacts.STATUS_COMPLETED w1).2.
  split; [|split].
  - unfold CodebuildArtifacts.lambda_handler. rewrite try_except_eq.
    rewrite (handler_try_converted sv reference_key s3_path start end_
               bucket key pdf start_page end_page images w) by assumption.
    rewrite bind_eq, Hrun. cbv beta iota.
    rewrite bind_eq, status_written by assumption. cbv beta iota.
    mrun. rewrite Hpub. reflexivity.
  - apply List.Forall_forall. intros k Hin.
    rewrite List.Forall_forall in Hall.
    destruct (Hall k Hin) as [[j ->] Hsome].
    apply list_keys_in. split; [exact Hsome | apply image_key_prefix].
  - apply TaskStatus_of_update.
Qed.

Lemma rasterize_hands_images_to_extract_witness :
  exists w',
    CodebuildArtifacts.lambda_handler Scenario.rasterizer
      Scenario.stream_record Scenario.pdf_uploaded
    = (Ok (CodebuildArtifacts.Processed "task" 2
             ["images/task/page_2.png"; "images/task/page_3.png"],
           Some (CodebuildArtifacts.Notification
                   "arn:aws:sns:eu-west-1:123456789012:images" "task" "docs"
                   ["images/task/page_2.png"; "images/task/page_3.png"])),
       w')
    /\ Forall (fun k =>
                 In k (list_keys "docs" (ImageConverter.images_prefix "task")
                         w'))
         ["images/task/page_2.png"; "images/task/page_3.png"]
    /\ TaskStatus_of "task" w' = Some "pdf-to-images conversion is completed".
Proof.
  apply (rasterize_hands_images_to_extract Scenario.rasterizer "task"
           "s3://docs/upload/task/report.pdf" "2" "3" "docs"
           "upload/task/report.pdf" "pdf" 2 3 ["pdf#2"; "pdf#3"]
           Scenario.pdf_uploaded); try reflexivity.
  intros image _. eexists. reflexivity.
Defined.
